(** * Postman collection builder: rule compiler, serializer and folder tree

    Shallow embedding of [src/collection-schema.ts] (module
    [CollectionSchema]) and of the class [HttpPostmanBuilder] of
    [src/index.ts] (module [Index]), with the properties of the
    specification stated over them. *)

From Stdlib Require Import Ascii String.
From stdpp Require Import base list strings numbers pretty gmap.

Set Warnings "-register-all".
Local Open Scope Z_scope.

(** ** JavaScript values *)

(** Numbers are the integers together with the three non-finite values
    that [isFinite] tells apart.  [Int z] is the double of that value, for
    [z] in the range where doubles are exact and are printed in plain
    decimal notation. *)
Inductive number : Type :=
| Int (z : Z)
| NaN
| Infinity (negative : bool).

(** The values a rule's [default] (of type [any]) may hold and the values
    the compilers return.  An object is the list of its own enumerable
    properties in enumeration order, keys pairwise distinct; a function is
    known by its source text. *)
Inductive JsonData : Type :=
| JUndefined
| JNull
| JBool (b : bool)
| JNum (n : number)
| JStr (s : string)
| JFunction (source : string)
| JArr (elems : list JsonData)
| JObj (props : list (string * JsonData)).

(** Errors a JavaScript evaluation may raise in the modelled code. *)
Inductive JsError : Type :=
| TypeError
| RangeError.

Inductive result (A : Type) : Type :=
| Ok (a : A)
| Throw (e : JsError).
Arguments Ok {A} a.
Arguments Throw {A} e.

#[global] Instance result_ret : MRet result := fun A a => Ok a.
#[global] Instance result_bind : MBind result := fun A B f m =>
  match m with
  | Ok a => f a
  | Throw e => Throw e
  end.

(** ** Validation rules ([@evojs/validator]) *)

(** Fields every rule kind has: [default] ([JUndefined] when absent) and the
    remaining own properties that the builders never read by name
    ([optional], [min], [max], ...). *)
Record CommonRule : Type := mkCommon {
  c_default : JsonData;
  c_extra : list (string * JsonData)
}.

(** [PrimitiveRule] is the union of the rule kinds; a rule position holds a
    single rule or a list of variants ([ValidationRule]).  Type-specific
    fields are optional.  [OtherRule] covers every other [type] value and
    the missing [type]. *)
Inductive PrimitiveRule : Type :=
| StringRule (c : CommonRule) (values : option (list string))
| NumberRule (c : CommonRule) (integer : option bool)
    (values : option (list number))
| BooleanRule (c : CommonRule)
| ObjectRule (c : CommonRule)
    (schema : option (list (string * ValidationRule)))
    (nested : option ValidationRule)
| ArrayRule (c : CommonRule) (schema : option (list ValidationRule))
    (nested : option ValidationRule) (length : option Z)
| OtherRule (type : option string) (c : CommonRule)
with ValidationRule : Type :=
| Single (p : PrimitiveRule)
| Variants (ps : list PrimitiveRule).

(** [ValidationSchema]: field name to rule, in enumeration order. *)
Definition ValidationSchema : Type := list (string * ValidationRule).

Definition rule_common (p : PrimitiveRule) : CommonRule :=
  match p with
  | StringRule c _ | NumberRule c _ _ | BooleanRule c
  | ObjectRule c _ _ | ArrayRule c _ _ _ | OtherRule _ c => c
  end.

(** [rule.type] *)
Definition rule_type (p : PrimitiveRule) : option string :=
  match p with
  | StringRule _ _ => Some "string"
  | NumberRule _ _ _ => Some "number"
  | BooleanRule _ => Some "boolean"
  | ObjectRule _ _ _ => Some "object"
  | ArrayRule _ _ _ _ => Some "array"
  | OtherRule t _ => t
  end.

(** [rule.default] *)
Definition rule_default (p : PrimitiveRule) : JsonData :=
  c_default (rule_common p).

(** [rule.nested] *)
Definition rule_nested (p : PrimitiveRule) : option ValidationRule :=
  match p with
  | ObjectRule _ _ n | ArrayRule _ _ n _ => n
  | _ => None
  end.

(** [rule.values], as values. *)
Definition rule_values (p : PrimitiveRule) : option (list JsonData) :=
  match p with
  | StringRule _ vs => fmap (M:=list) JStr <$> vs
  | NumberRule _ _ vs => fmap (M:=list) JNum <$> vs
  | _ => None
  end.

(** [typeof d !== 'undefined' && typeof d !== 'function'] *)
Definition usable_default (d : JsonData) : bool :=
  match d with
  | JUndefined | JFunction _ => false
  | _ => true
  end.

(** The first element of a variant list stands for the whole list:
    [Array.isArray(rule) ? rule[0] : rule] ([None] is [undefined]). *)
Definition representative (r : ValidationRule) : option PrimitiveRule :=
  match r with
  | Single p => Some p
  | Variants ps => head ps
  end.

(** A rule node seen as a plain value: the object of its defined own
    properties (a list of variants is an array of such objects). *)
Definition prop {A} (k : string) (f : A → JsonData) (o : option A)
  : list (string * JsonData) :=
  match o with
  | Some a => [(k, f a)]
  | None => []
  end.

Definition default_prop (d : JsonData) : list (string * JsonData) :=
  match d with
  | JUndefined => []
  | _ => [("default", d)]
  end.

Definition common_props (c : CommonRule) : list (string * JsonData) :=
  default_prop (c_default c) ++ c_extra c.

Fixpoint rule_object (r : ValidationRule) : JsonData :=
  match r with
  | Single p => prim_object p
  | Variants ps => JArr (map prim_object ps)
  end
with prim_object (p : PrimitiveRule) : JsonData :=
  match p with
  | StringRule c vs =>
      JObj (("type", JStr "string") :: common_props c
            ++ prop "values" (λ l, JArr (map JStr l)) vs)
  | NumberRule c i vs =>
      JObj (("type", JStr "number") :: common_props c
            ++ prop "integer" JBool i
            ++ prop "values" (λ l, JArr (map JNum l)) vs)
  | BooleanRule c => JObj (("type", JStr "boolean") :: common_props c)
  | ObjectRule c s n =>
      JObj (("type", JStr "object") :: common_props c
            ++ prop "schema"
                 (λ l, JObj (map (λ kr, (kr.1, rule_object kr.2)) l)) s
            ++ prop "nested" rule_object n)
  | ArrayRule c s n len =>
      JObj (("type", JStr "array") :: common_props c
            ++ prop "schema" (λ l, JArr (map rule_object l)) s
            ++ prop "nested" rule_object n
            ++ prop "length" (λ z, JNum (Int z)) len)
  | OtherRule t c => JObj (prop "type" JStr t ++ common_props c)
  end.

(** ** Strings *)

(** A string is a sequence of code units below 256. *)
Definition LF : ascii := ascii_of_nat 10.
Definition TAB : ascii := ascii_of_nat 9.
Definition SP : ascii := " "%char.
Definition SLASH : ascii := "/"%char.
Definition QUOTE : ascii := ascii_of_nat 34.

(** [Number.prototype.toString()] *)
Definition number_toString (n : number) : string :=
  match n with
  | Int z => pretty z
  | NaN => "NaN"
  | Infinity false => "Infinity"
  | Infinity true => "-Infinity"
  end.

(** [s.replace(/\n+ */g, ' ')]: every run of line feeds together with the
    spaces that follow it becomes one space.  [in_nl] holds while the
    scanner is inside the line feeds of a match, [in_sp] while it is inside
    the spaces that close it. *)
Fixpoint collapse_go (in_nl in_sp : bool) (s : string) : string :=
  match s with
  | EmptyString => EmptyString
  | String c s' =>
      if Ascii.eqb c LF then
        if in_nl then collapse_go true false s'
        else String SP (collapse_go true false s')
      else if Ascii.eqb c SP && (in_nl || in_sp) then
        collapse_go false true s'
      else String c (collapse_go false false s')
  end.

Definition collapse_linebreaks (s : string) : string :=
  collapse_go false false s.

(** White space removed by [String.prototype.trim()]. *)
Definition is_js_space (c : ascii) : bool :=
  let n := nat_of_ascii c in
  ((9 <=? n) && (n <=? 13) || (n =? 32) || (n =? 160))%nat.

Fixpoint trim_start (s : string) : string :=
  match s with
  | String c s' => if is_js_space c then trim_start s' else s
  | EmptyString => EmptyString
  end.

Fixpoint trim_end (s : string) : string :=
  match s with
  | String c s' =>
      match trim_end s' with
      | EmptyString => if is_js_space c then EmptyString else String c EmptyString
      | t => String c t
      end
  | EmptyString => EmptyString
  end.

Definition trim (s : string) : string := trim_end (trim_start s).

(** [s.split('/')] *)
Fixpoint split_slash (s : string) : list string :=
  match s with
  | EmptyString => [EmptyString]
  | String c s' =>
      if Ascii.eqb c SLASH then EmptyString :: split_slash s'
      else match split_slash s' with
           | h :: t => String c h :: t
           | [] => [String c EmptyString]
           end
  end.

(** [l.join('/')] *)
Fixpoint join_slash (l : list string) : string :=
  match l with
  | [] => EmptyString
  | [x] => x
  | x :: l' => x +:+ String SLASH (join_slash l')
  end.

(** [s.substring(n)] for a natural [n] *)
Fixpoint substring_from (n : nat) (s : string) : string :=
  match n, s with
  | O, _ => s
  | S n', String _ s' => substring_from n' s'
  | S _, EmptyString => EmptyString
  end.

(** [l.slice(0, n)] for an integer [n]: a negative end counts from the
    back. *)
Definition slice0 {A} (n : Z) (l : list A) : list A :=
  if 0 <=? n then take (Z.to_nat n) l
  else take (Z.to_nat (Z.of_nat (length l) + n)) l.

(** ** JavaScript operators used by the builders *)

(** [ToBoolean] *)
Definition truthy (v : JsonData) : bool :=
  match v with
  | JUndefined | JNull | JBool false | JNum (Int 0) | JNum NaN => false
  | JStr s => negb (String.eqb s EmptyString)
  | _ => true
  end.

(** [a || b] *)
Definition js_or (a b : JsonData) : JsonData := if truthy a then a else b.

(** [isFinite(v)] for a number or [undefined] *)
Definition isFinite (v : option number) : bool :=
  match v with
  | Some (Int _) => true
  | _ => false
  end.

(** [`${v}`] and [v.toString()]; [join] is [Array.prototype.join], which
    prints [null] and [undefined] elements as the empty text. *)
Fixpoint js_toString (v : JsonData) : string :=
  match v with
  | JUndefined => "undefined"
  | JNull => "null"
  | JBool b => if b then "true" else "false"
  | JNum n => number_toString n
  | JStr s => s
  | JFunction source => source
  | JArr elems =>
      (fix join (l : list JsonData) : string :=
         match l with
         | [] => EmptyString
         | x :: l' =>
             let e := match x with
                      | JUndefined | JNull => EmptyString
                      | _ => js_toString x
                      end in
             match l' with
             | [] => e
             | _ => e +:+ "," +:+ join l'
             end
         end) elems
  | JObj _ => "[object Object]"
  end.

(** [l[0]], [undefined] on the empty list *)
Definition first {A} (inj : A → JsonData) (l : list A) : JsonData :=
  match l with
  | x :: _ => inj x
  | [] => JUndefined
  end.

Definition type_is (t : option string) (name : string) : bool :=
  bool_decide (t = Some name).

#[global] Instance result_fmap : FMap result := fun A B f m =>
  match m with
  | Ok a => Ok (f a)
  | Throw e => Throw e
  end.

Definition is_undefined (v : JsonData) : bool :=
  match v with
  | JUndefined => true
  | _ => false
  end.

(** [rule.integer] *)
Definition rule_integer (p : PrimitiveRule) : option bool :=
  match p with
  | NumberRule _ i _ => i
  | _ => None
  end.

(** ** The collection document *)

Record UrlVariable : Type := mkVariable {
  v_key : string;
  v_value : string;
  v_description : option string
}.

Record Query : Type := mkQuery {
  q_key : string;
  q_value : string;
  q_description : option string
}.

Inductive Formdata : Type :=
| FileField (key : string) (description : option string)
| TextField (key : string) (value : string) (description : option string).

Record Header : Type := mkHeader {
  h_key : string;
  h_value : string
}.

(** [{type: 'bearer', bearer: [{key: 'token', value, type: 'string'}]}],
    kept as the list of token values. *)
Record Auth : Type := mkAuth { bearer : list string }.

Inductive Body : Type :=
| RawBody (raw : string)
| FormdataBody (formdata : list Formdata).

Record Url : Type := mkUrl {
  u_raw : string;
  u_host : list string;
  u_path : list string;
  u_variable : list UrlVariable;
  u_query : list Query
}.

Record Request : Type := mkRequest {
  r_method : string;
  r_header : list Header;
  r_body : option Body;
  r_url : Url;
  r_auth : option Auth
}.

Record Item : Type := mkItem {
  i_name : string;
  i_request : Request;
  i_response : list JsonData
}.

(** [FolderItem | Item] *)
Inductive Node : Type :=
| FolderItem (name : string) (item : list Node)
| RequestItem (i : Item).

(** [fi.name] *)
Definition node_name (fi : Node) : string :=
  match fi with
  | FolderItem name _ => name
  | RequestItem i => i_name i
  end.

(** The endpoint descriptor ([BuiltEndpoint] of [@evojs/http]).  The
    function [buildItems] reads the body rule from [bodyRule], the class
    [HttpPostmanBuilder] reads a schema from [body]. *)
Record BuiltEndpoint : Type := mkEndpoint {
  e_path : string;
  e_method : string;
  e_param : list (string * ValidationRule);
  e_paramOrder : list string;
  e_query : option ValidationSchema;
  e_bodyRule : option ValidationRule;
  e_body : option ValidationSchema;
  e_bodyType : option string
}.

Record Location : Type := mkLocation {
  l_folders : list string;
  l_url : string;
  l_host : list string;
  l_path : list string;
  l_variable : list UrlVariable
}.

(** [PostmanCollectionSchema]: [info.name], [info.schema] and the [item]
    tree; [info._postman_id] is never set. *)
Record PostmanCollectionSchema : Type := mkCollection {
  info_name : string;
  info_schema : string;
  collection_item : list Node
}.

Definition collection_schema_url : string :=
  "https://schema.getpostman.com/json/collection/v2.1.0/collection.json".

(** [PostmanEnvironmentSchema]; [id] is never set. *)
Record EnvironmentValue : Type := mkValue {
  ev_key : string;
  ev_value : string;
  ev_enabled : bool
}.

Record PostmanEnvironmentSchema : Type := mkEnvironment {
  env_name : string;
  env_values : list EnvironmentValue
}.

(** The folder walk both builders run for one endpoint, on the sibling list
    [item]:
<<
    for (const f of location.folders) {
      const prevItem = item;
      item = (item.find((fi) => fi.name === f) as FolderItem)?.item;
      if (!item) {
        prevItem.push({ name: f, item: [] });
        item = prevItem[prevItem.length - 1].item;
      }
    }
    item.push(leaf);
>>
    The arrays are updated in place; here the updated sibling list is
    returned.  [find] looks at the name of every sibling, folder or request
    item, and a request item has no [item] property. *)
Fixpoint push_item (folders : list string) (leaf : Item) (item : list Node)
  : list Node :=
  match folders with
  | [] => item ++ [RequestItem leaf]
  | f :: fs =>
      match list_find (λ fi, node_name fi = f) item with
      | Some (i, FolderItem name sub) =>
          <[i := FolderItem name (push_item fs leaf sub)]> item
      | _ => item ++ [FolderItem f (push_item fs leaf [])]
      end
  end.

(** [['POST', 'PUT', 'PATCH', 'DELETE'].includes(method)] *)
Definition has_body_method (method : string) : bool :=
  bool_decide (method ∈ ["POST"; "PUT"; "PATCH"; "DELETE"]).

Definition content_type_json : Header :=
  {| h_key := "Content-Type"; h_value := "application/json" |}.

(** The path-parameter pattern of [parseLocation], case-insensitive: a
    colon, an identifier (a letter, [_] or [$], then letters, digits, [_]
    or [$]) and, optionally, a parenthesised constraint that runs to the end
    of the segment. *)
Definition is_letter (c : ascii) : bool :=
  let n := nat_of_ascii c in
  ((65 <=? n) && (n <=? 90) || (97 <=? n) && (n <=? 122))%nat.

Definition is_digit (c : ascii) : bool :=
  let n := nat_of_ascii c in ((48 <=? n) && (n <=? 57))%nat.

Definition ident_start (c : ascii) : bool :=
  is_letter c || Ascii.eqb c "_" || Ascii.eqb c "$".

Definition ident_char (c : ascii) : bool := ident_start c || is_digit c.

(** The longest prefix of identifier characters, and what follows it. *)
Fixpoint span_ident (s : string) : string * string :=
  match s with
  | String c s' =>
      if ident_char c
      then let '(id, rest) := span_ident s' in (String c id, rest)
      else (EmptyString, s)
  | EmptyString => (EmptyString, EmptyString)
  end.

(** [.] matches every code unit but the line terminators. *)
Definition line_terminator (c : ascii) : bool :=
  Ascii.eqb c LF || Ascii.eqb c (ascii_of_nat 13).

(** [s] is any run of non-terminators closed by [")"] at the end of the
    input. *)
Fixpoint closes_constraint (s : string) : bool :=
  match s with
  | EmptyString => false
  | String c EmptyString => Ascii.eqb c ")"
  | String c s' => negb (line_terminator c) && closes_constraint s'
  end.

(** The first capture group when the segment [p] matches. *)
Definition match_param (p : string) : option string :=
  match p with
  | String ":" (String c s) =>
      if ident_start c then
        let '(id, rest) := span_ident s in
        match rest with
        | EmptyString => Some (String c id)
        | String "(" rest' =>
            if closes_constraint rest' then Some (String c id) else None
        | _ => None
        end
      else None
  | _ => None
  end.

(** The callback of [paths.map] in [parseLocation]. *)
Definition rewrite_segment (p : string) : string :=
  match match_param p with
  | Some param => String ":" param
  | None => p
  end.

(** What [switch (rule.type)] of the two rule compilers returns for a rule
    object that has none of the type-specific fields. *)
Definition switch_untyped (t : option string) : JsonData :=
  if type_is t "string" then JStr EmptyString
  else if type_is t "number" then JNum (Int 0)
  else if type_is t "boolean" then JBool false
  else if type_is t "object" then JObj []
  else if type_is t "array" then JArr []
  else JNull.

(** [rule.length || 1] *)
Definition length_or_1 (len : option Z) : Z :=
  match len with
  | Some 0 | None => 1
  | Some n => n
  end.

(** The own enumerable properties of a value, which [for (p in object)]
    visits and [{...object}] copies: the elements of an array and the code
    units of a string under their indices. *)
Definition own_props (object : JsonData) : list (string * JsonData) :=
  match object with
  | JObj props => props
  | JArr elems => imap (λ i v, (pretty i, v)) elems
  | JStr s =>
      imap (λ i c, (pretty i, JStr (String c EmptyString)))
        (list_ascii_of_string s)
  | _ => []
  end.

Definition defined_props (object : JsonData) : list (string * JsonData) :=
  List.filter (λ kv, negb (is_undefined kv.2)) (own_props object).

(** [keyLength] of [collection-schema.ts], [_keyLength] of the class: the
    number of own properties whose value is not [undefined]. *)
Definition keyLength (object : JsonData) : nat :=
  length (defined_props object).

(** Same text in both files ([parseQueryRule], [_parseQueryRule]); [None]
    is the [undefined] that [rule[0]] gives on an empty list of variants. *)
Definition parseQueryRule (rule : option PrimitiveRule) : string :=
  match rule with
  | Some rule =>
      match rule_default rule with
      | JStr s => s
      | JNum n => number_toString n
      | JBool b => if b then "1" else "0"
      | _ =>
          match rule with
          | StringRule _ (Some values) => from_option id EmptyString (head values)
          | NumberRule _ _ (Some values) =>
              from_option number_toString EmptyString (head values)
          | _ =>
              if type_is (rule_type rule) "string" then EmptyString
              else if type_is (rule_type rule) "number" then
                if bool_decide (rule_integer rule = Some true) then "0"
                else "0.0"
              else if type_is (rule_type rule) "boolean" then "0"
              else EmptyString
          end
      end
  | None => EmptyString
  end.

(** [out.map(f)] for a callback that may raise. *)
Fixpoint mapM {A B} (f : A → result B) (l : list A) : result (list B) :=
  match l with
  | [] => Ok []
  | x :: l' => y ← f x; ys ← mapM f l'; Ok (y :: ys)
  end.

(** * [src/collection-schema.ts] *)
Module CollectionSchema.

(** The loop bound [l] of the [schema] branch of an array rule:
    [nested && length > a.length ? length : a.length]. *)
Definition schema_bound (a : list ValidationRule)
    (nested : option ValidationRule) (len : option Z) : Z :=
  match nested, len with
  | Some _, Some n =>
      if Z.of_nat (length a) <? n then n else Z.of_nat (length a)
  | _, _ => Z.of_nat (length a)
  end.

(** [parseRuleToJsonData]; [parsePrimitive] is its body once
    [primitiveRule] is known.  On an empty list of variants [primitiveRule]
    is [undefined] and reading its [default] raises. *)
Fixpoint parseRuleToJsonData (validationRule : ValidationRule)
  : result JsonData :=
  match validationRule with
  | Single p => parsePrimitive p
  | Variants (p :: _) => parsePrimitive p
  | Variants [] => Throw TypeError
  end
with parsePrimitive (primitiveRule : PrimitiveRule) : result JsonData :=
  if usable_default (rule_default primitiveRule)
  then Ok (rule_default primitiveRule)
  else
    match primitiveRule with
    | StringRule _ values =>
        Ok match values with
           | Some vs => js_or (first JStr vs) (JStr EmptyString)
           | None => JStr EmptyString
           end
    | NumberRule _ _ values =>
        let v := values ≫= head in
        Ok (JNum (if isFinite v then default (Int 0) v else Int 0))
    | BooleanRule _ => Ok (JBool false)
    | ObjectRule _ schema _ =>
        match schema with
        | Some s =>
            JObj <$>
            (fix entries (l : list (string * ValidationRule))
               : result (list (string * JsonData)) :=
               match l with
               | [] => Ok []
               | (key, rule) :: l' =>
                   v ← parseRuleToJsonData rule;
                   p ← entries l';
                   Ok ((key, v) :: p)
               end) s
        | None => Ok (JObj [])
        end
    | ArrayRule _ schema nested len =>
        match schema with
        | Some a =>
            let l := schema_bound a nested len in
            compiled ←
              (fix each (rs : list ValidationRule) : result (list JsonData) :=
                 match rs with
                 | [] => Ok []
                 | r :: rs' =>
                     v ← parseRuleToJsonData r;
                     out ← each rs';
                     Ok (v :: out)
                 end) a;
            Ok (JArr (compiled ++
                      replicate (Z.to_nat (l - Z.of_nat (length a)))
                        (from_option rule_object JUndefined nested)))
        | None =>
            match nested with
            | Some n =>
                elem ← parseRuleToJsonData n;
                Ok (JArr (replicate (Z.to_nat (length_or_1 len)) elem))
            | None => Ok (JArr [])
            end
        end
    | OtherRule t _ => Ok (switch_untyped t)
    end.

(** [BuildCollectionOptions] *)
Record BuildCollectionOptions : Type := mkOptions {
  commentsInJson : option bool;
  maxFolders : option Z;
  authorization : option (BuiltEndpoint → option Auth)
}.

Section Platform.

(** Node's [util.inspect(object, false, null, false)] and
    [JSON.stringify(value, null, '\t')] are functions of the platform. *)
Variable util_inspect : JsonData → string.
Variable JSON_stringify : JsonData → string.

Definition inspect (object : JsonData) (linebreaks : bool) : option string :=
  if (keyLength object =? 0)%nat then None
  else
    let out := util_inspect (JObj (defined_props object)) in
    Some (if linebreaks then out else collapse_linebreaks out).

(** [param[key]] *)
Definition lookup_rule (key : string) (schema : list (string * ValidationRule))
  : option ValidationRule :=
  (λ ix, ix.2.2) <$> list_find (λ kv, kv.1 = key) schema.

Definition parseLocation (path : string)
    (param : list (string * ValidationRule)) (paramOrder : list string)
    (maxFolders : option Z) : Location :=
  let paths := split_slash (substring_from 1 path) in
  let folders := slice0 (default 2 maxFolders) paths in
  let path := join_slash (map rewrite_segment paths) in
  let variable :=
    map (λ key,
         {| v_key := key; v_value := EmptyString;
            v_description :=
              inspect (from_option rule_object JUndefined
                         (lookup_rule key param)) false |})
      paramOrder in
  let url := "{{host}}/" +:+ path in
  let host := ["{{host}}"] in
  {| l_folders := folders; l_url := url; l_host := host;
     l_path := split_slash path; l_variable := variable |}.

Definition parseQuery (query : option ValidationSchema) : list Query :=
  match query with
  | Some query =>
      map (λ '(key, value),
           {| q_key := key;
              q_value := parseQueryRule (representative value);
              q_description := inspect (rule_object value) false |})
        query
  | None => []
  end.

(** The object [parseBody] hands to [inspect] for the trailing comment:
    the schema of a plain object rule, else the rule itself. *)
Definition commented_object (bodyRule : ValidationRule) : JsonData :=
  match bodyRule with
  | Single (ObjectRule _ (Some schema) None) =>
      JObj (map (λ kr, (kr.1, rule_object kr.2)) schema)
  | _ => rule_object bodyRule
  end.

(** One field of a multipart body; [rule.type] raises when the field holds
    an empty list of variants. *)
Definition formdata_field (key : string) (value : ValidationRule)
  : result Formdata :=
  match representative value with
  | None => Throw TypeError
  | Some rule =>
      if type_is (rule_type rule) "object"
      then Ok (FileField key (inspect (rule_object value) false))
      else Ok (TextField key (parseQueryRule (Some rule))
                 (inspect (rule_object value) false))
  end.

(** [undefined | string | Formdata[]] *)
Inductive BodyData : Type :=
| NoBody
| TextBody (text : string)
| FieldsBody (fields : list Formdata).

Definition parseBody (bodyRule : option ValidationRule)
    (bodyType : option string) (commentsInJson : bool) : result BodyData :=
  match bodyRule with
  | None => Ok NoBody
  | Some bodyRule =>
      if type_is bodyType "json" then
        data ← parseRuleToJsonData bodyRule;
        let jsonData := JSON_stringify data in
        if commentsInJson then
          Ok (TextBody
                (jsonData +:+ String LF ("/*" +:+ String LF
                   (default "undefined" (inspect (commented_object bodyRule) true)
                    +:+ String LF "*/"))))
        else Ok (TextBody jsonData)
      else if type_is bodyType "multipart" then
        match representative bodyRule with
        | Some (ObjectRule _ (Some body) _) =>
            FieldsBody <$> mapM (λ '(key, value), formdata_field key value) body
        | _ => Ok NoBody
        end
      else Ok NoBody
  end.

(** [if (methods.includes(e.method) && bodyData) body = ...]: a text is
    attached when it is not empty, a field list always. *)
Definition body_envelope (method : string) (bodyData : BodyData)
  : option Body :=
  if has_body_method method then
    match bodyData with
    | NoBody => None
    | TextBody text =>
        if String.eqb text EmptyString then None else Some (RawBody text)
    | FieldsBody fields => Some (FormdataBody fields)
    end
  else None.

(** [body?.mode === 'raw' ? [{ key: 'Content-Type', ... }] : []] *)
Definition header_for (body : option Body) : list Header :=
  match body with
  | Some (RawBody _) => [content_type_json]
  | _ => []
  end.

(** The request item [buildItems] pushes for the endpoint [e], with the
    folders it is filed under. *)
Definition endpoint_item (e : BuiltEndpoint) (options : BuildCollectionOptions)
  : result (list string * Item) :=
  let location :=
    parseLocation (e_path e) (e_param e) (e_paramOrder e)
      (maxFolders options) in
  let query := parseQuery (e_query e) in
  bodyData ← parseBody (e_bodyRule e) (e_bodyType e)
               (default false (commentsInJson options));
  let body := body_envelope (e_method e) bodyData in
  Ok (l_folders location,
      {| i_name :=
           substring_from
             (String.length (default EmptyString (head (l_host location))))
             (l_url location);
         i_request :=
           {| r_method := e_method e;
              r_header := header_for body;
              r_body := body;
              r_url :=
                {| u_raw := l_url location; u_host := l_host location;
                   u_path := l_path location;
                   u_variable := l_variable location; u_query := query |};
              r_auth := authorization options ≫= λ f, f e |};
         i_response := [] |}).

(** [buildItems], from the tree built so far. *)
Fixpoint build_from (out : list Node) (endpoints : list BuiltEndpoint)
    (options : BuildCollectionOptions) : result (list Node) :=
  match endpoints with
  | [] => Ok out
  | e :: es =>
      '(folders, leaf) ← endpoint_item e options;
      build_from (push_item folders leaf out) es options
  end.

Definition buildItems (endpoints : list BuiltEndpoint)
    (options : BuildCollectionOptions) : result (list Node) :=
  build_from [] endpoints options.

(** [buildCollection].  The two [??=] assignments write the defaults into
    the caller's [options] object, so the options come back next to the
    outcome; the document exists when [buildItems] returns. *)
Definition buildCollection (name : string) (endpoints : list BuiltEndpoint)
    (options : BuildCollectionOptions)
  : BuildCollectionOptions * result PostmanCollectionSchema :=
  let options :=
    {| commentsInJson := Some (default true (commentsInJson options));
       maxFolders := Some (default 2 (maxFolders options));
       authorization := authorization options |} in
  (options,
   item ← buildItems endpoints options;
   Ok {| info_name := name; info_schema := collection_schema_url;
         collection_item := item |}).

End Platform.

End CollectionSchema.

(** * [src/index.ts]: the class [HttpPostmanBuilder] *)
Module Index.

(** [(last ? '' : ',') + (data[1] ? ` // ${data[1]}\n` : '\n')] *)
Definition comment_of (last : bool) (data1 : JsonData) : string :=
  (if last then EmptyString else ",") +:+
  (if truthy data1
   then " // " +:+ js_toString data1 +:+ String LF EmptyString
   else String LF EmptyString).

(** ['\t'.repeat(n)] *)
Fixpoint tabs (n : nat) : string :=
  match n with
  | O => EmptyString
  | S n' => String TAB (tabs n')
  end.

(** [l.join('')] *)
Definition concat_strings (l : list string) : string :=
  foldr String.append EmptyString l.

(** The [switch (typeof value)] of [_stringifyJsonc] for a [value] that is
    neither an array nor an object; the function returns [''] for
    [undefined] and for a function. *)
Definition scalar_text (value : JsonData) (comment : string) : string :=
  match value with
  | JStr s => String QUOTE (s +:+ String QUOTE comment)
  | JNum n => number_toString n +:+ comment
  | JBool b => (if b then "true" else "false") +:+ comment
  | JNull => "null" +:+ comment
  | _ => EmptyString
  end.

(** [data[i]] for [i] = 0, 1 when [data] is a string *)
Definition char_at (i : nat) (s : string) : JsonData :=
  match String.get i s with
  | Some c => JStr (String c EmptyString)
  | None => JUndefined
  end.

(** [props[key]] *)
Definition get_prop (key : string) (props : list (string * JsonData))
  : JsonData :=
  from_option (λ ix, ix.2.2) JUndefined (list_find (λ kv, kv.1 = key) props).

(** The head of [_stringifyJsonc]: [indent += 1], [value = data[0]] and
    [comment] from [data[1]], then the [switch], which is [switch_value]
    when [value] is a container.  Reading [data[0]] raises on [null] and on
    [undefined]; a number, a boolean and a function have no such
    property. *)
Definition stringify_with
    (switch_value : JsonData → string → nat → result string)
    (data : JsonData) (last : bool) (indent : nat) : result string :=
  let indent := S indent in
  match data with
  | JNull | JUndefined => Throw TypeError
  | JArr [] => Ok EmptyString
  | JArr (value :: rest) =>
      switch_value value (comment_of last (first id rest)) indent
  | JObj props =>
      (fix own (ps : list (string * JsonData)) : result string :=
         match ps with
         | [] => Ok EmptyString
         | (k, value) :: ps' =>
             if String.eqb k "0"
             then switch_value value (comment_of last (get_prop "1" props)) indent
             else own ps'
         end) props
  | JStr s => Ok (scalar_text (char_at 0 s) (comment_of last (char_at 1 s)))
  | _ => Ok EmptyString
  end.

(** The [switch (typeof value)] of [_stringifyJsonc], [indent] already
    incremented. *)
Fixpoint switch_value (value : JsonData) (comment : string) (indent : nat)
  : result string :=
  let endIndent := tabs (indent - 1) in
  let valuesIndent := tabs indent in
  match value with
  | JArr elems =>
      let lastIndex := Z.of_nat (length elems) - 1 in
      parts ←
        (fix map_i (i : nat) (vs : list JsonData) : result (list string) :=
           match vs with
           | [] => Ok []
           | v :: vs' =>
               s ← stringify_with switch_value v
                     (bool_decide (lastIndex = Z.of_nat i)) indent;
               out ← map_i (S i) vs';
               Ok ((valuesIndent +:+ s) :: out)
           end) O elems;
      Ok ("[" +:+ String LF (concat_strings parts +:+ endIndent +:+ "]"
          +:+ comment))
  | JObj entries =>
      let lastIndex := Z.of_nat (length entries) - 1 in
      parts ←
        (fix map_i (i : nat) (kvs : list (string * JsonData))
           : result (list string) :=
           match kvs with
           | [] => Ok []
           | (k, v) :: kvs' =>
               s ← stringify_with switch_value v
                     (bool_decide (lastIndex = Z.of_nat i)) indent;
               out ← map_i (S i) kvs';
               Ok ((valuesIndent +:+ String QUOTE (k +:+ String QUOTE ": ")
                    +:+ s) :: out)
           end) O entries;
      Ok ("{" +:+ String LF (concat_strings parts +:+ endIndent +:+ "}"
          +:+ comment))
  | _ => Ok (scalar_text value comment)
  end.

Definition _stringifyJsonc (data : JsonData) (last : bool) (indent : nat)
  : result string :=
  stringify_with switch_value data last indent.

Section Platform.

(** Node's [util.inspect(object, false, null, false)]. *)
Variable util_inspect : JsonData → string.

Definition _inspect (object : JsonData) : option string :=
  if (keyLength object =? 0)%nat then None
  else
    Some (trim (collapse_linebreaks
                  (util_inspect (JObj (defined_props object))))).

(** [d.type !== 'object' && d.type !== 'array'] *)
Definition not_container (d : PrimitiveRule) : bool :=
  negb (type_is (rule_type d) "object")
  && negb (type_is (rule_type d) "array").

(** [d.nested && !Array.isArray(d.nested) && d.nested.type !== 'object'
    && d.nested.type !== 'array'] *)
Definition primitive_nested (d : PrimitiveRule) : bool :=
  match rule_nested d with
  | Some (Single q) => not_container q
  | _ => false
  end.

(** [const { nested, schema, ...croppedData } = d] *)
Definition croppedData (d : PrimitiveRule) : JsonData :=
  JObj (List.filter
          (λ kv, negb (String.eqb kv.1 "nested")
                 && negb (String.eqb kv.1 "schema"))
          (own_props (prim_object d))).

Definition _parseDescription (data : ValidationRule) : option string :=
  match data with
  | Variants ds =>
      let rules :=
        List.filter (λ t, negb (String.eqb t EmptyString))
          (omap (λ d,
                 if not_container d then None
                 else if primitive_nested d then _inspect (prim_object d)
                 else _inspect (croppedData d))
             ds) in
      match rules with
      | [] => None
      | _ => _inspect (JArr (map JStr rules))
      end
  | Single d =>
      if not_container d || primitive_nested d
      then _inspect (prim_object d)
      else _inspect (croppedData d)
  end.

(** [_parseLocation], always called with the default [maxFolders = 2]; the
    variable descriptions come from [util.inspect] itself. *)
Definition _parseLocation (path : string)
    (param : list (string * ValidationRule)) (paramOrder : list string)
  : Location :=
  let paths := split_slash (substring_from 1 path) in
  let folders := slice0 2 paths in
  let path := join_slash (map rewrite_segment paths) in
  let variable :=
    map (λ key,
         {| v_key := key; v_value := EmptyString;
            v_description :=
              Some (util_inspect
                      (from_option rule_object JUndefined
                         ((λ ix, ix.2.2) <$>
                          list_find (λ kv, kv.1 = key) param))) |})
      paramOrder in
  let url := "{{host}}/" +:+ path in
  let host := ["{{host}}"] in
  {| l_folders := folders; l_url := url; l_host := host;
     l_path := split_slash path; l_variable := variable |}.

Definition _parseQueryRule := parseQueryRule.

Definition _parseQuery (query : option ValidationSchema) : list Query :=
  match query with
  | Some query =>
      map (λ '(key, value),
           {| q_key := key;
              q_value := _parseQueryRule (representative value);
              q_description := _parseDescription value |})
        query
  | None => []
  end.

(** [Array(n)] accepts a length from 0 to 2^32 - 1. *)
Definition valid_array_length (n : Z) : bool :=
  (0 <=? n) && (n <? 2 ^ 32).

(** [_parseRuleToJsonc] returns the pair [[value, description]] as a
    two-element array; [jsonc_value] is the part that fills [out[0]] when
    the representative rule exists. *)
Fixpoint _parseRuleToJsonc (validationRule : ValidationRule)
  : result JsonData :=
  let description :=
    from_option JStr JUndefined (_parseDescription validationRule) in
  match validationRule with
  | Single rule => v ← jsonc_value rule; Ok (JArr [v; description])
  | Variants (rule :: _) => v ← jsonc_value rule; Ok (JArr [v; description])
  | Variants [] => Ok (JArr [JNull; description])
  end
with jsonc_value (rule : PrimitiveRule) : result JsonData :=
  if usable_default (rule_default rule) then Ok (rule_default rule)
  else
    match rule with
    | BooleanRule _ => Ok (JBool false)
    | StringRule _ values =>
        Ok match values with
           | Some vs => js_or (first JStr vs) (JStr EmptyString)
           | None => JStr EmptyString
           end
    | NumberRule _ _ values =>
        let v := values ≫= head in
        Ok (JNum (if isFinite v then default (Int 0) v else Int 0))
    | ArrayRule _ _ nested len =>
        match nested with
        | Some n =>
            if match n with
               | Single q => not_container q
               | Variants _ => true
               end
            then
              if valid_array_length (length_or_1 len) then
                elem ← _parseRuleToJsonc n;
                Ok (JArr (replicate (Z.to_nat (length_or_1 len)) elem))
              else Throw RangeError
            else Ok (JArr [])
        | None => Ok (JArr [])
        end
    | ObjectRule _ schema _ =>
        match schema with
        | Some s =>
            JObj <$>
            (fix entries (l : list (string * ValidationRule))
               : result (list (string * JsonData)) :=
               match l with
               | [] => Ok []
               | (key, rule) :: l' =>
                   v ← _parseRuleToJsonc rule;
                   p ← entries l';
                   Ok ((key, v) :: p)
               end) s
        | None => Ok (JObj [])
        end
    | OtherRule t _ => Ok (switch_untyped t)
    end.

Definition formdata_field (key : string) (value : ValidationRule)
  : result Formdata :=
  match representative value with
  | None => Throw TypeError
  | Some rule =>
      if type_is (rule_type rule) "object"
      then Ok (FileField key (_parseDescription value))
      else Ok (TextField key (_parseQueryRule (Some rule))
                 (_parseDescription value))
  end.

(** [undefined | string | Formdata[]] *)
Inductive BodyData : Type :=
| NoBody
| TextBody (text : string)
| FieldsBody (fields : list Formdata).

Definition _parseBody (body : option ValidationSchema)
    (bodyType : option string) : result BodyData :=
  match body with
  | Some body =>
      if type_is bodyType "json" then
        out ← mapM (λ '(n, rule), v ← _parseRuleToJsonc rule; Ok (n, v)) body;
        TextBody <$> _stringifyJsonc (JArr [JObj out]) true 0
      else if type_is bodyType "multipart" then
        FieldsBody <$> mapM (λ '(key, value), formdata_field key value) body
      else Ok NoBody
  | None => Ok NoBody
  end.

(** [this._parseBody(e.body, e.bodyType) || '{}'] *)
Definition or_empty_object (bodyData : BodyData) : BodyData :=
  match bodyData with
  | NoBody => TextBody "{}"
  | TextBody text =>
      if String.eqb text EmptyString then TextBody "{}" else TextBody text
  | FieldsBody fields => FieldsBody fields
  end.

Definition body_envelope (method : string) (bodyData : BodyData)
  : option Body :=
  if has_body_method method then
    match bodyData with
    | NoBody => None
    | TextBody text =>
        if String.eqb text EmptyString then None else Some (RawBody text)
    | FieldsBody fields => Some (FormdataBody fields)
    end
  else None.

(** The request item [addEndpoints] pushes for the endpoint [e]; the
    header list is the literal [[{ key: 'Content-Type', ... }]]. *)
Definition endpoint_item
    (authorization : option (BuiltEndpoint → option Auth))
    (e : BuiltEndpoint) : result (list string * Item) :=
  let location := _parseLocation (e_path e) (e_param e) (e_paramOrder e) in
  let query := _parseQuery (e_query e) in
  parsed ← _parseBody (e_body e) (e_bodyType e);
  let bodyData := or_empty_object parsed in
  let body := body_envelope (e_method e) bodyData in
  Ok (l_folders location,
      {| i_name :=
           substring_from
             (String.length (default EmptyString (head (l_host location))))
             (l_url location);
         i_request :=
           {| r_method := e_method e;
              r_header := [content_type_json];
              r_body := body;
              r_url :=
                {| u_raw := l_url location; u_host := l_host location;
                   u_path := l_path location;
                   u_variable := l_variable location; u_query := query |};
              r_auth := authorization ≫= λ f, f e |};
         i_response := [] |}).

(** [addEndpoints] on the item list of [this._collectionSchema]. *)
Fixpoint addEndpoints (authorization : option (BuiltEndpoint → option Auth))
    (endpoints : list BuiltEndpoint) (item : list Node) : result (list Node) :=
  match endpoints with
  | [] => Ok item
  | e :: es =>
      '(folders, leaf) ← endpoint_item authorization e;
      addEndpoints authorization es (push_item folders leaf item)
  end.

End Platform.

(** ** Writing the documents *)

(** What [_stringifyJson] is applied to. *)
Inductive Document : Type :=
| CollectionDocument (c : PostmanCollectionSchema)
| EnvironmentDocument (e : PostmanEnvironmentSchema).

(** The fields of the class that [generate] reads: the two file names of
    [_options.files] and the two documents. *)
Record HttpPostmanBuilder : Type := mkBuilder {
  files_collection : string;
  files_environment : string;
  _collectionSchema : PostmanCollectionSchema;
  _environmentSchema : PostmanEnvironmentSchema
}.

(** The files that exist, with their text, by resolved path. *)
Definition FileSystem : Type := gmap string string.

Section Files.

(** [JSON.stringify(object, null, '\t')] on a document, and the resolution
    of a file name to the path of the file it names, are functions of the
    platform. *)
Variable JSON_stringify : Document → string.
Variable pathResolve : string → string.

Definition existsSync (fs : FileSystem) (filename : string) : bool :=
  bool_decide (is_Some (fs !! pathResolve filename)).

(** [readFileSync(filename, 'utf-8')]; [None] where Node raises because
    there is no such file. *)
Definition readFileSync (fs : FileSystem) (filename : string)
  : option string :=
  fs !! pathResolve filename.

(** [writeFileSync(filename, data, 'utf-8')], in the directories the
    constructor has made. *)
Definition writeFileSync (fs : FileSystem) (filename data : string)
  : FileSystem :=
  <[pathResolve filename := data]> fs.

Definition _stringifyJson (object : Document) : string :=
  JSON_stringify object.

Definition _writeToFile (fs : FileSystem) (filename : string)
    (data : Document) : FileSystem :=
  writeFileSync fs filename (_stringifyJson data).

(** [!existsSync(f) || readFileSync(f, 'utf-8') !== this._stringifyJson(...)];
    the file is read only when it exists. *)
Definition _collectionChanged (this : HttpPostmanBuilder) (fs : FileSystem)
    (collectionFilename : string) : bool :=
  negb (existsSync fs collectionFilename)
  || negb (bool_decide
             (readFileSync fs collectionFilename
              = Some (_stringifyJson
                        (CollectionDocument (_collectionSchema this))))).

(** [generate], with the file system it leaves. *)
Definition generate (this : HttpPostmanBuilder) (fs : FileSystem)
  : bool * FileSystem :=
  let collection := files_collection this in
  let environment := files_environment this in
  if negb (_collectionChanged this fs collection) then (false, fs)
  else
    let fs := _writeToFile fs collection
                (CollectionDocument (_collectionSchema this)) in
    let fs := _writeToFile fs environment
                (EnvironmentDocument (_environmentSchema this)) in
    (true, fs).

End Files.

End Index.

(** * Example inputs *)

(** A printer in the place of [util.inspect] for the examples: Node's
    layout for a value that fits on one line and whose keys are
    identifiers. *)
Fixpoint inspect_one_line (v : JsonData) : string :=
  match v with
  | JUndefined => "undefined"
  | JNull => "null"
  | JBool b => if b then "true" else "false"
  | JNum n => number_toString n
  | JStr s => "'" +:+ s +:+ "'"
  | JFunction _ => "[Function]"
  | JArr [] => "[]"
  | JArr elems =>
      "[ " +:+
      (fix join (l : list JsonData) : string :=
         match l with
         | [] => EmptyString
         | [x] => inspect_one_line x
         | x :: l' => inspect_one_line x +:+ ", " +:+ join l'
         end) elems +:+ " ]"
  | JObj [] => "{}"
  | JObj props =>
      "{ " +:+
      (fix join (l : list (string * JsonData)) : string :=
         match l with
         | [] => EmptyString
         | [(k, x)] => k +:+ ": " +:+ inspect_one_line x
         | (k, x) :: l' => k +:+ ": " +:+ inspect_one_line x +:+ ", " +:+ join l'
         end) props +:+ " }"
  end.

(** A rule object with no [default] and no further property. *)
Definition bare : CommonRule := {| c_default := JUndefined; c_extra := [] |}.

Definition with_default (d : JsonData) : CommonRule :=
  {| c_default := d; c_extra := [] |}.

Definition boolean_rule : ValidationRule := Single (BooleanRule bare).

(** Endpoints. *)
Definition get_users : BuiltEndpoint :=
  {| e_path := "/users"; e_method := "GET"; e_param := [];
     e_paramOrder := []; e_query := None; e_bodyRule := None;
     e_body := None; e_bodyType := None |}.

Definition post_upload : BuiltEndpoint :=
  {| e_path := "/upload"; e_method := "POST"; e_param := [];
     e_paramOrder := []; e_query := None; e_bodyRule := None;
     e_body := Some [("name", Single (StringRule bare None))];
     e_bodyType := Some "multipart" |}.

(** A printer in the place of [JSON.stringify] for the examples, without
    the line breaks and the indentation. *)
Fixpoint json_one_line (v : JsonData) : string :=
  match v with
  | JUndefined | JFunction _ => "null"
  | JNull => "null"
  | JBool b => if b then "true" else "false"
  | JNum (Int z) => pretty z
  | JNum _ => "null"
  | JStr s => String QUOTE (s +:+ String QUOTE EmptyString)
  | JArr elems =>
      "[" +:+
      (fix join (l : list JsonData) : string :=
         match l with
         | [] => EmptyString
         | [x] => json_one_line x
         | x :: l' => json_one_line x +:+ "," +:+ join l'
         end) elems +:+ "]"
  | JObj props =>
      "{" +:+
      (fix join (l : list (string * JsonData)) : string :=
         match l with
         | [] => EmptyString
         | [(k, x)] =>
             String QUOTE (k +:+ String QUOTE (":" +:+ json_one_line x))
         | (k, x) :: l' =>
             String QUOTE (k +:+ String QUOTE (":" +:+ json_one_line x))
             +:+ "," +:+ join l'
         end) props +:+ "}"
  end.

Definition no_options : CollectionSchema.BuildCollectionOptions :=
  {| CollectionSchema.commentsInJson := None;
     CollectionSchema.maxFolders := None;
     CollectionSchema.authorization := None |}.

(** The query rule [{type: 'number', integer: true}]. *)
Definition page_rule : ValidationRule :=
  Single (NumberRule bare (Some true) None).

(** An array rule and an object rule with no field but [type]. *)
Definition empty_array_rule : ValidationRule :=
  Single (ArrayRule bare None None None).

Definition empty_object_rule : ValidationRule :=
  Single (ObjectRule bare None None).

(** A rule with a string, an enumerated number, a repeated boolean, two
    empty containers and an empty list of variants. *)
Definition sample_rule : ValidationRule :=
  Single
    (ObjectRule bare
       (Some [("a", Single (StringRule bare (Some ["x"; "y"])));
              ("n", Single (NumberRule bare None (Some [Int (-12)])));
              ("l", Single (ArrayRule bare None (Some boolean_rule) (Some 2)));
              ("e", empty_array_rule);
              ("o", empty_object_rule);
              ("z", Variants [])])
       None).

(** A string rule whose default is the array [[1, 2]], and one whose
    default is a text with a double quote in it. *)
Definition array_default_rule : ValidationRule :=
  Single (StringRule (with_default (JArr [JNum (Int 1); JNum (Int 2)])) None).

Definition quote_default_rule : ValidationRule :=
  Single (StringRule
            (with_default (JStr (String "a" (String QUOTE "b")))) None).

(** Two endpoints under [/users/:id], and options that ask for no
    folders. *)
Definition id_param : list (string * ValidationRule) :=
  [("id", Single (NumberRule bare (Some true) None))].

Definition get_orders : BuiltEndpoint :=
  {| e_path := "/users/:id(\d+)/orders"; e_method := "GET";
     e_param := id_param; e_paramOrder := ["id"]; e_query := None;
     e_bodyRule := None; e_body := None; e_bodyType := None |}.

Definition get_profile : BuiltEndpoint :=
  {| e_path := "/users/:id(\d+)/profile"; e_method := "GET";
     e_param := id_param; e_paramOrder := ["id"]; e_query := None;
     e_bodyRule := None; e_body := None; e_bodyType := None |}.

Definition flat_options : CollectionSchema.BuildCollectionOptions :=
  {| CollectionSchema.commentsInJson := None;
     CollectionSchema.maxFolders := Some 0;
     CollectionSchema.authorization := None |}.

(** The endpoint at the root path. *)
Definition get_root : BuiltEndpoint :=
  {| e_path := "/"; e_method := "GET"; e_param := []; e_paramOrder := [];
     e_query := None; e_bodyRule := None; e_body := None;
     e_bodyType := None |}.

(** An endpoint with a query parameter and a JSON body, in both places a
    builder reads it from. *)
Definition credentials : ValidationSchema :=
  [("user", Single (StringRule bare None)); ("remember", boolean_rule)].

Definition post_login : BuiltEndpoint :=
  {| e_path := "/auth/login"; e_method := "POST"; e_param := [];
     e_paramOrder := []; e_query := Some [("page", page_rule)];
     e_bodyRule := Some (Single (ObjectRule bare (Some credentials) None));
     e_body := Some credentials; e_bodyType := Some "json" |}.

(** A rule both compilers handle: a string with enumerated values, a
    number, a repeated boolean and an object without fields. *)
Definition flat_rule : ValidationRule :=
  Single
    (ObjectRule bare
       (Some [("a", Single (StringRule bare (Some ["x"; "y"])));
              ("n", Single (NumberRule bare None (Some [Int 7])));
              ("l", Single (ArrayRule bare None (Some boolean_rule) (Some 2)));
              ("o", empty_object_rule)])
       None).

(** A body whose field [tags] has the default [[null]]. *)
Definition tags_body : ValidationSchema :=
  [("name", Single (StringRule bare None));
   ("tags", Single (ArrayRule (with_default (JArr [JNull])) None None None))].

(** A multipart body with a text field and a file field, and one with a
    field that holds an empty list of variants. *)
Definition upload_body : ValidationSchema :=
  [("title", Single (StringRule (with_default (JStr "untitled")) None));
   ("file", empty_object_rule)].

Definition broken_body : ValidationSchema :=
  [("title", Single (StringRule bare None)); ("file", Variants [])].

(** A stand-in for [JSON.stringify] on the two documents, and a builder
    with two files. *)
Definition document_text (d : Index.Document) : string :=
  match d with
  | Index.CollectionDocument c => "collection " +:+ info_name c
  | Index.EnvironmentDocument e => "environment " +:+ env_name e
  end.

Definition api_builder : Index.HttpPostmanBuilder :=
  {| Index.files_collection := "out/collection.json";
     Index.files_environment := "out/environment.json";
     Index._collectionSchema :=
       {| info_name := "api"; info_schema := collection_schema_url;
          collection_item := [] |};
     Index._environmentSchema :=
       {| env_name := "api";
          env_values :=
            [{| ev_key := "host"; ev_value := "http://localhost";
                ev_enabled := true |}] |} |}.

(** * Specification-side definitions *)

(** The rule compiles, that is [parseRuleToJsonData] returns. *)
Definition compiles (r : ValidationRule) : Prop :=
  ∃ v, CollectionSchema.parseRuleToJsonData r = Ok v.

(** The length of the array [parseRuleToJsonData] compiles, by the fields
    the array rule has: with a [schema] list its length, or [length] when
    [nested] is there too and [length] is larger; with [nested] alone
    [length], 1 when that is absent or 0, and nothing when it is negative;
    with neither, the empty array. *)
Definition array_length (schema : option (list ValidationRule))
    (nested : option ValidationRule) (len : option Z) : Z :=
  match schema, nested, len with
  | Some a, Some _, Some n => Z.max n (Z.of_nat (length a))
  | Some a, _, _ => Z.of_nat (length a)
  | None, Some _, Some n => if n =? 0 then 1 else Z.max n 0
  | None, Some _, None => 1
  | None, None, _ => 0
  end.

(** The [nested] rule the class repeats in an array: a list of variants, or
    a single rule that is neither an object nor an array. *)
Definition repeated_nested (nested : option ValidationRule)
  : option ValidationRule :=
  match nested with
  | Some (Single q) =>
      if Index.not_container q then nested else None
  | Some (Variants _) => nested
  | None => None
  end.

(** No rule position that a compiler reads holds an empty list of
    variants: the representative exists, here and in the rules below it. *)
Fixpoint well_formed (r : ValidationRule) : bool :=
  match r with
  | Single p => well_formed_prim p
  | Variants [] => false
  | Variants (p :: _) => well_formed_prim p
  end
with well_formed_prim (p : PrimitiveRule) : bool :=
  match p with
  | ObjectRule _ s _ =>
      match s with
      | Some l => forallb (λ kr, well_formed kr.2) l
      | None => true
      end
  | ArrayRule _ s n _ =>
      match s with
      | Some l => forallb well_formed l
      | None => true
      end
      && match n with
         | Some r => well_formed r
         | None => true
         end
  | _ => true
  end.

(** Induction over rule trees. *)
Section rule_induction.
Context (P : ValidationRule → Prop) (Q : PrimitiveRule → Prop).
Hypothesis Hsingle : ∀ p, Q p → P (Single p).
Hypothesis Hvariants : ∀ ps, Forall Q ps → P (Variants ps).
Hypothesis Hstring : ∀ c vs, Q (StringRule c vs).
Hypothesis Hnumber : ∀ c i vs, Q (NumberRule c i vs).
Hypothesis Hboolean : ∀ c, Q (BooleanRule c).
Hypothesis Hobject : ∀ c s n,
  from_option (Forall (λ kr, P kr.2)) True s →
  from_option P True n → Q (ObjectRule c s n).
Hypothesis Harray : ∀ c s n len,
  from_option (Forall P) True s →
  from_option P True n → Q (ArrayRule c s n len).
Hypothesis Hother : ∀ t c, Q (OtherRule t c).

Fixpoint rule_ind (r : ValidationRule) : P r :=
  match r with
  | Single p => Hsingle p (prim_ind p)
  | Variants ps =>
      Hvariants ps
        ((fix go (l : list PrimitiveRule) : Forall Q l :=
            match l with
            | [] => List.Forall_nil Q
            | p :: l' => List.Forall_cons Q p l' (prim_ind p) (go l')
            end) ps)
  end
with prim_ind (p : PrimitiveRule) : Q p :=
  match p with
  | StringRule c vs => Hstring c vs
  | NumberRule c i vs => Hnumber c i vs
  | BooleanRule c => Hboolean c
  | ObjectRule c s n =>
      Hobject c s n
        match s as s0 return from_option (Forall (λ kr, P kr.2)) True s0 with
        | Some l0 =>
            (fix go (l : list (string * ValidationRule))
               : Forall (λ kr, P kr.2) l :=
               match l with
               | [] => List.Forall_nil _
               | kr :: l' => List.Forall_cons _ kr l' (rule_ind kr.2) (go l')
               end) l0
        | None => I
        end
        match n as n0 return from_option P True n0 with
        | Some r => rule_ind r
        | None => I
        end
  | ArrayRule c s n len =>
      Harray c s n len
        match s as s0 return from_option (Forall P) True s0 with
        | Some l0 =>
            (fix go (l : list ValidationRule) : Forall P l :=
               match l with
               | [] => List.Forall_nil P
               | r :: l' => List.Forall_cons P r l' (rule_ind r) (go l')
               end) l0
        | None => I
        end
        match n as n0 return from_option P True n0 with
        | Some r => rule_ind r
        | None => I
        end
  | OtherRule t c => Hother t c
  end.
End rule_induction.

(** The text contains ["/"]. *)
Fixpoint has_slash (s : string) : bool :=
  match s with
  | EmptyString => false
  | String c s' => Ascii.eqb c SLASH || has_slash s'
  end.

Definition starts_with_slash (s : string) : bool :=
  match s with
  | String c _ => Ascii.eqb c SLASH
  | EmptyString => false
  end.

(** The names of the folder nodes among siblings. *)
Definition folder_names (item : list Node) : list string :=
  omap (λ fi, match fi with
              | FolderItem name _ => Some name
              | RequestItem _ => None
              end) item.

(** No two sibling folder nodes share a name, at any level of the tree. *)
Inductive unique_folders : list Node → Prop :=
| unique_siblings item :
    NoDup (folder_names item) →
    Forall unique_below item →
    unique_folders item
with unique_below : Node → Prop :=
| unique_request i : unique_below (RequestItem i)
| unique_folder name sub :
    unique_folders sub → unique_below (FolderItem name sub).

(** The trees the builders make: folder names are path segments, request
    names start with ["/"], and sibling folders have distinct names. *)
Inductive well_built : list Node → Prop :=
| built_siblings item :
    NoDup (folder_names item) →
    Forall built_node item →
    well_built item
with built_node : Node → Prop :=
| built_request i :
    starts_with_slash (i_name i) = true → built_node (RequestItem i)
| built_folder name sub :
    has_slash name = false → well_built sub →
    built_node (FolderItem name sub).

(** [tree] is what one of the builders returns for [endpoints], starting
    from the empty collection. *)
Definition built (ui js : JsonData → string) (endpoints : list BuiltEndpoint)
    (tree : list Node) : Prop :=
  (∃ options, CollectionSchema.buildItems ui js endpoints options = Ok tree) ∨
  (∃ authorization, Index.addEndpoints ui authorization endpoints [] = Ok tree).

(** [item] is the list of siblings at some level of [tree]. *)
Inductive siblings_in (tree : list Node) : list Node → Prop :=
| siblings_root : siblings_in tree tree
| siblings_sub item name sub :
    siblings_in tree item → FolderItem name sub ∈ item →
    siblings_in tree sub.

(** What the folder walk does with the folder [f] on the siblings [item]:
    it goes into the first sibling named [f], a folder, or no sibling is
    named [f] and it appends one folder node. *)
Definition descends_or_appends (item : list Node) (f : string)
    (fs : list string) (leaf : Item) : Prop :=
  (∃ i sub,
     item !! i = Some (FolderItem f sub) ∧
     (∀ j fi, item !! j = Some fi → (j < i)%nat → node_name fi ≠ f) ∧
     push_item (f :: fs) leaf item
     = <[i := FolderItem f (push_item fs leaf sub)]> item) ∨
  ((∀ fi, fi ∈ item → node_name fi ≠ f) ∧
   push_item (f :: fs) leaf item
   = item ++ [FolderItem f (push_item fs leaf [])]).

(** [default] is a string, a number or a boolean. *)
Definition scalar_default (d : JsonData) : bool :=
  match d with
  | JStr _ | JNum _ | JBool _ => true
  | _ => false
  end.

(** The text a query rule compiles to, case by case: a string or number
    [default] as text and a boolean [default] as ["1"] or ["0"]; else,
    when [values] is there, its first element as text (nothing for an empty
    list); else by [type]. *)
Definition query_value_spec (rule : PrimitiveRule) (value : string) : Prop :=
  (∀ s, rule_default rule = JStr s → value = s) ∧
  (∀ n, rule_default rule = JNum n → value = number_toString n) ∧
  (∀ b, rule_default rule = JBool b → value = if b then "1" else "0") ∧
  (scalar_default (rule_default rule) = false →
   (∀ v vs, rule_values rule = Some (v :: vs) → value = js_toString v) ∧
   (rule_values rule = Some [] → value = EmptyString) ∧
   (rule_values rule = None →
    (rule_type rule = Some "string" → value = EmptyString) ∧
    (rule_type rule = Some "number" → rule_integer rule = Some true →
     value = "0") ∧
    (rule_type rule = Some "number" → rule_integer rule ≠ Some true →
     value = "0.0") ∧
    (rule_type rule = Some "boolean" → value = "0") ∧
    (rule_type rule ≠ Some "string" → rule_type rule ≠ Some "number" →
     rule_type rule ≠ Some "boolean" → value = EmptyString))).

(** ** Reading annotated JSON back

    [JSON.parse] lies outside the sources; the round trip is stated against
    this reader of JSON text, which also skips [//] comments up to the end
    of the line.  Numbers are read as integers (a fraction or an exponent
    is refused, as the number model has none), strings with the two-letter
    escapes ([\u] escapes are refused), and the members of an object are
    kept in the order of the text. *)

Definition BACKSLASH : ascii := ascii_of_nat 92.
Definition CR : ascii := ascii_of_nat 13.

Definition is_ws (c : ascii) : bool :=
  Ascii.eqb c SP || Ascii.eqb c TAB || Ascii.eqb c LF || Ascii.eqb c CR.

(** White space and line comments. *)
Fixpoint skip_go (in_comment : bool) (s : string) : string :=
  match s with
  | EmptyString => EmptyString
  | String c s' =>
      if in_comment then
        if Ascii.eqb c LF then skip_go false s' else skip_go true s'
      else if is_ws c then skip_go false s'
      else if Ascii.eqb c SLASH then
        match s' with
        | String c' s'' => if Ascii.eqb c' SLASH then skip_go true s'' else s
        | EmptyString => s
        end
      else s
  end.

Definition skip (s : string) : string := skip_go false s.

(** The character an escape stands for. *)
Definition unescape (e : ascii) : option ascii :=
  if Ascii.eqb e QUOTE then Some QUOTE
  else if Ascii.eqb e BACKSLASH then Some BACKSLASH
  else if Ascii.eqb e SLASH then Some SLASH
  else if Ascii.eqb e "b" then Some (ascii_of_nat 8)
  else if Ascii.eqb e "f" then Some (ascii_of_nat 12)
  else if Ascii.eqb e "n" then Some LF
  else if Ascii.eqb e "r" then Some CR
  else if Ascii.eqb e "t" then Some TAB
  else None.

(** The characters of a string literal, after its opening quote. *)
Fixpoint parse_chars (s : string) : option (string * string) :=
  match s with
  | EmptyString => None
  | String c s' =>
      if Ascii.eqb c QUOTE then Some (EmptyString, s')
      else if Ascii.eqb c BACKSLASH then
        match s' with
        | String e s'' =>
            match unescape e, parse_chars s'' with
            | Some c', Some (t, rest) => Some (String c' t, rest)
            | _, _ => None
            end
        | EmptyString => None
        end
      else if (nat_of_ascii c <? 32)%nat then None
      else
        match parse_chars s' with
        | Some (t, rest) => Some (String c t, rest)
        | None => None
        end
  end.

Definition digit_value (c : ascii) : N := N.of_nat (nat_of_ascii c - 48).

Fixpoint read_digits (acc : N) (s : string) : N * string :=
  match s with
  | String c s' =>
      if is_digit c then read_digits (acc * 10 + digit_value c)%N s'
      else (acc, s)
  | EmptyString => (acc, EmptyString)
  end.

(** [0] or a run of digits that does not start with [0]. *)
Definition parse_natural (s : string) : option (N * string) :=
  match s with
  | String c s' =>
      if Ascii.eqb c "0" then
        match s' with
        | String c' _ => if is_digit c' then None else Some (0%N, s')
        | EmptyString => Some (0%N, s')
        end
      else if is_digit c then Some (read_digits (digit_value c) s')
      else None
  | EmptyString => None
  end.

(** After an integer comes no fraction and no exponent. *)
Definition integer_ends (rest : string) : bool :=
  match rest with
  | String c _ =>
      negb (Ascii.eqb c "." || Ascii.eqb c "e" || Ascii.eqb c "E")
  | EmptyString => true
  end.

Definition parse_number (s : string) : option (Z * string) :=
  match s with
  | String c s' =>
      '(n, rest) ←
        (if Ascii.eqb c "-"
         then prod_map (λ n, - Z.of_N n) id <$> parse_natural s'
         else prod_map Z.of_N id <$> parse_natural s);
      if integer_ends rest then Some (n, rest) else None
  | EmptyString => None
  end.

(** [s] without the prefix [p]. *)
Fixpoint strip_prefix (p s : string) : option string :=
  match p, s with
  | EmptyString, _ => Some s
  | String a p', String b s' =>
      if Ascii.eqb a b then strip_prefix p' s' else None
  | String _ _, EmptyString => None
  end.

Fixpoint parse_value (fuel : nat) (s : string) : option (JsonData * string) :=
  match fuel with
  | O => None
  | S f =>
      match skip s with
      | EmptyString => None
      | String c s' =>
          if Ascii.eqb c QUOTE then
            '(t, rest) ← parse_chars s'; Some (JStr t, rest)
          else if Ascii.eqb c "[" then
            '(vs, rest) ← parse_items f false s'; Some (JArr vs, rest)
          else if Ascii.eqb c "{" then
            '(kvs, rest) ← parse_members f false s'; Some (JObj kvs, rest)
          else if Ascii.eqb c "n" then
            rest ← strip_prefix "ull" s'; Some (JNull, rest)
          else if Ascii.eqb c "t" then
            rest ← strip_prefix "rue" s'; Some (JBool true, rest)
          else if Ascii.eqb c "f" then
            rest ← strip_prefix "alse" s'; Some (JBool false, rest)
          else
            '(z, rest) ← parse_number (String c s'); Some (JNum (Int z), rest)
      end
  end
with parse_items (fuel : nat) (need : bool) (s : string)
  : option (list JsonData * string) :=
  match fuel with
  | O => None
  | S f =>
      match skip s with
      | EmptyString => None
      | String c s' =>
          if Ascii.eqb c "]" then if need then None else Some ([], s')
          else
            '(v, s1) ← parse_value f (String c s');
            match skip s1 with
            | String c1 s2 =>
                if Ascii.eqb c1 "," then
                  '(vs, rest) ← parse_items f true s2; Some (v :: vs, rest)
                else if Ascii.eqb c1 "]" then Some ([v], s2)
                else None
            | EmptyString => None
            end
      end
  end
with parse_members (fuel : nat) (need : bool) (s : string)
  : option (list (string * JsonData) * string) :=
  match fuel with
  | O => None
  | S f =>
      match skip s with
      | EmptyString => None
      | String c s' =>
          if Ascii.eqb c "}" then if need then None else Some ([], s')
          else if Ascii.eqb c QUOTE then
            '(k, s1) ← parse_chars s';
            match skip s1 with
            | String c1 s2 =>
                if Ascii.eqb c1 ":" then
                  '(v, s3) ← parse_value f s2;
                  match skip s3 with
                  | String c3 s4 =>
                      if Ascii.eqb c3 "," then
                        '(kvs, rest) ← parse_members f true s4;
                        Some ((k, v) :: kvs, rest)
                      else if Ascii.eqb c3 "}" then Some ([(k, v)], s4)
                      else None
                  | EmptyString => None
                  end
                else None
            | EmptyString => None
            end
          else None
      end
  end.

(** The value a text denotes: one value, then white space and comments to
    the end. *)
Definition parse_jsonc (text : string) : option JsonData :=
  '(v, rest) ← parse_value (S (String.length text)) text;
  match skip rest with
  | EmptyString => Some v
  | String _ _ => None
  end.

(** The value of a compiled pair [[value, description]], descriptions
    dropped at every level. *)
Fixpoint strip (data : JsonData) : JsonData :=
  match data with
  | JArr (value :: _) =>
      match value with
      | JArr elems => JArr (map strip elems)
      | JObj entries => JObj (map (λ kv, (kv.1, strip kv.2)) entries)
      | _ => value
      end
  | _ => JUndefined
  end.

(** [data[1]] of a pair *)
Definition description_of (data : JsonData) : JsonData :=
  match data with
  | JArr (_ :: rest) => first id rest
  | _ => JUndefined
  end.

(** A text with no double quote, no backslash and no control character. *)
Definition plain_char (c : ascii) : bool :=
  negb (nat_of_ascii c <? 32)%nat && negb (Ascii.eqb c QUOTE)
  && negb (Ascii.eqb c BACKSLASH).

Fixpoint plain_text (s : string) : bool :=
  match s with
  | EmptyString => true
  | String c s' => plain_char c && plain_text s'
  end.

Fixpoint no_lf (s : string) : bool :=
  match s with
  | EmptyString => true
  | String c s' => negb (Ascii.eqb c LF) && no_lf s'
  end.

(** A description is absent or a text on one line. *)
Definition comment_ok (d : JsonData) : bool :=
  match d with
  | JUndefined => true
  | JStr s => no_lf s
  | _ => false
  end.

(** The compiled pairs that survive the round trip: integers, booleans,
    [null], plain strings and keys, and containers of such pairs. *)
Inductive plain : JsonData → Prop :=
| plain_pair value rest :
    comment_ok (first id rest) = true → plain_value value →
    plain (JArr (value :: rest))
with plain_value : JsonData → Prop :=
| plain_null : plain_value JNull
| plain_bool b : plain_value (JBool b)
| plain_int z : plain_value (JNum (Int z))
| plain_str s : plain_text s = true → plain_value (JStr s)
| plain_arr elems : Forall plain elems → plain_value (JArr elems)
| plain_obj entries :
    Forall (λ kv, plain_text kv.1 = true ∧ plain kv.2) entries →
    plain_value (JObj entries).

(** Induction over values. *)
Section json_induction.
Context (P : JsonData → Prop).
Hypothesis Hundefined : P JUndefined.
Hypothesis Hnull : P JNull.
Hypothesis Hbool : ∀ b, P (JBool b).
Hypothesis Hnum : ∀ n, P (JNum n).
Hypothesis Hstr : ∀ s, P (JStr s).
Hypothesis Hfunction : ∀ source, P (JFunction source).
Hypothesis Harr : ∀ elems, Forall P elems → P (JArr elems).
Hypothesis Hobj : ∀ props, Forall (λ kv, P kv.2) props → P (JObj props).

Fixpoint json_ind (v : JsonData) : P v :=
  match v with
  | JUndefined => Hundefined
  | JNull => Hnull
  | JBool b => Hbool b
  | JNum n => Hnum n
  | JStr s => Hstr s
  | JFunction source => Hfunction source
  | JArr elems =>
      Harr elems
        ((fix go (l : list JsonData) : Forall P l :=
            match l with
            | [] => List.Forall_nil P
            | x :: l' => List.Forall_cons P x l' (json_ind x) (go l')
            end) elems)
  | JObj props =>
      Hobj props
        ((fix go (l : list (string * JsonData)) : Forall (λ kv, P kv.2) l :=
            match l with
            | [] => List.Forall_nil _
            | kv :: l' => List.Forall_cons _ kv l' (json_ind kv.2) (go l')
            end) props)
  end.
End json_induction.

(** [l.map((v, i) => f(i, v))] from the index [i], for a callback that may
    raise. *)
Fixpoint mapM_from {A B} (f : nat → A → result B) (i : nat) (l : list A)
  : result (list B) :=
  match l with
  | [] => Ok []
  | x :: l' => y ← f i x; ys ← mapM_from f (S i) l'; Ok (y :: ys)
  end.

(** A text the reader skips whatever follows it. *)
Definition skippable (pre : string) : Prop :=
  ∀ s, skip (pre +:+ s) = skip s.

(** The part of the suffix after the comma: a comment and a line feed, or a
    line feed. *)
Definition comment_text (data1 : JsonData) : string :=
  if truthy data1
  then " // " +:+ js_toString data1 +:+ String LF EmptyString
  else String LF EmptyString.

(** A character that opens a value. *)
Definition opens_value (c : ascii) : bool :=
  negb (is_ws c) && negb (Ascii.eqb c SLASH) && negb (Ascii.eqb c "]")
  && negb (Ascii.eqb c "}").

(** What follows a value in the serializer's output: a comma, a space or a
    line feed. *)
Definition delimited (rest : string) : Prop :=
  ∃ c r, rest = String c r ∧
         (c = ","%char ∨ c = SP ∨ c = LF).

(** The text [vt] opens with a value character and the reader reads it
    back as [v], whatever delimited text follows. *)
Definition reads_back (vt : string) (v : JsonData) : Prop :=
  (∃ c r, vt = String c r ∧ opens_value c = true) ∧
  ∀ fuel rest, (String.length vt ≤ fuel)%nat → delimited rest →
    parse_value fuel (vt +:+ rest) = Some (v, rest).

(** The serializer writes a value text and the suffix of the pair, and the
    reader reads the value text back as the pair's value. *)
Definition roundtrips (data : JsonData) : Prop :=
  ∀ last indent, ∃ vt,
    Index._stringifyJsonc data last indent
    = Ok (vt +:+ Index.comment_of last (description_of data)) ∧
    reads_back vt (strip data).

Definition value_roundtrips (value : JsonData) : Prop :=
  ∀ comment indent, ∃ vt,
    Index.switch_value value comment indent = Ok (vt +:+ comment) ∧
    reads_back vt (strip (JArr [value])).

(** A default the serializer writes as it is: [null], a boolean, an
    integer, a plain string or an empty container. *)
Definition plain_default (d : JsonData) : bool :=
  match d with
  | JNull | JBool _ | JNum (Int _) | JArr [] | JObj [] => true
  | JStr s => plain_text s
  | _ => false
  end.

(** The rules whose compiled value survives the round trip: where the
    class's compiler takes a default it is a [plain_default], the string it
    takes from [values] and the keys of a [schema] are plain texts, and
    [length || 1] is a valid array length where [nested] is repeated. *)
Fixpoint serializable (r : ValidationRule) : bool :=
  match r with
  | Single p => serializable_prim p
  | Variants [] => true
  | Variants (p :: _) => serializable_prim p
  end
with serializable_prim (p : PrimitiveRule) : bool :=
  if usable_default (rule_default p) then plain_default (rule_default p)
  else
    match p with
    | StringRule _ (Some (s :: _)) => plain_text s
    | ArrayRule _ _ (Some n) len =>
        if match n with
           | Single q => Index.not_container q
           | Variants _ => true
           end
        then Index.valid_array_length (length_or_1 len) && serializable n
        else true
    | ObjectRule _ (Some s) _ =>
        forallb (λ kr, plain_text kr.1 && serializable kr.2) s
    | _ => true
    end.

(** ** Paths *)

(** The text contains ["("]. *)
Fixpoint has_paren (s : string) : bool :=
  match s with
  | EmptyString => false
  | String c s' => Ascii.eqb c "(" || has_paren s'
  end.

(** ** Collection trees *)

(** Induction over the nodes of a tree. *)
Section node_induction.
Context (P : Node → Prop).
Hypothesis Hrequest : ∀ i, P (RequestItem i).
Hypothesis Hfolder : ∀ name sub, Forall P sub → P (FolderItem name sub).

Fixpoint node_ind' (fi : Node) : P fi :=
  match fi with
  | RequestItem i => Hrequest i
  | FolderItem name sub =>
      Hfolder name sub
        ((fix go (l : list Node) : Forall P l :=
            match l with
            | [] => List.Forall_nil P
            | x :: l' => List.Forall_cons P x l' (node_ind' x) (go l')
            end) sub)
  end.
End node_induction.

(** The request items of a tree, at every level. *)
Fixpoint node_leaves (fi : Node) : list Item :=
  match fi with
  | RequestItem i => [i]
  | FolderItem _ sub => concat (map node_leaves sub)
  end.

Definition leaves (item : list Node) : list Item :=
  concat (map node_leaves item).

(** The request items among siblings, in their order. *)
Definition requests (item : list Node) : list Item :=
  omap (λ fi, match fi with
              | RequestItem i => Some i
              | FolderItem _ _ => None
              end) item.

Definition is_folder (fi : Node) : bool :=
  match fi with
  | FolderItem _ _ => true
  | RequestItem _ => false
  end.

(** No folder lies more than [n] folders deep: a request item fits at any
    depth, a folder needs room for itself and for what it holds. *)
Fixpoint nests_within (n : nat) (fi : Node) {struct fi} : bool :=
  match fi with
  | RequestItem _ => true
  | FolderItem _ sub =>
      match n with
      | O => false
      | S n' => forallb (nests_within n') sub
      end
  end.

(** [leaf] is a request item below the chain of folders named [folders],
    from the siblings [item] down. *)
Fixpoint filed_under (folders : list string) (leaf : Item) (item : list Node)
  : Prop :=
  match folders with
  | [] => RequestItem leaf ∈ item
  | f :: fs => ∃ sub, FolderItem f sub ∈ item ∧ filed_under fs leaf sub
  end.

(** The siblings a reader reaches by the names [folders], taking at every
    level the first node of that name, as [find] does; nothing when that
    node is missing or is a request item. *)
Fixpoint children_at (folders : list string) (item : list Node) : list Node :=
  match folders with
  | [] => item
  | f :: fs =>
      match list_find (λ fi, node_name fi = f) item with
      | Some (_, FolderItem _ sub) => children_at fs sub
      | _ => []
      end
  end.

(** What the two builders build alike for an endpoint: the folders, and of
    a request item its name, method, raw URL, path, the keys of its path
    variables and the keys and values of its query parameters. *)
Inductive Shape : Type :=
| FolderShape (name : string) (sub : list Shape)
| RequestShape (name method raw : string) (path variables : list string)
    (query : list (string * string)).

Fixpoint shape (fi : Node) : Shape :=
  match fi with
  | FolderItem name sub => FolderShape name (map shape sub)
  | RequestItem i =>
      RequestShape (i_name i) (r_method (i_request i))
        (u_raw (r_url (i_request i))) (u_path (r_url (i_request i)))
        (map v_key (u_variable (r_url (i_request i))))
        (map (λ q, (q_key q, q_value q)) (u_query (r_url (i_request i))))
  end.

(** ** Rules the compilers accept *)

(** Every rule position [parseRuleToJsonData] reads holds a representative:
    the root, the fields of the [schema] of an object or array rule and the
    [nested] rule of an array rule without [schema].  Nothing below a usable
    default is read. *)
Fixpoint reads_representatives (r : ValidationRule) : bool :=
  match r with
  | Single p => reads_representatives_prim p
  | Variants [] => false
  | Variants (p :: _) => reads_representatives_prim p
  end
with reads_representatives_prim (p : PrimitiveRule) : bool :=
  usable_default (rule_default p) ||
  match p with
  | ObjectRule _ (Some s) _ => forallb (λ kr, reads_representatives kr.2) s
  | ArrayRule _ (Some a) _ _ => forallb reads_representatives a
  | ArrayRule _ None (Some n) _ => reads_representatives n
  | _ => true
  end.

(** Wherever [_parseRuleToJsonc] repeats a [nested] rule, [length || 1] is
    a valid array length.  Nothing below a usable default is read. *)
Fixpoint lengths_valid (r : ValidationRule) : bool :=
  match r with
  | Single p => lengths_valid_prim p
  | Variants [] => true
  | Variants (p :: _) => lengths_valid_prim p
  end
with lengths_valid_prim (p : PrimitiveRule) : bool :=
  usable_default (rule_default p) ||
  match p with
  | ObjectRule _ (Some s) _ => forallb (λ kr, lengths_valid kr.2) s
  | ArrayRule _ _ (Some n) len =>
      if match n with
         | Single q => Index.not_container q
         | Variants _ => true
         end
      then Index.valid_array_length (length_or_1 len) && lengths_valid n
      else true
  | _ => true
  end.

(** A default that is not a container with elements. *)
Definition flat_default (d : JsonData) : bool :=
  match d with
  | JArr (_ :: _) | JObj (_ :: _) => false
  | _ => true
  end.

(** The rules on which the two compilers do the same: every position has a
    representative, a default is a [flat_default], no array rule has a
    [schema] list, and a [nested] rule is one the class repeats, a valid
    number of times. *)
Fixpoint compiled_alike (r : ValidationRule) : bool :=
  match r with
  | Single p => compiled_alike_prim p
  | Variants [] => false
  | Variants (p :: _) => compiled_alike_prim p
  end
with compiled_alike_prim (p : PrimitiveRule) : bool :=
  if usable_default (rule_default p) then flat_default (rule_default p)
  else
    match p with
    | ObjectRule _ (Some s) _ => forallb (λ kr, compiled_alike kr.2) s
    | ArrayRule _ (Some _) _ _ => false
    | ArrayRule _ None (Some n) len =>
        match n with
        | Single q => Index.not_container q
        | Variants _ => true
        end
        && Index.valid_array_length (length_or_1 len) && compiled_alike n
    | _ => true
    end.

(** ** Form fields *)

Definition field_key (f : Formdata) : string :=
  match f with
  | FileField key _ | TextField key _ _ => key
  end.

Definition is_file (f : Formdata) : bool :=
  match f with
  | FileField _ _ => true
  | TextField _ _ _ => false
  end.

(** The rule position holds a rule. *)
Definition has_representative (r : ValidationRule) : bool :=
  match representative r with
  | Some _ => true
  | None => false
  end.

(** The rule the position holds has the type ['object']. *)
Definition object_typed (r : ValidationRule) : bool :=
  match representative r with
  | Some rule => type_is (rule_type rule) "object"
  | None => false
  end.

(** ** Values the serializer cannot enter *)

Definition nullish (v : JsonData) : bool :=
  match v with
  | JNull | JUndefined => true
  | _ => false
  end.

(** An array with a [null] or [undefined] element, or an object with such
    a property value. *)
Definition holds_nullish (d : JsonData) : bool :=
  match d with
  | JArr elems => existsb nullish elems
  | JObj props => existsb (λ kv, nullish kv.2) props
  | _ => false
  end.

(** * Properties *)

Lemma map_fmap {A B} (f : A → B) (l : list A) : map f l = f <$> l.
Proof. done. Qed.

(** ** Callbacks that may raise *)

Lemma mapM_Ok_inv {A B} (f : A → result B) (l : list A) (ys : list B) :
  mapM f l = Ok ys →
  length ys = length l ∧
  ∀ i x, l !! i = Some x → ∃ y, f x = Ok y ∧ ys !! i = Some y.
Proof.
  revert ys. induction l as [|x l IH]; intros ys H; simpl in H.
  - injection H as <-. split; [done|]. intros i x Hx. by destruct i.
  - destruct (f x) as [y|e] eqn:Hy; [|done]. simpl in H.
    destruct (mapM f l) as [ys'|e] eqn:Hl; [|done]. simpl in H.
    injection H as <-. destruct (IH ys' eq_refl) as [Hlen Hnth].
    split; [simpl; by rewrite Hlen|].
    intros [|i] x' Hx'; simpl in *.
    + injection Hx' as <-. eauto.
    + eauto.
Qed.

Lemma mapM_total {A B} (f : A → result B) (l : list A) :
  Forall (λ x, ∃ y, f x = Ok y) l → ∃ ys, mapM f l = Ok ys.
Proof.
  induction 1 as [|x l [y Hy] _ [ys Hys]]; simpl; [by eexists|].
  rewrite Hy. simpl. rewrite Hys. simpl. by eexists.
Qed.

(** ** The rule compiler of [collection-schema.ts] *)

Lemma parsePrimitive_object c s n :
  CollectionSchema.parsePrimitive (ObjectRule c (Some s) n) =
  if usable_default (c_default c) then Ok (c_default c)
  else JObj <$> mapM (λ '(key, rule),
                      v ← CollectionSchema.parseRuleToJsonData rule;
                      Ok (key, v)) s.
Proof.
  simpl. unfold rule_default. simpl.
  destruct (usable_default (c_default c)); [done|]. f_equal.
  induction s as [|[k r] s IH]; [done|]. simpl.
  destruct (CollectionSchema.parseRuleToJsonData r); [|done]. simpl.
  rewrite IH. by destruct (mapM _ s).
Qed.

Lemma parsePrimitive_array_schema c a n len :
  CollectionSchema.parsePrimitive (ArrayRule c (Some a) n len) =
  if usable_default (c_default c) then Ok (c_default c)
  else
    compiled ← mapM CollectionSchema.parseRuleToJsonData a;
    Ok (JArr (compiled ++
              replicate
                (Z.to_nat (CollectionSchema.schema_bound a n len
                           - Z.of_nat (length a)))
                (from_option rule_object JUndefined n))).
Proof.
  simpl. unfold rule_default. simpl.
  destruct (usable_default (c_default c)); [done|].
  assert ((fix each (rs : list ValidationRule) : result (list JsonData) :=
             match rs with
             | [] => Ok []
             | r :: rs' =>
                 v ← CollectionSchema.parseRuleToJsonData r;
                 out ← each rs'; Ok (v :: out)
             end) a = mapM CollectionSchema.parseRuleToJsonData a) as ->; [|done].
  induction a as [|r a IH]; [done|]. simpl.
  destruct (CollectionSchema.parseRuleToJsonData r); [|done]. simpl.
  by rewrite IH.
Qed.

(** The compiler looks at the representative only. *)
Lemma parseRuleToJsonData_representative r p :
  representative r = Some p →
  CollectionSchema.parseRuleToJsonData r = CollectionSchema.parsePrimitive p.
Proof.
  destruct r as [q|[|q ps]]; simpl; intros H; by simplify_eq.
Qed.

(** ** The rule compiler of the class *)

Lemma _parseRuleToJsonc_representative ui r p :
  representative r = Some p →
  Index._parseRuleToJsonc ui r =
  v ← Index.jsonc_value ui p;
  Ok (JArr [v; from_option JStr JUndefined (Index._parseDescription ui r)]).
Proof.
  destruct r as [q|[|q ps]]; simpl; intros H; by simplify_eq.
Qed.



Lemma jsonc_value_array ui c s nested len :
  Index.jsonc_value ui (ArrayRule c s nested len) =
  if usable_default (c_default c) then Ok (c_default c)
  else
    match repeated_nested nested with
    | Some n =>
        if Index.valid_array_length (length_or_1 len) then
          elem ← Index._parseRuleToJsonc ui n;
          Ok (JArr (replicate (Z.to_nat (length_or_1 len)) elem))
        else Throw RangeError
    | None => Ok (JArr [])
    end.
Proof.
  unfold repeated_nested.
  destruct nested as [[q|ps]|]; cbn [Index.jsonc_value];
    unfold rule_default; cbn [rule_common]; [|done..].
  by destruct (Index.not_container q).
Qed.

(** ** Array rules *)




(** Rules with a representative at every position compile. *)
Lemma parseRuleToJsonData_total (r : ValidationRule) :
  well_formed r = true → compiles r.
Proof.
  unfold compiles.
  apply (rule_ind
           (λ r, well_formed r = true →
                 ∃ v, CollectionSchema.parseRuleToJsonData r = Ok v)
           (λ p, well_formed_prim p = true →
                 ∃ v, CollectionSchema.parsePrimitive p = Ok v)).
  - intros p IH Hwf. by apply IH.
  - intros [|p ps] IH Hwf; [done|]. apply Forall_cons in IH as [IH _].
    by apply IH.
  - intros c vs _. simpl. destruct (usable_default _); by eexists.
  - intros c i vs _. simpl. destruct (usable_default _); by eexists.
  - intros c _. simpl. destruct (usable_default _); by eexists.
  - intros c s n IHs _ Hwf.
    destruct s as [l|]; [|simpl; destruct (usable_default _); by eexists].
    rewrite parsePrimitive_object.
    destruct (usable_default (c_default c)); [by eexists|].
    simpl in IHs, Hwf.
    destruct (mapM_total
                (λ '(key, rule),
                 v ← CollectionSchema.parseRuleToJsonData rule; Ok (key, v)) l)
      as [ys ->]; [|by eexists].
    apply Forall_forall. intros [k x] Hin.
    rewrite Forall_forall in IHs.
    destruct (IHs _ Hin) as [v Hv].
    { simpl. rewrite forallb_forall in Hwf.
      apply (Hwf (k, x)). by apply list_elem_of_In. }
    simpl in Hv. rewrite Hv. by eexists.
  - intros c s n len IHs IHn Hwf. simpl in Hwf.
    apply andb_prop in Hwf as [Hs Hn].
    destruct s as [a|].
    + rewrite parsePrimitive_array_schema.
      destruct (usable_default (c_default c)); [by eexists|].
      destruct (mapM_total CollectionSchema.parseRuleToJsonData a)
        as [ys ->]; [|by eexists].
      simpl in IHs. rewrite Forall_forall in IHs |- *.
      intros x Hin. apply IHs; [done|].
      rewrite forallb_forall in Hs. apply Hs. by apply list_elem_of_In.
    + simpl. destruct (usable_default _); [by eexists|].
      destruct n as [n|]; [|by eexists].
      destruct (IHn Hn) as [v ->]. by eexists.
  - intros t c _. simpl. destruct (usable_default _); by eexists.
Qed.

(** C3: for an array rule without a usable default that has a [schema]
    list, index [i] of the array compiled by [parseRuleToJsonData] is the
    compilation of [schema[i]] below the length of the list; an index at or
    beyond it exists only when [nested] is present and [length] exceeds the
    length of the list, and it holds the [nested] rule node itself, not a
    compiled value. *)
Theorem C3_schema_indices (r : ValidationRule) (c : CommonRule)
    (a : list ValidationRule) (nested : option ValidationRule)
    (len : option Z) :
  representative r = Some (ArrayRule c (Some a) nested len) →
  usable_default (c_default c) = false →
  Forall compiles a →
  ∃ elems,
    CollectionSchema.parseRuleToJsonData r = Ok (JArr elems) ∧
    (∀ i ri, a !! i = Some ri →
       ∃ v, CollectionSchema.parseRuleToJsonData ri = Ok v ∧
            elems !! i = Some v) ∧
    (∀ i, (length a ≤ i < length elems)%nat →
       ∃ n L, nested = Some n ∧ len = Some L ∧ Z.of_nat (length a) < L ∧
              elems !! i = Some (rule_object n)) ∧
    (∀ n L i, nested = Some n → len = Some L →
       (length a ≤ i)%nat → Z.of_nat i < L →
       elems !! i = Some (rule_object n)).
Proof.
  intros Hrep Hd Ha.
  rewrite (parseRuleToJsonData_representative _ _ Hrep).
  rewrite parsePrimitive_array_schema, Hd.
  destruct (mapM_total _ _ Ha) as [vs Hvs]. rewrite Hvs. cbn.
  apply mapM_Ok_inv in Hvs as [Hlen Hnth].
  eexists. split; [done|]. split; [|split].
  - intros i ri Hi. destruct (Hnth i ri Hi) as (v & Hv & Hi').
    exists v. split; [done|]. by apply lookup_app_l_Some.
  - intros i [Hlo Hhi]. rewrite length_app, length_replicate, Hlen in Hhi.
    unfold CollectionSchema.schema_bound in *.
    destruct nested as [n|], len as [L|]; try (exfalso; lia).
    destruct (Z.of_nat (length a) <? L) eqn:HL; [|exfalso; lia].
    exists n, L. repeat split; [lia|].
    rewrite lookup_app_r by lia. apply lookup_replicate_2. lia.
  - intros n L i -> -> Hlo Hhi.
    unfold CollectionSchema.schema_bound.
    destruct (Z.of_nat (length a) <? L) eqn:HL; [|exfalso; lia].
    rewrite lookup_app_r by lia. apply lookup_replicate_2. lia.
Qed.

Lemma C3_schema_indices_witness :
  let r := Single (ArrayRule bare (Some [boolean_rule]) (Some boolean_rule)
                     (Some 3)) in
  ∃ elems,
    CollectionSchema.parseRuleToJsonData r = Ok (JArr elems) ∧
    elems !! 0%nat = Some (JBool false) ∧
    elems !! 2%nat = Some (JObj [("type", JStr "boolean")]).
Proof.
  intros r.
  destruct (C3_schema_indices r bare [boolean_rule] (Some boolean_rule)
              (Some 3) eq_refl eq_refl) as (elems & Hr & Hlow & _ & Hhigh).
  { repeat constructor. by exists (JBool false). }
  exists elems. split; [done|]. split.
  - destruct (Hlow 0%nat boolean_rule eq_refl) as (v & Hv & ->).
    by injection Hv as <-.
  - apply (Hhigh boolean_rule 3 2%nat eq_refl eq_refl); simpl; lia.
Defined.

(** ** Malformed rules *)

(** C6: an empty list of variants has no representative;
    [parseRuleToJsonData] reads [default] of [undefined] and raises, at the
    root and below an object rule, where [_parseRuleToJsonc] tests the
    representative first and compiles [null].  The other way round, a
    negative [length] makes [_parseRuleToJsonc] raise from [Array(-1)],
    where [parseRuleToJsonData] compiles the empty array. *)
Theorem C6_empty_variants_raise :
  CollectionSchema.parseRuleToJsonData (Variants []) = Throw TypeError ∧
  CollectionSchema.parseRuleToJsonData
    (Single (ObjectRule bare (Some [("a", Variants [])]) None))
  = Throw TypeError ∧
  (∀ ui, Index._parseRuleToJsonc ui (Variants [])
         = Ok (JArr [JNull; JUndefined])) ∧
  (∀ ui, Index._parseRuleToJsonc ui
           (Single (ArrayRule bare None (Some boolean_rule) (Some (-1))))
         = Throw RangeError) ∧
  CollectionSchema.parseRuleToJsonData
    (Single (ArrayRule bare None (Some boolean_rule) (Some (-1))))
  = Ok (JArr []).
Proof. repeat split. Qed.

(** ** Path segments and names *)

Lemma split_slash_no_slash (s : string) :
  Forall (λ seg, has_slash seg = false) (split_slash s).
Proof.
  induction s as [|c s IH]; simpl; [by repeat constructor|].
  destruct (Ascii.eqb c SLASH) eqn:Hc; [by constructor|].
  destruct (split_slash s) as [|h t]; [by repeat constructor; simpl; rewrite Hc|].
  apply Forall_cons in IH as [Hh Ht]. constructor; [|done].
  simpl. by rewrite Hc.
Qed.

Lemma slice0_Forall {A} (P : A → Prop) (n : Z) (l : list A) :
  Forall P l → Forall P (slice0 n l).
Proof. intros H. unfold slice0. case_match; by apply Forall_take. Qed.

Lemma has_slash_starts_with_slash (f name : string) :
  has_slash f = false → starts_with_slash name = true → name ≠ f.
Proof.
  intros Hf Hname ->. destruct f as [|c f]; [done|]. simpl in *.
  by rewrite Hname in Hf.
Qed.

Lemma endpoint_item_names ui js e options folders leaf :
  CollectionSchema.endpoint_item ui js e options = Ok (folders, leaf) →
  Forall (λ f, has_slash f = false) folders ∧
  i_name leaf =
    String SLASH
      (join_slash (map rewrite_segment
                     (split_slash (substring_from 1 (e_path e))))) ∧
  u_raw (r_url (i_request leaf)) = "{{host}}" +:+ i_name leaf.
Proof.
  unfold CollectionSchema.endpoint_item. intros H.
  destruct (CollectionSchema.parseBody _ _ _ _ _) as [bodyData|]; [|done].
  cbn in H. injection H as <- <-. split; [|done].
  apply slice0_Forall, split_slash_no_slash.
Qed.

Lemma _endpoint_item_names ui auth e folders leaf :
  Index.endpoint_item ui auth e = Ok (folders, leaf) →
  Forall (λ f, has_slash f = false) folders ∧
  i_name leaf =
    String SLASH
      (join_slash (map rewrite_segment
                     (split_slash (substring_from 1 (e_path e))))) ∧
  u_raw (r_url (i_request leaf)) = "{{host}}" +:+ i_name leaf.
Proof.
  unfold Index.endpoint_item. intros H.
  destruct (Index._parseBody _ _ _) as [bodyData|]; [|done].
  cbn in H. injection H as <- <-. split; [|done].
  apply Forall_take, split_slash_no_slash.
Qed.

(** C10: the name of the request item built for an endpoint is the
    normalized URL without its ["{{host}}"] prefix, that is ["/"] followed
    by the rewritten path segments joined by ["/"]; the folders it is filed
    under are path segments, which hold no ["/"], so the name differs from
    every folder name.  Both builders. *)
Theorem C10_item_name (util_inspect JSON_stringify : JsonData → string)
    (e : BuiltEndpoint) (folders : list string) (leaf : Item) :
  (∃ options,
     CollectionSchema.endpoint_item util_inspect JSON_stringify e options
     = Ok (folders, leaf)) ∨
  (∃ authorization,
     Index.endpoint_item util_inspect authorization e = Ok (folders, leaf)) →
  i_name leaf =
    String SLASH
      (join_slash (map rewrite_segment
                     (split_slash (substring_from 1 (e_path e))))) ∧
  u_raw (r_url (i_request leaf)) = "{{host}}" +:+ i_name leaf ∧
  starts_with_slash (i_name leaf) = true ∧
  ∀ f, f ∈ folders → has_slash f = false ∧ i_name leaf ≠ f.
Proof.
  intros H.
  assert (Forall (λ f, has_slash f = false) folders ∧
          i_name leaf =
            String SLASH
              (join_slash (map rewrite_segment
                             (split_slash (substring_from 1 (e_path e))))) ∧
          u_raw (r_url (i_request leaf)) = "{{host}}" +:+ i_name leaf)
    as (Hf & Hname & Hraw).
  { destruct H as [[options H]|[auth H]].
    - by apply endpoint_item_names in H.
    - by apply _endpoint_item_names in H. }
  assert (starts_with_slash (i_name leaf) = true) as Hs by by rewrite Hname.
  repeat split; try done.
  - rewrite Forall_forall in Hf. by apply Hf.
  - apply has_slash_starts_with_slash; [|done].
    rewrite Forall_forall in Hf. by apply Hf.
Qed.

Lemma C10_item_name_witness :
  ∃ leaf,
    CollectionSchema.endpoint_item inspect_one_line json_one_line get_users
      no_options = Ok (["users"], leaf) ∧
    i_name leaf = "/users" ∧
    (∀ f, f ∈ ["users"] → has_slash f = false ∧ i_name leaf ≠ f).
Proof.
  eexists. split; [reflexivity|].
  match goal with
  | |- i_name ?leaf = _ ∧ _ =>
      destruct (C10_item_name inspect_one_line json_one_line get_users
                  ["users"] leaf
                  (or_introl (ex_intro _ no_options eq_refl)))
        as (Hname & _ & _ & Hf)
  end.
  split; [exact Hname|exact Hf].
Defined.

(** ** The folder tree *)

Lemma folder_names_app (item1 item2 : list Node) :
  folder_names (item1 ++ item2) = folder_names item1 ++ folder_names item2.
Proof. apply omap_app. Qed.

Lemma folder_names_insert (item : list Node) (i : nat) name sub sub' :
  item !! i = Some (FolderItem name sub) →
  folder_names (<[i := FolderItem name sub']> item) = folder_names item.
Proof.
  revert i. induction item as [|x item IH]; intros [|i] H; simpl in *; try done.
  - by injection H as ->.
  - unfold folder_names in *. simpl. by rewrite (IH i H).
Qed.

Lemma not_named_not_folder (item : list Node) (f : string) :
  Forall (λ fi, node_name fi ≠ f) item → f ∉ folder_names item.
Proof.
  intros H Hin. apply list_elem_of_omap in Hin as (fi & Hfi & Hname).
  rewrite Forall_forall in H. destruct fi; simplify_eq.
  by apply (H _ Hfi).
Qed.

Lemma well_built_nil : well_built [].
Proof. constructor; constructor. Qed.

(** One level of the walk on a well-built tree: the first sibling named
    [f] is a folder and the walk goes into it, or no sibling is named [f]
    and one folder node is appended. *)
Lemma push_item_step (item : list Node) (f : string) (fs : list string)
    (leaf : Item) :
  well_built item → has_slash f = false →
  descends_or_appends item f fs leaf.
Proof.
  intros Hwb Hf. unfold descends_or_appends. simpl.
  destruct (list_find (λ fi, node_name fi = f) item) as [[i fi]|] eqn:Hfind.
  - apply list_find_Some in Hfind as (Hi & Hname & Hfirst).
    destruct fi as [name sub|it]; simpl in Hname.
    + subst name. left. exists i, sub. split; [done|]. split; [|done].
      intros j fj Hj Hlt. by apply (Hfirst j fj).
    + exfalso. inversion Hwb as [? _ Hnodes]; subst.
      rewrite Forall_forall in Hnodes.
      assert (built_node (RequestItem it)) as Hit
        by (apply Hnodes; by eapply list_elem_of_lookup_2).
      inversion Hit; subst.
      by eapply has_slash_starts_with_slash.
  - apply list_find_None in Hfind. right. split; [|done].
    rewrite Forall_forall in Hfind. done.
Qed.

Lemma push_item_well_built (folders : list string) (leaf : Item)
    (item : list Node) :
  well_built item →
  Forall (λ f, has_slash f = false) folders →
  starts_with_slash (i_name leaf) = true →
  well_built (push_item folders leaf item).
Proof.
  intros Hwb Hfs Hleaf. revert item Hwb.
  induction Hfs as [|f fs Hf Hfs IH]; intros item Hwb.
  - simpl. inversion Hwb as [? Hnd Hnodes]; subst. constructor.
    + rewrite folder_names_app. simpl. by rewrite app_nil_r.
    + apply Forall_app. split; [done|]. apply Forall_singleton.
      by constructor.
  - destruct (push_item_step item f fs leaf Hwb Hf)
      as [(i & sub & Hi & _ & ->)|[Hnone ->]];
      inversion Hwb as [? Hnd Hnodes]; subst.
    + constructor.
      * by rewrite (folder_names_insert _ _ _ _ _ Hi).
      * apply Forall_insert; [done|]. constructor; [done|]. apply IH.
        rewrite Forall_forall in Hnodes.
        assert (built_node (FolderItem f sub)) as Hsub
          by (apply Hnodes; by eapply list_elem_of_lookup_2).
        by inversion Hsub.
    + constructor.
      * rewrite folder_names_app. simpl. apply NoDup_app. split; [done|].
        split; [|by apply NoDup_singleton].
        intros x Hx ->%list_elem_of_singleton. revert Hx.
        apply not_named_not_folder. by apply Forall_forall.
      * apply Forall_app. split; [done|]. apply Forall_singleton.
        constructor; [done|]. apply IH, well_built_nil.
Qed.

Lemma well_built_unique (item : list Node) :
  well_built item → unique_folders item.
Proof.
  revert item. fix IH 2. intros item [? Hnd Hnodes]. constructor; [done|].
  clear Hnd. induction Hnodes as [|fi item' Hfi _ IHs]; constructor; [|done].
  destruct Hfi as [i|name sub _ Hsub]; constructor. by apply IH.
Qed.

Lemma well_built_siblings (tree item : list Node) :
  well_built tree → siblings_in tree item → well_built item.
Proof.
  intros Htree. induction 1 as [|item name sub _ IH Hin]; [done|].
  inversion IH as [? _ Hnodes]; subst. rewrite Forall_forall in Hnodes.
  specialize (Hnodes _ Hin). by inversion Hnodes.
Qed.

Lemma build_from_well_built ui js endpoints options out tree :
  well_built out →
  CollectionSchema.build_from ui js out endpoints options = Ok tree →
  well_built tree.
Proof.
  revert out. induction endpoints as [|e es IH]; intros out Hout H; simpl in H.
  - by injection H as <-.
  - destruct (CollectionSchema.endpoint_item ui js e options)
      as [[folders leaf]|] eqn:He; [|done].
    simpl in H. apply IH in H; [done|].
    apply endpoint_item_names in He as (Hf & Hname & _).
    apply push_item_well_built; [done..|]. by rewrite Hname.
Qed.

Lemma addEndpoints_well_built ui auth endpoints item tree :
  well_built item →
  Index.addEndpoints ui auth endpoints item = Ok tree →
  well_built tree.
Proof.
  revert item. induction endpoints as [|e es IH]; intros item Hitem H;
    simpl in H.
  - by injection H as <-.
  - destruct (Index.endpoint_item ui auth e) as [[folders leaf]|] eqn:He;
      [|done].
    simpl in H. apply IH in H; [done|].
    apply _endpoint_item_names in He as (Hf & Hname & _).
    apply push_item_well_built; [done..|]. by rewrite Hname.
Qed.

Lemma built_well_built ui js endpoints tree :
  built ui js endpoints tree → well_built tree.
Proof.
  intros [[options H]|[auth H]].
  - by eapply build_from_well_built, H; apply well_built_nil.
  - by eapply addEndpoints_well_built, H; apply well_built_nil.
Qed.

(** Two insertions under the same pair of folders. *)
Lemma push_item_shared_pair (a b : string) (l1 l2 : Item) :
  push_item [a; b] l2 (push_item [a; b] l1 [])
  = [FolderItem a [FolderItem b [RequestItem l1; RequestItem l2]]].
Proof.
  simpl. rewrite !decide_True by done. simpl.
  by rewrite !decide_True by done.
Qed.

(** C5: on every sibling list of a tree built by a sequence of endpoint
    insertions, and on the empty list of a folder just created, the walk
    for a folder name looks the name up by equality,
    first match first, and either goes into that folder or appends exactly
    one new folder node; after all insertions no two sibling folder nodes
    share a name, at any level; two endpoints with the same two folders end
    up as two leaves under one shared pair of folders.  Both builders. *)
Theorem C5_folder_insertion (util_inspect JSON_stringify : JsonData → string) :
  (∀ endpoints tree item f fs leaf,
     built util_inspect JSON_stringify endpoints tree →
     siblings_in tree item ∨ item = [] → has_slash f = false →
     descends_or_appends item f fs leaf) ∧
  (∀ endpoints tree,
     built util_inspect JSON_stringify endpoints tree →
     unique_folders tree) ∧
  (∀ options e1 e2 a b l1 l2,
     CollectionSchema.endpoint_item util_inspect JSON_stringify e1 options
     = Ok ([a; b], l1) →
     CollectionSchema.endpoint_item util_inspect JSON_stringify e2 options
     = Ok ([a; b], l2) →
     CollectionSchema.buildItems util_inspect JSON_stringify [e1; e2] options
     = Ok [FolderItem a [FolderItem b [RequestItem l1; RequestItem l2]]]) ∧
  (∀ authorization e1 e2 a b l1 l2,
     Index.endpoint_item util_inspect authorization e1 = Ok ([a; b], l1) →
     Index.endpoint_item util_inspect authorization e2 = Ok ([a; b], l2) →
     Index.addEndpoints util_inspect authorization [e1; e2] []
     = Ok [FolderItem a [FolderItem b [RequestItem l1; RequestItem l2]]]).
Proof.
  split; [|split; [|split]].
  - intros endpoints tree item f fs leaf Hb [Hin| ->] Hf;
      (apply push_item_step; [|done]); [|apply well_built_nil].
    eapply well_built_siblings; [|done]. by eapply built_well_built.
  - intros endpoints tree Hb. by eapply well_built_unique, built_well_built.
  - intros options e1 e2 a b l1 l2 H1 H2.
    unfold CollectionSchema.buildItems. cbn [CollectionSchema.build_from].
    rewrite H1. cbn [mbind result_bind]. rewrite H2. cbn [mbind result_bind].
    by rewrite push_item_shared_pair.
  - intros auth e1 e2 a b l1 l2 H1 H2. cbn [Index.addEndpoints].
    rewrite H1. cbn [mbind result_bind]. rewrite H2. cbn [mbind result_bind].
    by rewrite push_item_shared_pair.
Qed.

Lemma C5_folder_insertion_witness :
  ∃ tree,
    CollectionSchema.buildItems inspect_one_line json_one_line
      [get_orders; get_profile] no_options = Ok tree ∧
    unique_folders tree.
Proof.
  eexists. split; [vm_compute; reflexivity|].
  apply (proj1 (proj2 (C5_folder_insertion inspect_one_line json_one_line))
           [get_orders; get_profile]).
  left. exists no_options. vm_compute. reflexivity.
Defined.

(** ** Request headers *)

(** [buildItems] attaches the header exactly to a raw body. *)
Lemma buildItems_header ui js e options folders leaf :
  CollectionSchema.endpoint_item ui js e options = Ok (folders, leaf) →
  (r_header (i_request leaf) = [content_type_json] ↔
   ∃ raw, r_body (i_request leaf) = Some (RawBody raw)) ∧
  ((∀ raw, r_body (i_request leaf) ≠ Some (RawBody raw)) →
   r_header (i_request leaf) = []).
Proof.
  unfold CollectionSchema.endpoint_item. intros H.
  destruct (CollectionSchema.parseBody _ _ _ _ _) as [bodyData|]; [|done].
  cbn in H. injection H as <- <-. cbn.
  destruct (CollectionSchema.body_envelope _ _) as [[raw|fields]|]; cbn.
  - split; [split; [by eexists|done]|]. intros H. by destruct (H raw).
  - split; [|done]. split; [done|]. by intros [raw ?].
  - split; [|done]. split; [done|]. by intros [raw ?].
Qed.

(** C4: the class writes the [Content-Type] header into every request item:
    a [GET] endpoint gets it with no body at all and a multipart [POST] gets
    it next to its field list, where [buildItems] leaves the header list
    empty. *)
Theorem C4_header_always_attached :
  (∃ leaf,
     Index.addEndpoints inspect_one_line None [get_users] []
     = Ok [FolderItem "users" [RequestItem leaf]] ∧
     r_body (i_request leaf) = None ∧
     r_header (i_request leaf) = [content_type_json]) ∧
  (∃ leaf fields,
     Index.addEndpoints inspect_one_line None [post_upload] []
     = Ok [FolderItem "upload" [RequestItem leaf]] ∧
     r_body (i_request leaf) = Some (FormdataBody fields) ∧
     r_header (i_request leaf) = [content_type_json]) ∧
  (∀ ui authorization e folders leaf,
     Index.endpoint_item ui authorization e = Ok (folders, leaf) →
     r_header (i_request leaf) = [content_type_json]).
Proof.
  split; [|split].
  - eexists. split; [vm_compute; reflexivity|]. done.
  - do 2 eexists. split; [vm_compute; reflexivity|]. done.
  - intros ui auth e folders leaf H. unfold Index.endpoint_item in H.
    destruct (Index._parseBody _ _ _) as [bodyData|]; [|done].
    cbn in H. by injection H as <- <-.
Qed.

(** ** Query parameters *)


(** The value [parseQueryRule] gives a rule, case by case. *)
Lemma parseQueryRule_cases (rule : PrimitiveRule) :
  query_value_spec rule (parseQueryRule (Some rule)).
Proof.
  unfold query_value_spec, parseQueryRule.
  split; [by intros s ->|]. split; [by intros n ->|].
  split; [by intros b ->|]. intros Hd.
  assert (match rule_default rule with
          | JStr _ | JNum _ | JBool _ => False
          | _ => True
          end) as Hd' by (destruct (rule_default rule); done).
  split; [|split].
  - intros v vs Hv.
    destruct rule as [c [[|s l]|]|c i [[|n l]|]| | | |], (rule_default _);
      simplify_eq/=; done.
  - intros Hv.
    destruct rule as [c [[|s l]|]|c i [[|n l]|]| | | |], (rule_default _);
      simplify_eq/=; done.
  - intros Hv. unfold type_is.
    destruct rule as [c [l|]|c i [l|]|c|c s n|c s n len|t c],
      (rule_default _); simplify_eq/=; try done;
      repeat split; intros; repeat case_bool_decide; simplify_eq/=;
      try done.
Qed.


(** ** The annotated serializer *)

Lemma C9_empty_containers_span_two_lines :
  (Index._parseRuleToJsonc inspect_one_line empty_array_rule
   ≫= λ d, Index._stringifyJsonc d true 0)
  = Ok ("[" +:+ String LF ("] // { type: 'array' }" +:+ String LF EmptyString)) ∧
  (Index._parseRuleToJsonc inspect_one_line empty_array_rule
   ≫= λ d, Index._stringifyJsonc d true 0)
  ≠ Ok ("[] // { type: 'array' }" +:+ String LF EmptyString) ∧
  (Index._parseRuleToJsonc inspect_one_line empty_object_rule
   ≫= λ d, Index._stringifyJsonc d false 1)
  = Ok ("{" +:+ String LF (String TAB ("}, // { type: 'object' }"
        +:+ String LF EmptyString))) ∧
  (Index._parseRuleToJsonc inspect_one_line empty_object_rule
   ≫= λ d, Index._stringifyJsonc d false 1)
  ≠ Ok ("{}, // { type: 'object' }" +:+ String LF EmptyString).
Proof.
  repeat split; try (vm_compute; reflexivity); vm_compute; discriminate.
Qed.

(** C9 (amended): an empty sequence or mapping is rendered as the opening
    bracket, a line feed, one tab per enclosing level and the closing
    bracket, followed by the comma and comment suffix; the text between the
    brackets grows with the indentation level. *)
Theorem C9_empty_containers (rest : list JsonData) (last : bool)
    (indent : nat) :
  Index._stringifyJsonc (JArr (JArr [] :: rest)) last indent
  = Ok ("[" +:+ String LF (Index.tabs indent +:+ "]"
        +:+ Index.comment_of last (first id rest))) ∧
  Index._stringifyJsonc (JArr (JObj [] :: rest)) last indent
  = Ok ("{" +:+ String LF (Index.tabs indent +:+ "}"
        +:+ Index.comment_of last (first id rest))).
Proof.
  unfold Index._stringifyJsonc, Index.stringify_with.
  cbn [Index.switch_value mbind result_bind Index.concat_strings foldr].
  replace (S indent - 1)%nat with indent by lia. done.
Qed.

(** ** Texts *)

Lemma app_cons (c : ascii) (s t : string) :
  String c s +:+ t = String c (s +:+ t).
Proof. done. Qed.

Lemma app_empty_l (s : string) : EmptyString +:+ s = s.
Proof. done. Qed.

Lemma app_empty_r (s : string) : s +:+ EmptyString = s.
Proof. induction s as [|c s IH]; [done|]. by rewrite app_cons, IH. Qed.

Lemma app_assoc_string (a b c : string) : (a +:+ b) +:+ c = a +:+ (b +:+ c).
Proof. induction a as [|x a IH]; [done|]. by rewrite !app_cons, IH. Qed.

Lemma length_app_string (a b : string) :
  String.length (a +:+ b) = (String.length a + String.length b)%nat.
Proof. induction a as [|x a IH]; [done|]. rewrite app_cons. simpl. lia. Qed.

(** Texts in right-nested form, literal prefixes unfolded. *)
Ltac norm_app :=
  repeat first
    [rewrite app_assoc_string | rewrite app_cons | rewrite app_empty_l].
Ltac norm_app_in H :=
  repeat first
    [rewrite app_assoc_string in H | rewrite app_cons in H
    | rewrite app_empty_l in H].

(** ** Skipping white space and comments *)

Lemma skippable_lf : skippable (String LF EmptyString).
Proof. by intros s. Qed.

Lemma skippable_tabs (n : nat) : skippable (Index.tabs n).
Proof.
  induction n as [|n IH]; intros s; [done|].
  simpl. rewrite app_cons. apply IH.
Qed.

Lemma skip_comment (d s : string) :
  no_lf d = true → skip_go true (d +:+ String LF s) = skip s.
Proof.
  induction d as [|c d IH]; intros H; [done|].
  simpl in H. apply andb_prop in H as [Hc Hd].
  rewrite app_cons. simpl. apply negb_true_iff in Hc. rewrite Hc. by apply IH.
Qed.

Lemma comment_of_text (last : bool) (data1 : JsonData) :
  Index.comment_of last data1
  = (if last then EmptyString else ",") +:+ comment_text data1.
Proof. done. Qed.

Lemma skippable_comment (data1 : JsonData) :
  comment_ok data1 = true → skippable (comment_text data1).
Proof.
  intros Hok s. unfold comment_text.
  destruct (truthy data1) eqn:Ht; [|done].
  destruct data1; try done. simpl in Hok.
  cbn [js_toString]. rewrite !app_assoc_string.
  exact (skip_comment _ s Hok).
Qed.

Lemma skip_opens_value (c : ascii) (s : string) :
  opens_value c = true → skip (String c s) = String c s.
Proof.
  unfold opens_value. intros H. repeat (apply andb_prop in H as [H ?]).
  apply negb_true_iff in H. unfold skip. simpl. rewrite H.
  destruct (Ascii.eqb c SLASH); done.
Qed.

(** ** Reading strings and numbers *)

Lemma parse_chars_plain (s rest : string) :
  plain_text s = true →
  parse_chars (s +:+ String QUOTE rest) = Some (s, rest).
Proof.
  induction s as [|c s IH]; intros H; [done|].
  simpl in H. apply andb_prop in H as [Hc Hs].
  unfold plain_char in Hc. repeat (apply andb_prop in Hc as [Hc ?]).
  rewrite app_cons. simpl.
  destruct (Ascii.eqb c QUOTE); [done|].
  destruct (Ascii.eqb c BACKSLASH); [done|].
  destruct (nat_of_ascii c <? 32)%nat; [done|].
  by rewrite IH.
Qed.

Lemma pretty_N_go_app (x : N) (s t : string) :
  pretty_N_go x s +:+ t = pretty_N_go x (s +:+ t).
Proof.
  revert s. induction (N.lt_wf_0 x) as [x _ IH]; intros s.
  destruct (decide (x = 0)%N) as [->|]; [by rewrite !pretty_N_go_0|].
  rewrite (pretty_N_go_step x s), (pretty_N_go_step x (s +:+ t)) by lia.
  rewrite IH; [reflexivity|]. apply N.div_lt; lia.
Qed.

Lemma digit_value_pretty (d : N) :
  (d < 10)%N →
  is_digit (pretty_N_char d) = true ∧ digit_value (pretty_N_char d) = d ∧
  (d ≠ 0%N → Ascii.eqb (pretty_N_char d) "0" = false).
Proof.
  intros H.
  assert (d = 0 ∨ d = 1 ∨ d = 2 ∨ d = 3 ∨ d = 4 ∨ d = 5 ∨ d = 6 ∨ d = 7
          ∨ d = 8 ∨ d = 9)%N as Hd by lia.
  destruct_or!; subst; done.
Qed.

(** The digits [pretty] writes for a positive number start with a digit
    other than [0] and read back as the number. *)
Lemma read_digits_pretty (x : N) (s : string) :
  (0 < x)%N →
  ∃ c r, pretty_N_go x s = String c r ∧ is_digit c = true ∧
         Ascii.eqb c "0" = false ∧
         read_digits (digit_value c) r = read_digits x s.
Proof.
  revert s. induction (N.lt_wf_0 x) as [x _ IH]; intros s Hx.
  rewrite pretty_N_go_step by done.
  destruct (digit_value_pretty (x `mod` 10)) as (Hd & Hv & Hz);
    [by apply N.mod_lt|].
  assert (read_digits (x `div` 10)
            (String (pretty_N_char (x `mod` 10)) s) = read_digits x s) as Hr.
  { simpl. rewrite Hd, Hv. f_equal.
    rewrite N.mul_comm. symmetry. by apply N.div_mod. }
  destruct (decide (x `div` 10 = 0)%N) as [H0|H0].
  - rewrite H0, pretty_N_go_0. eexists _, _. split; [done|].
    split; [done|]. split.
    + apply Hz. intros Hm.
      pose proof (N.div_mod x 10 ltac:(done)) as Hdm.
      rewrite H0, Hm in Hdm. lia.
    + rewrite Hv. rewrite <-Hr, H0. simpl. by rewrite Hd, Hv.
  - destruct (IH (x `div` 10)%N) with
      (s := String (pretty_N_char (x `mod` 10)) s)
      as (c & r & -> & Hc & Hc0 & Hread);
      [apply N.div_lt; lia|by apply N.neq_0_lt_0|].
    exists c, r. by rewrite Hread, Hr.
Qed.

Lemma delimited_comment_of last data1 rest :
  delimited (Index.comment_of last data1 +:+ rest).
Proof.
  unfold Index.comment_of.
  destruct last, (truthy data1); eexists _, _; (split; [reflexivity|]); auto.
Qed.

Lemma parse_number_pretty (z : Z) (rest : string) :
  delimited rest →
  parse_number (pretty z +:+ rest) = Some (z, rest).
Proof.
  intros (c & r & -> & Hc).
  assert (is_digit c = false ∧ integer_ends (String c r) = true) as [Hnd He]
    by (destruct Hc as [->|[->| ->]]; done).
  assert (∀ x, (0 < x)%N →
            parse_natural (pretty_N_go x EmptyString +:+ String c r)
            = Some (x, String c r)) as Hnat.
  { intros x Hx. rewrite pretty_N_go_app, app_empty_l.
    destruct (read_digits_pretty x (String c r) Hx)
      as (d & t & -> & Hd & Hd0 & Hread).
    unfold parse_natural. rewrite Hd0, Hd, Hread. simpl. by rewrite Hnd. }
  assert (∀ x, (0 < x)%N →
            parse_number (pretty_N_go x EmptyString +:+ String c r)
            = Some (Z.of_N x, String c r)) as Hpos.
  { intros x Hx. specialize (Hnat x Hx).
    destruct (read_digits_pretty x EmptyString Hx)
      as (d & t & Hp & Hd & Hd0 & _).
    rewrite Hp, app_cons in Hnat |- *. unfold parse_number.
    assert (Ascii.eqb d "-" = false) as ->.
    { destruct (Ascii.eqb_spec d "-") as [->|]; done. }
    rewrite Hnat. cbn [fmap option_fmap option_map prod_map mbind option_bind].
    cbn [fst snd id]. by rewrite He. }
  destruct z as [|p|p].
  - unfold parse_number, parse_natural.
    change (pretty 0 +:+ String c r) with (String "0" (String c r)).
    cbn [Ascii.eqb Bool.eqb]. rewrite Hnd.
    cbn [fmap option_fmap option_map prod_map mbind option_bind].
    cbn [fst snd id]. by rewrite He.
  - unfold pretty, pretty_Z, pretty, pretty_positive, pretty, pretty_N.
    rewrite decide_False by done. by apply Hpos.
  - unfold pretty, pretty_Z, pretty, pretty_positive, pretty, pretty_N.
    rewrite decide_False by done. rewrite !app_cons, app_empty_l.
    unfold parse_number. cbn [Ascii.eqb Bool.eqb].
    rewrite (Hnat (N.pos p) eq_refl).
    cbn [fmap option_fmap option_map prod_map mbind option_bind].
    cbn [fst snd id]. by rewrite He.
Qed.

(** ** The serializer, unfolded *)

Lemma switch_value_array (elems : list JsonData) (comment : string)
    (indent : nat) :
  Index.switch_value (JArr elems) comment indent =
  parts ← mapM_from
             (λ i v,
              s ← Index._stringifyJsonc v
                    (bool_decide (Z.of_nat (length elems) - 1 = Z.of_nat i))
                    indent;
              Ok (Index.tabs indent +:+ s)) 0 elems;
  Ok ("[" +:+ String LF (Index.concat_strings parts
      +:+ Index.tabs (indent - 1) +:+ "]" +:+ comment)).
Proof.
  cbn [Index.switch_value]. f_equal. unfold Index._stringifyJsonc.
  generalize (Z.of_nat (length elems) - 1). generalize 0%nat.
  induction elems as [|v vs IH]; intros i lastIndex; [reflexivity|].
  cbn [mapM_from].
  destruct (Index.stringify_with _ v _ _); [|reflexivity].
  cbn [mbind result_bind]. rewrite IH. reflexivity.
Qed.

Lemma switch_value_object (entries : list (string * JsonData))
    (comment : string) (indent : nat) :
  Index.switch_value (JObj entries) comment indent =
  parts ← mapM_from
             (λ i kv,
              s ← Index._stringifyJsonc kv.2
                    (bool_decide (Z.of_nat (length entries) - 1 = Z.of_nat i))
                    indent;
              Ok (Index.tabs indent
                  +:+ String QUOTE (kv.1 +:+ String QUOTE ": ") +:+ s))
             0 entries;
  Ok ("{" +:+ String LF (Index.concat_strings parts
      +:+ Index.tabs (indent - 1) +:+ "}" +:+ comment)).
Proof.
  cbn [Index.switch_value]. f_equal. unfold Index._stringifyJsonc.
  generalize (Z.of_nat (length entries) - 1). generalize 0%nat.
  induction entries as [|[k v] kvs IH]; intros i lastIndex; [reflexivity|].
  cbn [mapM_from snd fst].
  destruct (Index.stringify_with _ v _ _); [|reflexivity].
  cbn [mbind result_bind]. rewrite IH. reflexivity.
Qed.

Lemma _stringifyJsonc_pair (value : JsonData) (rest : list JsonData)
    (last : bool) (indent : nat) :
  Index._stringifyJsonc (JArr (value :: rest)) last indent
  = Index.switch_value value (Index.comment_of last (first id rest))
      (S indent).
Proof. done. Qed.

(** ** Scalars read back *)

Lemma pretty_Z_opens (z : Z) :
  ∃ c r, pretty z = String c r ∧ (is_digit c = true ∨ c = "-"%char).
Proof.
  destruct z as [|p|p].
  - by exists "0"%char, EmptyString; split; [|left].
  - unfold pretty, pretty_Z, pretty, pretty_positive, pretty, pretty_N.
    rewrite decide_False by done.
    destruct (read_digits_pretty (N.pos p) EmptyString eq_refl)
      as (c & r & -> & Hc & _). exists c, r. auto.
  - by eexists "-"%char, _; split; [|right].
Qed.

Lemma scalar_reads_back (value : JsonData) :
  match value with
  | JNull | JBool _ | JNum (Int _) => True
  | JStr s => plain_text s = true
  | _ => False
  end →
  value_roundtrips value.
Proof.
  intros Hv comment indent.
  destruct value as [| |b|[z| |]|s| | |]; try done.
  - exists "null". split; [done|]. split; [by eexists _, _|].
    intros [|f] rest Hf _; [simpl in Hf; lia|done].
  - exists (if b then "true" else "false"). split; [done|].
    split; [destruct b; by eexists _, _|].
    intros [|f] rest Hf _; [destruct b; simpl in Hf; lia|by destruct b].
  - exists (pretty z). split; [done|].
    destruct (pretty_Z_opens z) as (c & r & Hp & Hc).
    split.
    { exists c, r. split; [done|].
      destruct Hc as [Hc| ->]; [|done].
      unfold is_digit in Hc. unfold opens_value, is_ws.
      destruct c as [[] [] [] [] [] [] [] []]; done. }
    intros [|f] rest Hf Hrest; [rewrite Hp in Hf; simpl in Hf; lia|].
    pose proof (parse_number_pretty z rest Hrest) as Hnum.
    rewrite Hp in Hnum |- *. rewrite app_cons in Hnum |- *.
    cbn [parse_value].
    assert (skip (String c (r +:+ rest)) = String c (r +:+ rest)) as ->.
    { apply skip_opens_value.
      destruct Hc as [Hc| ->]; [|done].
      unfold is_digit in Hc. unfold opens_value, is_ws.
      destruct c as [[] [] [] [] [] [] [] []]; done. }
    assert (Ascii.eqb c QUOTE = false ∧ Ascii.eqb c "[" = false ∧
            Ascii.eqb c "{" = false ∧ Ascii.eqb c "n" = false ∧
            Ascii.eqb c "t" = false ∧ Ascii.eqb c "f" = false)
      as (-> & -> & -> & -> & -> & ->).
    { destruct Hc as [Hc| ->]; [|done].
      unfold is_digit in Hc.
      destruct c as [[] [] [] [] [] [] [] []]; done. }
    by rewrite Hnum.
  - exists (String QUOTE (s +:+ String QUOTE EmptyString)). split.
    { cbn [Index.switch_value Index.scalar_text].
      by rewrite app_cons, app_assoc_string, app_cons, app_empty_l. }
    split; [by eexists _, _|].
    intros [|f] rest Hf _; [simpl in Hf; lia|].
    rewrite app_cons, app_assoc_string, app_cons, app_empty_l.
    cbn [parse_value]. rewrite skip_opens_value by done.
    change (Ascii.eqb QUOTE QUOTE) with true. cbn match.
    by rewrite parse_chars_plain.
Qed.

(** ** Sequences and mappings read back *)

Lemma plain_comment_ok (d : JsonData) :
  plain d → comment_ok (description_of d) = true.
Proof. by intros [value rest Hok _]. Qed.

Lemma concat_strings_cons (x : string) (l : list string) :
  Index.concat_strings (x :: l) = x +:+ Index.concat_strings l.
Proof. done. Qed.

Lemma skip_close (c : ascii) (rest : string) :
  c = "]"%char ∨ c = "}"%char ∨ c = ","%char ∨ c = ":"%char →
  skip (String c rest) = String c rest.
Proof. intros [->|[->|[->| ->]]]; done. Qed.

Lemma comment_of_length (last : bool) (data1 : JsonData) :
  (1 ≤ String.length (Index.comment_of last data1))%nat.
Proof.
  unfold Index.comment_of. rewrite !length_app_string.
  destruct (truthy data1); simpl; lia.
Qed.

Lemma items_read_back (l : list JsonData) (n e : nat) (lastIndex : Z) :
  Forall (λ d, plain d ∧ roundtrips d) l →
  ∀ i, lastIndex = Z.of_nat i + Z.of_nat (length l) - 1 →
  ∃ parts,
    mapM_from
      (λ i v,
       s ← Index._stringifyJsonc v (bool_decide (lastIndex = Z.of_nat i)) n;
       Ok (Index.tabs n +:+ s)) i l = Ok parts ∧
    ∀ fuel pre rest need, skippable pre → (need = true → l ≠ []) →
      (String.length (Index.concat_strings parts) < fuel)%nat →
      parse_items fuel need
        (pre +:+ Index.concat_strings parts +:+ Index.tabs e +:+ "]" +:+ rest)
      = Some (map strip l, rest).
Proof.
  intros Hall. induction Hall as [|d l [Hplain Hrt] Hall IH]; intros i Hlast.
  - exists []. split; [done|].
    intros [|f] pre rest need Hpre Hneed Hfuel; [simpl in Hfuel; lia|].
    cbn [parse_items]. rewrite Hpre.
    change (Index.concat_strings []) with EmptyString.
    rewrite app_empty_l, (skippable_tabs e), app_cons, app_empty_l.
    rewrite skip_close by auto. cbn.
    destruct need; [by destruct Hneed|done].
  - destruct (Hrt (bool_decide (lastIndex = Z.of_nat i)) n)
      as (vt & Hs & (c & r & -> & Hc) & Hread).
    destruct (IH (S i)) as (parts' & Hparts' & Hparse').
    { simpl in Hlast. lia. }
    eexists. split.
    { cbn [mapM_from]. rewrite Hs. cbn [mbind result_bind].
      rewrite Hparts'. reflexivity. }
    intros [|f] pre rest need Hpre _ Hfuel; [simpl in Hfuel; lia|].
    rewrite concat_strings_cons in Hfuel |- *.
    rewrite !length_app_string in Hfuel. simpl in Hfuel.
    pose proof (comment_of_length (bool_decide (lastIndex = Z.of_nat i))
                  (description_of d)) as Hlen.
    cbn [parse_items]. rewrite !app_assoc_string.
    rewrite Hpre, (skippable_tabs n), app_cons.
    rewrite skip_opens_value by done.
    assert (Ascii.eqb c "]" = false) as ->.
    { unfold opens_value in Hc. repeat (apply andb_prop in Hc as [Hc ?]).
      destruct (Ascii.eqb c "]"); done. }
    rewrite <-app_cons, Hread; [|simpl; lia|apply delimited_comment_of].
    cbn [mbind option_bind]. rewrite comment_of_text.
    pose proof (skippable_comment _ (plain_comment_ok d Hplain)) as Hcmt.
    destruct (bool_decide (lastIndex = Z.of_nat i)) eqn:Hl.
    + apply bool_decide_eq_true in Hl.
      assert (l = []) as -> by (destruct l; [done|simpl in Hlast; lia]).
      injection Hparts' as <-.
      rewrite app_empty_l, Hcmt.
      change (Index.concat_strings []) with EmptyString.
      rewrite app_empty_l, (skippable_tabs e), app_cons, app_empty_l.
      rewrite skip_close by auto. done.
    + apply bool_decide_eq_false in Hl.
      assert (l ≠ []) as Hne by (intros ->; simpl in Hlast; lia).
      rewrite !app_assoc_string, app_cons, app_empty_l.
      rewrite skip_close by auto. cbn [Ascii.eqb Bool.eqb].
      cbn match. rewrite Hparse'; [done|done|done|lia].
Qed.

Lemma parse_value_space (fuel : nat) (s : string) :
  parse_value fuel (String SP s) = parse_value fuel s.
Proof. by destruct fuel. Qed.

Lemma members_read_back (l : list (string * JsonData)) (n e : nat)
    (lastIndex : Z) :
  Forall (λ kv, plain_text kv.1 = true ∧ plain kv.2 ∧ roundtrips kv.2) l →
  ∀ i, lastIndex = Z.of_nat i + Z.of_nat (length l) - 1 →
  ∃ parts,
    mapM_from
      (λ i kv,
       s ← Index._stringifyJsonc kv.2
             (bool_decide (lastIndex = Z.of_nat i)) n;
       Ok (Index.tabs n +:+ String QUOTE (kv.1 +:+ String QUOTE ": ") +:+ s))
      i l = Ok parts ∧
    ∀ fuel pre rest need, skippable pre → (need = true → l ≠ []) →
      (String.length (Index.concat_strings parts) < fuel)%nat →
      parse_members fuel need
        (pre +:+ Index.concat_strings parts +:+ Index.tabs e +:+ "}" +:+ rest)
      = Some (map (λ kv, (kv.1, strip kv.2)) l, rest).
Proof.
  intros Hall.
  induction Hall as [|[k d] l (Hk & Hplain & Hrt) Hall IH]; intros i Hlast.
  - exists []. split; [done|].
    intros [|f] pre rest need Hpre Hneed Hfuel; [simpl in Hfuel; lia|].
    cbn [parse_members]. rewrite Hpre.
    change (Index.concat_strings []) with EmptyString.
    rewrite app_empty_l, (skippable_tabs e), app_cons, app_empty_l.
    rewrite skip_close by auto. cbn.
    destruct need; [by destruct Hneed|done].
  - cbn [fst snd] in Hk, Hplain, Hrt.
    destruct (Hrt (bool_decide (lastIndex = Z.of_nat i)) n)
      as (vt & Hs & (c & r & -> & Hc) & Hread).
    destruct (IH (S i)) as (parts' & Hparts' & Hparse').
    { simpl in Hlast. lia. }
    eexists. split.
    { cbn [mapM_from fst snd]. rewrite Hs. cbn [mbind result_bind].
      rewrite Hparts'. reflexivity. }
    intros [|f] pre rest need Hpre _ Hfuel; [simpl in Hfuel; lia|].
    rewrite concat_strings_cons in Hfuel |- *.
    rewrite !length_app_string in Hfuel. simpl in Hfuel.
    rewrite !length_app_string in Hfuel. simpl in Hfuel.
    pose proof (comment_of_length (bool_decide (lastIndex = Z.of_nat i))
                  (description_of d)) as Hlen.
    cbn [parse_members]. rewrite !app_assoc_string.
    rewrite Hpre, (skippable_tabs n), app_cons.
    rewrite skip_opens_value by done.
    change (Ascii.eqb QUOTE "}") with false.
    change (Ascii.eqb QUOTE QUOTE) with true. cbn match.
    rewrite !app_assoc_string, app_cons.
    rewrite parse_chars_plain by done. cbn [mbind option_bind].
    rewrite !app_cons, app_empty_l.
    rewrite skip_close by auto. cbn [Ascii.eqb Bool.eqb]. cbn match.
    rewrite parse_value_space, <-app_cons.
    rewrite Hread; [|simpl; lia|apply delimited_comment_of].
    cbn [mbind option_bind]. rewrite comment_of_text.
    pose proof (skippable_comment _ (plain_comment_ok d Hplain)) as Hcmt.
    destruct (bool_decide (lastIndex = Z.of_nat i)) eqn:Hl.
    + apply bool_decide_eq_true in Hl.
      assert (l = []) as -> by (destruct l; [done|simpl in Hlast; lia]).
      injection Hparts' as <-.
      rewrite app_empty_l, Hcmt.
      change (Index.concat_strings []) with EmptyString.
      rewrite app_empty_l, (skippable_tabs e), ?app_cons, ?app_empty_l.
      rewrite skip_close by auto. done.
    + apply bool_decide_eq_false in Hl.
      assert (l ≠ []) as Hne by (intros ->; simpl in Hlast; lia).
      rewrite !app_assoc_string, app_cons, app_empty_l.
      change (String "}" (EmptyString +:+ rest)) with ("}" +:+ rest).
      rewrite skip_close by auto. cbn [Ascii.eqb Bool.eqb].
      cbn match. rewrite Hparse'; [done|done|done|lia].
Qed.

(** ** Plain pairs survive the round trip *)

Lemma plain_roundtrips_both (data : JsonData) :
  (plain data → roundtrips data) ∧ (plain_value data → value_roundtrips data).
Proof.
  induction data as [| |b|n|s|source|elems IH|props IH] using json_ind.
  - split; inversion 1.
  - split; [inversion 1|]. intros _. by apply scalar_reads_back.
  - split; [inversion 1|]. intros _. by apply scalar_reads_back.
  - split; [inversion 1|]. inversion 1; subst. by apply scalar_reads_back.
  - split; [inversion 1|]. inversion 1; subst. by apply scalar_reads_back.
  - split; inversion 1.
  - split.
    + inversion 1 as [value rest Hok Hvalue]; subst.
      apply Forall_cons in IH as [[_ IHv] _].
      intros last indent.
      destruct (IHv Hvalue (Index.comment_of last (first id rest)) (S indent))
        as (vt & Hs & Hrb).
      exists vt. split; [|exact Hrb]. by rewrite _stringifyJsonc_pair.
    + inversion 1 as [| | | |? Hplain|]; subst.
      assert (Forall (λ d, plain d ∧ roundtrips d) elems) as Hall.
      { rewrite Forall_forall in IH, Hplain |- *. intros d Hd.
        split; [by apply Hplain|]. by apply IH, Hplain. }
      intros comment indent.
      destruct (items_read_back elems indent (indent - 1)
                  (Z.of_nat (length elems) - 1) Hall 0%nat)
        as (parts & Hparts & Hparse); [lia|].
      exists ("[" +:+ String LF (Index.concat_strings parts
              +:+ Index.tabs (indent - 1) +:+ "]")).
      split; [|split].
      * rewrite switch_value_array, Hparts. cbn [mbind result_bind].
        by norm_app.
      * by eexists _, _.
      * intros [|f] rest Hf Hrest; [simpl in Hf; lia|].
        norm_app. norm_app_in Hf.
        simpl in Hf. rewrite !length_app_string in Hf.
        cbn [parse_value]. rewrite skip_opens_value by done.
        change (Ascii.eqb "[" QUOTE) with false.
        cbn [Ascii.eqb Bool.eqb]. cbn match.
        change (String "]" rest) with ("]" +:+ rest).
        rewrite <-(app_empty_l (Index.concat_strings parts +:+ _)).
        rewrite <-app_cons.
        rewrite (Hparse f (String LF EmptyString) rest false skippable_lf);
          [done|done|lia].
  - split; [inversion 1|].
    inversion 1 as [| | | | |? Hplain]; subst.
    assert (Forall (λ kv, plain_text kv.1 = true ∧ plain kv.2
                          ∧ roundtrips kv.2) props) as Hall.
    { rewrite Forall_forall in IH, Hplain |- *. intros kv Hkv.
      destruct (Hplain kv Hkv) as [Hk Hp].
      split; [done|]. split; [done|]. by apply IH. }
    intros comment indent.
    destruct (members_read_back props indent (indent - 1)
                (Z.of_nat (length props) - 1) Hall 0%nat)
      as (parts & Hparts & Hparse); [lia|].
    exists ("{" +:+ String LF (Index.concat_strings parts
            +:+ Index.tabs (indent - 1) +:+ "}")).
    split; [|split].
    + rewrite switch_value_object, Hparts. cbn [mbind result_bind].
      by norm_app.
    + by eexists _, _.
    + intros [|f] rest Hf Hrest; [simpl in Hf; lia|].
      norm_app. norm_app_in Hf.
      simpl in Hf. rewrite !length_app_string in Hf.
      cbn [parse_value]. rewrite skip_opens_value by done.
      change (Ascii.eqb "{" QUOTE) with false.
      cbn [Ascii.eqb Bool.eqb]. cbn match.
      change (String "}" rest) with ("}" +:+ rest).
      rewrite <-(app_empty_l (Index.concat_strings parts +:+ _)).
      rewrite <-app_cons.
      rewrite (Hparse f (String LF EmptyString) rest false skippable_lf);
        [done|done|lia].
Qed.

Lemma plain_roundtrips (data : JsonData) : plain data → roundtrips data.
Proof. apply plain_roundtrips_both. Qed.

(** The reader reads the whole text of a plain pair back as its value. *)
Lemma plain_parse_jsonc (data : JsonData) :
  plain data →
  ∃ text, Index._stringifyJsonc data true 0 = Ok text ∧
          parse_jsonc text = Some (strip data).
Proof.
  intros Hplain.
  destruct (plain_roundtrips data Hplain true 0%nat)
    as (vt & Hs & _ & Hread).
  eexists. split; [exact Hs|]. unfold parse_jsonc.
  rewrite <-(app_empty_r (Index.comment_of true (description_of data))) at 2.
  rewrite Hread.
  - cbn [mbind option_bind]. rewrite comment_of_text, app_empty_l.
    rewrite (skippable_comment _ (plain_comment_ok data Hplain)). done.
  - rewrite length_app_string. lia.
  - apply delimited_comment_of.
Qed.

(** ** Descriptions stay on one line *)

Lemma no_lf_collapse_go (in_nl in_sp : bool) (s : string) :
  no_lf (collapse_go in_nl in_sp s) = true.
Proof.
  revert in_nl in_sp. induction s as [|c s IH]; intros in_nl in_sp; [done|].
  simpl. destruct (Ascii.eqb c LF) eqn:Hc.
  - destruct in_nl; simpl; by rewrite ?IH.
  - destruct (Ascii.eqb c SP && (in_nl || in_sp)); [done|].
    simpl. by rewrite Hc, IH.
Qed.

Lemma no_lf_trim_start (s : string) :
  no_lf s = true → no_lf (trim_start s) = true.
Proof.
  induction s as [|c s IH]; [done|]. simpl. intros H.
  destruct (is_js_space c); [|done].
  apply andb_prop in H as [_ H]. by apply IH.
Qed.

Lemma no_lf_trim_end (s : string) :
  no_lf s = true → no_lf (trim_end s) = true.
Proof.
  induction s as [|c s IH]; [done|]. simpl. intros H.
  apply andb_prop in H as [Hc H]. specialize (IH H).
  destruct (trim_end s) as [|c' t].
  - destruct (is_js_space c); [done|]. simpl. by rewrite Hc.
  - simpl in *. by rewrite Hc, IH.
Qed.

Lemma _inspect_no_lf ui (object : JsonData) (s : string) :
  Index._inspect ui object = Some s → no_lf s = true.
Proof.
  unfold Index._inspect. case_match; [done|]. intros [= <-].
  apply no_lf_trim_end, no_lf_trim_start, no_lf_collapse_go.
Qed.

Lemma _parseDescription_comment_ok ui (r : ValidationRule) :
  comment_ok (from_option JStr JUndefined (Index._parseDescription ui r))
  = true.
Proof.
  destruct (Index._parseDescription ui r) as [s|] eqn:Hd; [|done].
  simpl. unfold Index._parseDescription in Hd.
  destruct r as [d|ds].
  - case_match; by eapply _inspect_no_lf.
  - case_match; [done|]. by eapply _inspect_no_lf.
Qed.

(** ** Compiled pairs of serializable rules are plain *)

Lemma jsonc_value_object ui c s n :
  Index.jsonc_value ui (ObjectRule c (Some s) n) =
  if usable_default (c_default c) then Ok (c_default c)
  else JObj <$> mapM (λ '(key, rule),
                      v ← Index._parseRuleToJsonc ui rule; Ok (key, v)) s.
Proof.
  cbn [Index.jsonc_value]. unfold rule_default. cbn [rule_common].
  destruct (usable_default (c_default c)); [done|]. f_equal.
  induction s as [|[k r] s IH]; [done|]. cbn [mapM].
  destruct (Index._parseRuleToJsonc ui r); [|done].
  cbn [mbind result_bind]. rewrite IH. by destruct (mapM _ s).
Qed.

Lemma mapM_Forall {A B} (f : A → result B) (R : B → Prop) (l : list A) :
  Forall (λ x, ∃ y, f x = Ok y ∧ R y) l →
  ∃ ys, mapM f l = Ok ys ∧ Forall R ys.
Proof.
  induction 1 as [|x l (y & Hy & HR) _ (ys & Hys & HRs)]; [by exists []|].
  exists (y :: ys). cbn [mapM]. rewrite Hy. cbn [mbind result_bind].
  rewrite Hys. split; [done|]. by constructor.
Qed.

Lemma plain_default_value (d : JsonData) :
  plain_default d = true → plain_value d.
Proof.
  destruct d as [| |b|[z| |]|s| |[|x l]|[|kv l]]; try done; intros H;
    constructor; done.
Qed.

Lemma switch_untyped_plain (t : option string) :
  plain_value (switch_untyped t).
Proof.
  unfold switch_untyped. repeat case_match; constructor; done.
Qed.

Lemma _parseRuleToJsonc_plain ui (r : ValidationRule) :
  serializable r = true →
  ∃ d, Index._parseRuleToJsonc ui r = Ok d ∧ plain d.
Proof.
  apply (rule_ind
           (λ r, serializable r = true →
                 ∃ d, Index._parseRuleToJsonc ui r = Ok d ∧ plain d)
           (λ p, serializable_prim p = true →
                 ∃ v, Index.jsonc_value ui p = Ok v ∧ plain_value v)).
  - intros p IH Hs. destruct (IH Hs) as (v & Hv & Hp).
    rewrite (_parseRuleToJsonc_representative ui (Single p) p eq_refl), Hv.
    eexists. split; [done|]. constructor; [|done].
    apply _parseDescription_comment_ok.
  - intros [|p ps] IH Hs.
    + eexists. split; [done|]. constructor; [|constructor].
      apply _parseDescription_comment_ok.
    + apply Forall_cons in IH as [IH _]. destruct (IH Hs) as (v & Hv & Hp).
      rewrite (_parseRuleToJsonc_representative ui (Variants (p :: ps)) p
                 eq_refl), Hv.
      eexists. split; [done|]. constructor; [|done].
      apply _parseDescription_comment_ok.
  - intros c vs Hs. cbn [serializable_prim Index.jsonc_value] in *.
    destruct (usable_default _); [by eexists; split; [|apply plain_default_value]|].
    eexists. split; [done|].
    destruct vs as [[|s l]|]; try (by constructor).
    unfold js_or, first. simpl. destruct (String.eqb s EmptyString); by constructor.
  - intros c i vs Hs. cbn [serializable_prim Index.jsonc_value] in *.
    destruct (usable_default _); [by eexists; split; [|apply plain_default_value]|].
    eexists. split; [done|].
    destruct (vs ≫= head) as [[z| |]|]; constructor.
  - intros c Hs. cbn [serializable_prim Index.jsonc_value] in *.
    destruct (usable_default _); [by eexists; split; [|apply plain_default_value]|].
    eexists. split; [done|]. constructor.
  - intros c s n IHs _ Hs.
    destruct s as [l|].
    + rewrite jsonc_value_object. cbn [serializable_prim] in Hs.
      unfold rule_default in Hs. cbn [rule_common] in Hs.
      destruct (usable_default (c_default c));
        [by eexists; split; [|apply plain_default_value]|].
      destruct (mapM_Forall
                  (λ '(key, rule),
                   v ← Index._parseRuleToJsonc ui rule; Ok (key, v))
                  (λ kv, plain_text kv.1 = true ∧ plain kv.2) l)
        as (ys & -> & Hys).
      { cbn [from_option] in IHs. rewrite Forall_forall in IHs |- *.
        intros [k x] Hin. rewrite forallb_forall in Hs.
        specialize (Hs (k, x) ltac:(by apply list_elem_of_In)).
        apply andb_prop in Hs as [Hk Hx].
        destruct (IHs _ Hin Hx) as (d & Hd & Hp). cbn [snd] in Hd.
        rewrite Hd. by eexists. }
      eexists. split; [done|]. by constructor.
    + cbn [serializable_prim Index.jsonc_value] in *.
      destruct (usable_default _); [by eexists; split; [|apply plain_default_value]|].
      eexists. split; [done|]. by constructor.
  - intros c s n len _ IHn Hs.
    rewrite jsonc_value_array. cbn [serializable_prim] in Hs.
    unfold rule_default in Hs. cbn [rule_common] in Hs.
    destruct (usable_default (c_default c));
      [by eexists; split; [|apply plain_default_value]|].
    unfold repeated_nested.
    destruct n as [n|]; [|by eexists; split; [|constructor]].
    assert (serializable n = true → ∃ d, Index._parseRuleToJsonc ui n = Ok d
                                         ∧ plain d) as IHn' by done.
    destruct n as [q|qs].
    + destruct (Index.not_container q);
        [|by eexists; split; [|constructor]].
      apply andb_prop in Hs as [-> Hn].
      destruct (IHn' Hn) as (d & -> & Hd).
      eexists. split; [done|]. constructor. by apply Forall_replicate.
    + apply andb_prop in Hs as [-> Hn].
      destruct (IHn' Hn) as (d & -> & Hd).
      eexists. split; [done|]. constructor. by apply Forall_replicate.
  - intros t c Hs. cbn [serializable_prim Index.jsonc_value] in *.
    destruct (usable_default _); [by eexists; split; [|apply plain_default_value]|].
    eexists. split; [done|]. apply switch_untyped_plain.
Qed.

(** ** The round trip *)




(** The value read back from the text of [sample_rule]. *)
Example sample_rule_read_back :
  (Index._parseRuleToJsonc inspect_one_line sample_rule
   ≫= λ d, Index._stringifyJsonc d true 0)
  ≫= (λ text, from_option Ok (Throw TypeError) (parse_jsonc text))
  = Ok (JObj [("a", JStr "x"); ("n", JNum (Int (-12)));
              ("l", JArr [JBool false; JBool false]);
              ("e", JArr []); ("o", JObj []); ("z", JNull)]).
Proof. vm_compute. reflexivity. Qed.

(** ** Worked examples *)

Example number_rule_first_value :
  CollectionSchema.parseRuleToJsonData
    (Single (NumberRule bare None (Some [Int 3; Int 5])))
  = Ok (JNum (Int 3)).
Proof. reflexivity. Qed.

Example string_rule_first_value :
  CollectionSchema.parseRuleToJsonData
    (Single (StringRule bare (Some ["a"; "b"])))
  = Ok (JStr "a").
Proof. reflexivity. Qed.

Example object_rule_key_order :
  CollectionSchema.parseRuleToJsonData
    (Single (ObjectRule bare
               (Some [("a", Single (StringRule bare None));
                      ("b", Single (NumberRule bare None None))]) None))
  = Ok (JObj [("a", JStr EmptyString); ("b", JNum (Int 0))]).
Proof. reflexivity. Qed.

Example rewrite_segment_constraint :
  rewrite_segment ":id(\d+)" = ":id" ∧
  rewrite_segment ":9id" = ":9id" ∧
  rewrite_segment ":id(" = ":id(" ∧
  rewrite_segment "orders" = "orders".
Proof. repeat split. Qed.

Example parseLocation_orders :
  CollectionSchema.parseLocation inspect_one_line "/users/:id/orders"
    id_param ["id"] (Some 2)
  = {| l_folders := ["users"; ":id"];
       l_url := "{{host}}/users/:id/orders";
       l_host := ["{{host}}"];
       l_path := ["users"; ":id"; "orders"];
       l_variable :=
         [{| v_key := "id"; v_value := EmptyString;
             v_description := Some "{ type: 'number', integer: true }" |}] |}.
Proof. vm_compute. reflexivity. Qed.

Example buildItems_shared_folders :
  ∃ orders profile,
    CollectionSchema.buildItems inspect_one_line json_one_line
      [get_orders; get_profile] no_options
    = Ok [FolderItem "users"
            [FolderItem ":id(\d+)"
               [RequestItem orders; RequestItem profile]]] ∧
    i_name orders = "/users/:id/orders" ∧
    i_name profile = "/users/:id/profile".
Proof. eexists _, _. split; [vm_compute; reflexivity|done]. Qed.

Example buildItems_flat :
  ∃ orders profile,
    CollectionSchema.buildItems inspect_one_line json_one_line
      [get_orders; get_profile] flat_options
    = Ok [RequestItem orders; RequestItem profile].
Proof. eexists _, _. vm_compute. reflexivity. Qed.

(** * Further properties *)

(** ** Splitting and joining paths *)

Lemma split_slash_nonempty (s : string) : split_slash s ≠ [].
Proof.
  destruct s as [|c s]; simpl; [done|].
  destruct (Ascii.eqb c SLASH); [done|]. by destruct (split_slash s).
Qed.

Lemma join_split_slash (s : string) : join_slash (split_slash s) = s.
Proof.
  induction s as [|c s IH]; [done|]. simpl.
  destruct (Ascii.eqb c SLASH) eqn:Hc.
  - apply Ascii.eqb_eq in Hc as ->.
    destruct (split_slash s) as [|h t] eqn:Hs; simpl in *; [by subst|].
    by rewrite IH.
  - destruct (split_slash s) as [|h t] eqn:Hs; simpl in *; [by subst|].
    destruct t; simpl in *; by subst.
Qed.

Lemma split_slash_cons_no_slash (c : ascii) (s : string) :
  Ascii.eqb c SLASH = false →
  split_slash (String c s) =
    match split_slash s with
    | h :: t => String c h :: t
    | [] => [String c EmptyString]
    end.
Proof. intros H. simpl. by rewrite H. Qed.

Lemma split_slash_app (x rest : string) :
  has_slash x = false →
  split_slash (x +:+ String SLASH rest) = x :: split_slash rest.
Proof.
  induction x as [|c x IH]; intros Hx; [done|].
  simpl in Hx. apply orb_false_iff in Hx as [Hc Hx].
  change (String c x +:+ String SLASH rest)
    with (String c (x +:+ String SLASH rest)).
  rewrite split_slash_cons_no_slash by done. by rewrite IH.
Qed.

Lemma split_slash_one (x : string) :
  has_slash x = false → split_slash x = [x].
Proof.
  induction x as [|c x IH]; intros Hx; [done|].
  simpl in Hx. apply orb_false_iff in Hx as [Hc Hx].
  rewrite split_slash_cons_no_slash by done. by rewrite IH.
Qed.

Lemma split_join_slash (l : list string) :
  l ≠ [] → Forall (λ seg, has_slash seg = false) l →
  split_slash (join_slash l) = l.
Proof.
  intros Hl H. induction H as [|x l Hx H IH]; [done|].
  destruct l as [|y l].
  - simpl. by apply split_slash_one.
  - change (join_slash (x :: y :: l))
      with (x +:+ String SLASH (join_slash (y :: l))).
    rewrite split_slash_app by done. by rewrite IH.
Qed.

Lemma slice0_length {A} (n : Z) (l : list A) :
  0 ≤ n → (length (slice0 n l) ≤ Z.to_nat n)%nat.
Proof.
  intros Hn. unfold slice0. destruct (0 <=? n) eqn:H; [|lia].
  rewrite length_take. lia.
Qed.

Lemma slice0_nonempty {A} (n : Z) (l : list A) :
  1 ≤ n → l ≠ [] → slice0 n l ≠ [].
Proof.
  intros Hn Hl. unfold slice0. destruct (0 <=? n) eqn:H; [|lia].
  destruct l as [|x l]; [done|].
  destruct (Z.to_nat n) as [|k] eqn:Hk; [lia|done].
Qed.

(** ** Parameter segments *)

Lemma has_paren_app (a b : string) :
  has_paren (a +:+ b) = has_paren a || has_paren b.
Proof.
  induction a as [|c a IH]; [done|].
  change (String c a +:+ b) with (String c (a +:+ b)). simpl.
  by rewrite IH, orb_assoc.
Qed.

(** The identifier [span_ident] cuts off is a prefix made of identifier
    characters only. *)
Lemma span_ident_spec (s : string) :
  s = (span_ident s).1 +:+ (span_ident s).2 ∧
  span_ident (span_ident s).1 = ((span_ident s).1, EmptyString) ∧
  has_slash (span_ident s).1 = false ∧ has_paren (span_ident s).1 = false.
Proof.
  induction s as [|c s (IH1 & IH2 & IH3 & IH4)]; [by repeat split|]. simpl.
  destruct (ident_char c) eqn:Hc; [|by repeat split].
  destruct (span_ident s) as [id rest]. simpl in *.
  rewrite Hc, IH2, IH3, IH4. repeat split.
  - by rewrite IH1 at 1.
  - destruct (Ascii.eqb c SLASH) eqn:E; [|done].
    apply Ascii.eqb_eq in E as ->. by vm_compute in Hc.
  - destruct (Ascii.eqb c "(") eqn:E; [|done].
    apply Ascii.eqb_eq in E as ->. by vm_compute in Hc.
Qed.

(** A segment that matches the pattern is a colon, an identifier and
    either nothing or a parenthesised constraint. *)
Lemma match_param_spec (p param : string) :
  match_param p = Some param →
  ∃ c id rest,
    param = String c id ∧ p = String ":" (String c (id +:+ rest)) ∧
    ident_start c = true ∧ span_ident id = (id, EmptyString) ∧
    has_slash id = false ∧ has_paren id = false ∧
    (rest = EmptyString ∨
     ∃ r, rest = String "(" r ∧ closes_constraint r = true).
Proof.
  unfold match_param. intros H.
  destruct p as [|a p]; [done|].
  destruct (Ascii.eqb a ":") eqn:Ha;
    [apply Ascii.eqb_eq in Ha as ->|
     by destruct a as [[] [] [] [] [] [] [] []]].
  destruct p as [|c s]; [done|].
  destruct (ident_start c) eqn:Hc; [|done].
  pose proof (span_ident_spec s) as (Hs & Hid & Hsl & Hpa).
  destruct (span_ident s) as [id rest]. simpl in *.
  exists c, id, rest.
  destruct rest as [|b rest'].
  - injection H as <-. repeat split; try done; [by rewrite Hs|by left].
  - destruct (Ascii.eqb b "(") eqn:Hb;
      [apply Ascii.eqb_eq in Hb as ->|
       by destruct b as [[] [] [] [] [] [] [] []]].
    destruct (closes_constraint rest') eqn:Hcl; [|done].
    injection H as <-. repeat split; try done; [by rewrite Hs|].
    right. by exists rest'.
Qed.

Lemma rewrite_segment_prefix (p : string) :
  ∃ rest, p = rewrite_segment p +:+ rest ∧
          (rest = EmptyString ∨
           ∃ r, rest = String "(" r ∧ closes_constraint r = true).
Proof.
  unfold rewrite_segment. destruct (match_param p) as [param|] eqn:H.
  - apply match_param_spec in H
      as (c & id & rest & -> & -> & _ & _ & _ & _ & Hrest).
    by exists rest.
  - exists EmptyString. split; [by rewrite app_empty_r|by left].
Qed.

Lemma rewrite_segment_idempotent (p : string) :
  rewrite_segment (rewrite_segment p) = rewrite_segment p.
Proof.
  unfold rewrite_segment at 2 3. destruct (match_param p) as [param|] eqn:H.
  - apply match_param_spec in H
      as (c & id & rest & -> & -> & Hc & Hid & _).
    unfold rewrite_segment, match_param. by rewrite Hc, Hid.
  - unfold rewrite_segment. by rewrite H.
Qed.

Lemma rewrite_segment_no_paren (p : string) :
  has_paren p = false → rewrite_segment p = p.
Proof.
  intros Hp. unfold rewrite_segment.
  destruct (match_param p) as [param|] eqn:H; [|done].
  apply match_param_spec in H
    as (c & id & rest & -> & -> & _ & _ & _ & _ & [->|(r & -> & _)]).
  - by rewrite app_empty_r.
  - simpl in Hp. rewrite has_paren_app in Hp. simpl in Hp.
    by rewrite !orb_true_r in Hp.
Qed.

Lemma rewrite_segment_no_slash (p : string) :
  has_slash p = false → has_slash (rewrite_segment p) = false.
Proof.
  intros Hp. unfold rewrite_segment.
  destruct (match_param p) as [param|] eqn:H; [|done].
  apply match_param_spec in H
    as (c & id & rest & -> & -> & _ & _ & Hid & _).
  simpl in *. apply orb_false_iff in Hp as [Hc _]. by rewrite Hc, Hid.
Qed.

(** X1: the rewriting of a path segment only ever cuts a parenthesised
    constraint off its end: the segment is the rewritten segment followed
    by nothing or by ["("], a run of characters and a closing [")"].
    Rewriting twice is rewriting once, a segment without ["("] is left as
    it is, and no ["/"] appears in the rewriting of a segment that has
    none. *)
Theorem rewrite_segment_drops_constraint (p : string) :
  (∃ rest, p = rewrite_segment p +:+ rest ∧
           (rest = EmptyString ∨
            ∃ r, rest = String "(" r ∧ closes_constraint r = true)) ∧
  rewrite_segment (rewrite_segment p) = rewrite_segment p ∧
  (has_paren p = false → rewrite_segment p = p) ∧
  (has_slash p = false → has_slash (rewrite_segment p) = false).
Proof.
  split; [apply rewrite_segment_prefix|].
  split; [apply rewrite_segment_idempotent|].
  split; [apply rewrite_segment_no_paren|apply rewrite_segment_no_slash].
Qed.

Lemma rewrite_segment_drops_constraint_witness :
  rewrite_segment ":id(\d+)" = ":id" ∧
  rewrite_segment (rewrite_segment ":id(\d+)") = rewrite_segment ":id(\d+)" ∧
  rewrite_segment "orders" = "orders".
Proof.
  split; [reflexivity|]. split.
  - apply (rewrite_segment_drops_constraint ":id(\d+)").
  - apply (rewrite_segment_drops_constraint "orders"). reflexivity.
Defined.

(** ** Locations *)

Lemma rewritten_segments (s : string) :
  split_slash (join_slash (map rewrite_segment (split_slash s)))
  = map rewrite_segment (split_slash s).
Proof.
  apply split_join_slash.
  - pose proof (split_slash_nonempty s). by destruct (split_slash s).
  - pose proof (split_slash_no_slash s) as H.
    induction H as [|x l Hx H IH]; constructor; [|done].
    by apply rewrite_segment_no_slash.
Qed.

(** X2: the [path] list of a location holds the rewritten segments of the
    template, one for each segment: joining them with ["/"] and splitting
    the result again loses nothing.  The raw URL is ["{{host}}/"] followed
    by that list joined with ["/"], and [_parseLocation] of the class
    returns the same path and URL. *)
Theorem location_path_segments (util_inspect : JsonData → string)
    (path : string) (param : list (string * ValidationRule))
    (paramOrder : list string) (maxFolders : option Z) :
  let segments := split_slash (substring_from 1 path) in
  let location :=
    CollectionSchema.parseLocation util_inspect path param paramOrder
      maxFolders in
  let location' := Index._parseLocation util_inspect path param paramOrder in
  l_path location = map rewrite_segment segments ∧
  l_url location = "{{host}}/" +:+ join_slash (l_path location) ∧
  l_path location' = l_path location ∧
  l_url location' = l_url location.
Proof.
  cbv zeta. unfold CollectionSchema.parseLocation, Index._parseLocation.
  cbn [l_path l_url]. by rewrite !rewritten_segments.
Qed.

Lemma split_slash_no_paren (s : string) :
  has_paren s = false → Forall (λ seg, has_paren seg = false) (split_slash s).
Proof.
  induction s as [|c s IH]; simpl; [by repeat constructor|].
  intros [Hc Hs]%orb_false_iff. specialize (IH Hs).
  destruct (Ascii.eqb c SLASH); [by constructor|].
  destruct (split_slash s) as [|h t];
    [by repeat constructor; simpl; rewrite Hc|].
  apply Forall_cons in IH as [Hh Ht]. constructor; [|done].
  simpl. by rewrite Hc.
Qed.

Lemma has_paren_substring_from (n : nat) (s : string) :
  has_paren s = false → has_paren (substring_from n s) = false.
Proof.
  revert s. induction n as [|n IH]; intros [|c s]; simpl; try done.
  intros [_ Hs]%orb_false_iff. by apply IH.
Qed.

Lemma unconstrained_segments (s : string) :
  has_paren s = false →
  join_slash (map rewrite_segment (split_slash s)) = s.
Proof.
  intros Hs. rewrite <- (join_split_slash s) at 2. f_equal.
  pose proof (split_slash_no_paren s Hs) as H.
  induction H as [|x l Hx H IH]; [done|]. simpl.
  by rewrite IH, rewrite_segment_no_paren.
Qed.

(** X3: for a path template that starts with ["/"] and holds no ["("],
    either builder names the request item by the template itself, its raw
    URL is ["{{host}}"] followed by the template, and its path list is the
    template without the leading ["/"], split at ["/"]. *)
Theorem unconstrained_template_is_name
    (util_inspect JSON_stringify : JsonData → string)
    (e : BuiltEndpoint) (options : CollectionSchema.BuildCollectionOptions)
    (authorization : option (BuiltEndpoint → option Auth))
    (folders : list string) (leaf : Item) :
  has_paren (e_path e) = false →
  starts_with_slash (e_path e) = true →
  CollectionSchema.endpoint_item util_inspect JSON_stringify e options
  = Ok (folders, leaf) ∨
  Index.endpoint_item util_inspect authorization e = Ok (folders, leaf) →
  i_name leaf = e_path e ∧
  u_raw (r_url (i_request leaf)) = "{{host}}" +:+ e_path e ∧
  u_path (r_url (i_request leaf)) = split_slash (substring_from 1 (e_path e)).
Proof.
  intros Hp Hs H.
  assert (i_name leaf =
            String SLASH
              (join_slash (map rewrite_segment
                             (split_slash (substring_from 1 (e_path e))))) ∧
          u_raw (r_url (i_request leaf)) = "{{host}}" +:+ i_name leaf ∧
          u_path (r_url (i_request leaf)) =
            split_slash
              (join_slash (map rewrite_segment
                             (split_slash (substring_from 1 (e_path e))))))
    as (Hname & Hraw & Hpath).
  { destruct H as [H|H].
    - unfold CollectionSchema.endpoint_item in H.
      destruct (CollectionSchema.parseBody _ _ _ _ _) as [bodyData|]; [|done].
      cbn in H. by injection H as <- <-.
    - unfold Index.endpoint_item in H.
      destruct (Index._parseBody _ _ _) as [bodyData|]; [|done].
      cbn in H. by injection H as <- <-. }
  rewrite unconstrained_segments in Hname, Hpath
    by by apply has_paren_substring_from.
  assert (i_name leaf = e_path e) as Heq.
  { rewrite Hname. destruct (e_path e) as [|c s]; [done|]. simpl in *.
    by apply Ascii.eqb_eq in Hs as ->. }
  by rewrite Hraw, Heq, Hpath.
Qed.

Lemma unconstrained_template_is_name_witness :
  ∃ folders leaf,
    CollectionSchema.endpoint_item inspect_one_line json_one_line post_login
      no_options = Ok (folders, leaf) ∧
    i_name leaf = "/auth/login" ∧
    u_raw (r_url (i_request leaf)) = "{{host}}/auth/login" ∧
    u_path (r_url (i_request leaf)) = ["auth"; "login"].
Proof.
  assert (∃ fl, CollectionSchema.endpoint_item inspect_one_line json_one_line
                  post_login no_options = Ok fl) as [[folders leaf] H]
    by (eexists; vm_compute; reflexivity).
  exists folders, leaf. split; [done|].
  exact (unconstrained_template_is_name inspect_one_line json_one_line
           post_login no_options None folders leaf eq_refl eq_refl
           (or_introl H)).
Defined.

(** ** Request items in the tree *)

Lemma leaves_app (a b : list Node) : leaves (a ++ b) = leaves a ++ leaves b.
Proof. unfold leaves. by rewrite map_app, concat_app. Qed.

Lemma leaves_insert (item : list Node) (i : nat) name sub sub' leaf :
  item !! i = Some (FolderItem name sub) →
  leaves sub' ≡ₚ leaf :: leaves sub →
  leaves (<[i := FolderItem name sub']> item) ≡ₚ leaf :: leaves item.
Proof.
  intros Hi Hsub. revert i Hi.
  induction item as [|x item IH]; intros [|i] Hi; simpl in *; try done.
  - injection Hi as ->. unfold leaves in *. simpl. fold (leaves sub').
    by rewrite Hsub.
  - unfold leaves in *. simpl. rewrite (IH i Hi).
    by rewrite Permutation_middle.
Qed.

(** The walk adds the new request item to the tree and nothing else. *)
Lemma push_item_leaves (folders : list string) (leaf : Item)
    (item : list Node) :
  leaves (push_item folders leaf item) ≡ₚ leaf :: leaves item.
Proof.
  revert item. induction folders as [|f fs IH]; intros item; simpl.
  - rewrite leaves_app. unfold leaves at 2. simpl.
    by rewrite <- Permutation_cons_append.
  - destruct (list_find _ item) as [[i [name sub|it]]|] eqn:Hfind.
    + apply list_find_Some in Hfind as (Hi & _).
      eapply leaves_insert; [done|apply IH].
    + rewrite leaves_app. unfold leaves at 2. simpl. rewrite app_nil_r.
      fold (leaves (push_item fs leaf [])). rewrite IH.
      unfold leaves at 2. simpl. by rewrite <- Permutation_cons_append.
    + rewrite leaves_app. unfold leaves at 2. simpl. rewrite app_nil_r.
      fold (leaves (push_item fs leaf [])). rewrite IH.
      unfold leaves at 2. simpl. by rewrite <- Permutation_cons_append.
Qed.

Lemma filed_under_push (folders : list string) (leaf : Item)
    (item : list Node) :
  filed_under folders leaf (push_item folders leaf item).
Proof.
  revert item. induction folders as [|f fs IH]; intros item; simpl.
  - apply elem_of_app. right. by apply list_elem_of_singleton.
  - destruct (list_find _ item) as [[i [name sub|it]]|] eqn:Hfind.
    + apply list_find_Some in Hfind as (Hi & Hname & _). simpl in Hname.
      subst name. exists (push_item fs leaf sub). split; [|apply IH].
      apply list_elem_of_lookup. exists i.
      apply list_lookup_insert_eq. by eapply lookup_lt_Some.
    + exists (push_item fs leaf []). split; [|apply IH].
      apply elem_of_app. right. by apply list_elem_of_singleton.
    + exists (push_item fs leaf []). split; [|apply IH].
      apply elem_of_app. right. by apply list_elem_of_singleton.
Qed.

Lemma filed_under_app (folders : list string) (leaf : Item)
    (item more : list Node) :
  filed_under folders leaf item → filed_under folders leaf (item ++ more).
Proof.
  destruct folders as [|f fs]; simpl.
  - intros H. apply elem_of_app. by left.
  - intros (sub & Hin & Hsub). exists sub. split; [|done].
    apply elem_of_app. by left.
Qed.

(** A later walk leaves every request item where it is. *)
Lemma filed_under_kept (folders : list string) (leaf : Item)
    (item : list Node) (folders' : list string) (leaf' : Item) :
  filed_under folders' leaf' item →
  filed_under folders' leaf' (push_item folders leaf item).
Proof.
  revert item folders'. induction folders as [|f fs IH]; intros item fs' H;
    simpl.
  - by apply filed_under_app.
  - destruct (list_find _ item) as [[i [name sub|it]]|] eqn:Hfind;
      [|by apply filed_under_app..].
    apply list_find_Some in Hfind as (Hi & Hname & _).
    destruct fs' as [|f' fs']; simpl in *.
    + apply list_elem_of_lookup in H as [j Hj].
      apply list_elem_of_lookup. exists j.
      rewrite list_lookup_insert_ne; [done|]. intros ->. congruence.
    + destruct H as (sub' & Hin & Hsub).
      apply list_elem_of_lookup in Hin as [j Hj].
      destruct (decide (i = j)) as [->|Hne].
      * rewrite Hi in Hj. injection Hj as -> ->.
        exists (push_item fs leaf sub'). split; [|by apply IH].
        apply list_elem_of_lookup. exists j.
        apply list_lookup_insert_eq. by eapply lookup_lt_Some.
      * exists sub'. split; [|done]. apply list_elem_of_lookup. exists j.
        by rewrite list_lookup_insert_ne.
Qed.

Lemma build_from_filed ui js endpoints options out tree :
  CollectionSchema.build_from ui js out endpoints options = Ok tree →
  ∃ filed,
    mapM (λ e, CollectionSchema.endpoint_item ui js e options) endpoints
    = Ok filed ∧
    leaves tree ≡ₚ leaves out ++ filed.*2 ∧
    Forall (λ fl, filed_under fl.1 fl.2 tree) filed ∧
    ∀ folders leaf,
      filed_under folders leaf out → filed_under folders leaf tree.
Proof.
  revert out. induction endpoints as [|e es IH]; intros out H; simpl in H.
  - injection H as <-. exists []. simpl. by rewrite app_nil_r.
  - simpl.
    destruct (CollectionSchema.endpoint_item ui js e options)
      as [[folders leaf]|] eqn:He; [|done].
    simpl in H. apply IH in H as (filed & -> & Hperm & Hfiled & Hkept).
    exists ((folders, leaf) :: filed). simpl. split; [done|].
    split; [|split].
    + rewrite Hperm, push_item_leaves. simpl.
      by rewrite Permutation_middle.
    + constructor; [|done]. apply Hkept, filed_under_push.
    + intros fs l Hl. by apply Hkept, filed_under_kept.
Qed.

Lemma addEndpoints_filed ui auth endpoints item tree :
  Index.addEndpoints ui auth endpoints item = Ok tree →
  ∃ filed,
    mapM (Index.endpoint_item ui auth) endpoints = Ok filed ∧
    leaves tree ≡ₚ leaves item ++ filed.*2 ∧
    Forall (λ fl, filed_under fl.1 fl.2 tree) filed ∧
    ∀ folders leaf,
      filed_under folders leaf item → filed_under folders leaf tree.
Proof.
  revert item. induction endpoints as [|e es IH]; intros item H; simpl in H.
  - injection H as <-. exists []. simpl. by rewrite app_nil_r.
  - simpl.
    destruct (Index.endpoint_item ui auth e)
      as [[folders leaf]|] eqn:He; [|done].
    simpl in H. apply IH in H as (filed & -> & Hperm & Hfiled & Hkept).
    exists ((folders, leaf) :: filed). simpl. split; [done|].
    split; [|split].
    + rewrite Hperm, push_item_leaves. simpl.
      by rewrite Permutation_middle.
    + constructor; [|done]. apply Hkept, filed_under_push.
    + intros fs l Hl. by apply Hkept, filed_under_kept.
Qed.

(** X4: a build that returns has made one request item for every endpoint
    and put each into the tree once: the request items of the tree are,
    up to their order, the items made for the endpoints (after those the
    tree held before, for [addEndpoints]), and each lies below the chain
    of folders made for its endpoint.  A request item that was in the tree
    before [addEndpoints] ran is still below the same folders. *)
Theorem every_endpoint_filed_once
    (util_inspect JSON_stringify : JsonData → string)
    (endpoints : list BuiltEndpoint) :
  (∀ options tree,
     CollectionSchema.buildItems util_inspect JSON_stringify endpoints options
     = Ok tree →
     ∃ filed,
       mapM (λ e, CollectionSchema.endpoint_item util_inspect JSON_stringify
                    e options) endpoints = Ok filed ∧
       leaves tree ≡ₚ filed.*2 ∧
       Forall (λ fl, filed_under fl.1 fl.2 tree) filed) ∧
  (∀ authorization item tree,
     Index.addEndpoints util_inspect authorization endpoints item = Ok tree →
     ∃ filed,
       mapM (Index.endpoint_item util_inspect authorization) endpoints
       = Ok filed ∧
       leaves tree ≡ₚ leaves item ++ filed.*2 ∧
       Forall (λ fl, filed_under fl.1 fl.2 tree) filed ∧
       ∀ folders leaf,
         filed_under folders leaf item → filed_under folders leaf tree).
Proof.
  split.
  - intros options tree H. apply build_from_filed in H
      as (filed & Hm & Hperm & Hfiled & _).
    exists filed. by repeat split.
  - intros auth item tree H. by apply addEndpoints_filed.
Qed.

Lemma every_endpoint_filed_once_witness :
  ∃ tree filed,
    CollectionSchema.buildItems inspect_one_line json_one_line
      [get_orders; get_users; get_profile] no_options = Ok tree ∧
    length filed = 3%nat ∧
    leaves tree ≡ₚ filed.*2 ∧
    Forall (λ fl, filed_under fl.1 fl.2 tree) filed.
Proof.
  assert (∃ tree, CollectionSchema.buildItems inspect_one_line json_one_line
                    [get_orders; get_users; get_profile] no_options = Ok tree)
    as [tree H] by (eexists; vm_compute; reflexivity).
  destruct (proj1 (every_endpoint_filed_once inspect_one_line json_one_line
                     [get_orders; get_users; get_profile]) no_options tree H)
    as (filed & Hfiled & Hperm & Hunder).
  exists tree, filed. split; [done|]. split; [|done].
  by destruct (mapM_Ok_inv _ _ _ Hfiled) as [-> _].
Defined.

(** ** The order of the request items in a folder *)

Lemma requests_app (a b : list Node) :
  requests (a ++ b) = requests a ++ requests b.
Proof. apply omap_app. Qed.

Lemma requests_insert (item : list Node) (i : nat) name sub name' sub' :
  item !! i = Some (FolderItem name sub) →
  requests (<[i := FolderItem name' sub']> item) = requests item.
Proof.
  revert i. induction item as [|x item IH]; intros [|i] H; simpl in *; try done.
  - by injection H as ->.
  - unfold requests in *. simpl. by rewrite (IH i H).
Qed.

Lemma list_find_insert_same (item : list Node) (i : nat) (f : string)
    (sub sub' : list Node) :
  item !! i = Some (FolderItem f sub) →
  (∀ j fi, item !! j = Some fi → (j < i)%nat → node_name fi ≠ f) →
  list_find (λ fi, node_name fi = f) (<[i := FolderItem f sub']> item)
  = Some (i, FolderItem f sub').
Proof.
  intros Hi Hfirst. apply list_find_Some. split; [|split].
  - apply list_lookup_insert_eq. by eapply lookup_lt_Some.
  - done.
  - intros j fj Hj Hlt. rewrite list_lookup_insert_ne in Hj by lia.
    by eapply Hfirst.
Qed.

Lemma list_find_insert_other (item : list Node) (i : nat) (f f' : string)
    (sub sub' : list Node) :
  item !! i = Some (FolderItem f sub) → f' ≠ f →
  list_find (λ fi, node_name fi = f') (<[i := FolderItem f sub']> item)
  = list_find (λ fi, node_name fi = f') item.
Proof.
  intros Hi Hne. revert i Hi.
  induction item as [|x item IH]; intros [|i] Hi; simpl in *; try done.
  - injection Hi as ->. simpl.
    rewrite !decide_False by (simpl; congruence). done.
  - destruct (decide (node_name x = f')); [done|]. by rewrite (IH i Hi).
Qed.

Lemma list_find_app_miss (item : list Node) (x : Node) (f' : string) :
  node_name x ≠ f' →
  list_find (λ fi, node_name fi = f') (item ++ [x])
  = list_find (λ fi, node_name fi = f') item.
Proof.
  intros Hx. induction item as [|y item IH]; simpl.
  - by rewrite decide_False.
  - destruct (decide (node_name y = f')); [done|]. by rewrite IH.
Qed.

Lemma list_find_app_hit (item : list Node) (x : Node) (f : string) :
  (∀ fi, fi ∈ item → node_name fi ≠ f) → node_name x = f →
  list_find (λ fi, node_name fi = f) (item ++ [x])
  = Some (length item, x).
Proof.
  intros Hnone Hx. induction item as [|y item IH]; simpl.
  - by rewrite decide_True.
  - rewrite decide_False by (apply Hnone; by left).
    rewrite IH; [done|]. intros fi Hfi. apply Hnone. by right.
Qed.

Lemma list_find_none_named (item : list Node) (f : string) :
  (∀ fi, fi ∈ item → node_name fi ≠ f) →
  list_find (λ fi, node_name fi = f) item = None.
Proof.
  intros H. apply list_find_None. by apply Forall_forall.
Qed.

Lemma children_at_nil (folders : list string) :
  requests (children_at folders []) = [].
Proof. by destruct folders. Qed.

(** One walk on a well-built tree appends its request item to the
    siblings at the end of its own chain of folders, and changes the
    request items of no other chain. *)
Lemma push_item_requests (folders folders' : list string) (leaf : Item)
    (item : list Node) :
  well_built item →
  Forall (λ f, has_slash f = false) folders →
  Forall (λ f, has_slash f = false) folders' →
  starts_with_slash (i_name leaf) = true →
  requests (children_at folders' (push_item folders leaf item))
  = requests (children_at folders' item)
    ++ (if decide (folders' = folders) then [leaf] else []).
Proof.
  intros Hwb Hfs Hfs' Hleaf. revert item folders' Hwb Hfs'.
  induction Hfs as [|f fs Hf Hfs IH]; intros item fs' Hwb Hfs'.
  - cbn [push_item]. destruct Hfs' as [|f' fs' Hf' Hfs']; cbn [children_at].
    + by rewrite requests_app.
    + rewrite list_find_app_miss, decide_False, app_nil_r; [done..|].
      simpl. intros Heq. by eapply has_slash_starts_with_slash.
  - destruct (push_item_step item f fs leaf Hwb Hf)
      as [(i & sub & Hi & Hfirst & ->)|[Hnone ->]].
    + assert (well_built sub) as Hsub.
      { inversion Hwb as [? _ Hnodes]; subst.
        rewrite Forall_forall in Hnodes.
        assert (built_node (FolderItem f sub)) as Hn
          by (apply Hnodes; by eapply list_elem_of_lookup_2).
        by inversion Hn. }
      destruct Hfs' as [|f' fs' Hf' Hfs']; cbn [children_at].
      * rewrite (requests_insert _ _ _ _ _ _ Hi), decide_False, app_nil_r;
          done.
      * destruct (decide (f' = f)) as [->|Hne].
        -- rewrite (list_find_insert_same _ _ _ _ _ Hi Hfirst).
           assert (list_find (λ fi, node_name fi = f) item
                   = Some (i, FolderItem f sub)) as ->.
           { apply list_find_Some. split; [done|]. split; [done|].
             intros j fj Hj Hlt. by eapply Hfirst. }
           rewrite (IH sub fs' Hsub Hfs').
           f_equal. destruct (decide (fs' = fs)) as [->|Hne].
           ++ by rewrite decide_True.
           ++ rewrite decide_False; [done|]. congruence.
        -- rewrite (list_find_insert_other _ _ _ _ _ _ Hi Hne).
           rewrite decide_False, app_nil_r; [done|]. congruence.
    + destruct Hfs' as [|f' fs' Hf' Hfs']; cbn [children_at].
      * rewrite requests_app, decide_False by done. simpl.
        by rewrite app_nil_r.
      * destruct (decide (f' = f)) as [->|Hne].
        -- rewrite list_find_app_hit by done.
           rewrite (list_find_none_named _ _ Hnone).
           rewrite (IH [] fs' well_built_nil Hfs'), children_at_nil.
           simpl. destruct (decide (fs' = fs)) as [->|Hne].
           ++ by rewrite decide_True.
           ++ rewrite decide_False; [done|]. congruence.
        -- rewrite list_find_app_miss by (simpl; congruence).
           rewrite decide_False, app_nil_r; [done|]. congruence.
Qed.

Lemma filter_filed_cons (folders fs : list string) (leaf : Item)
    (filed : list (list string * Item)) :
  (filter (λ fl, fl.1 = fs) ((folders, leaf) :: filed)).*2
  = (if decide (fs = folders) then [leaf] else [])
    ++ (filter (λ fl, fl.1 = fs) filed).*2.
Proof.
  rewrite filter_cons. cbn [fst].
  destruct (decide (folders = fs)) as [->|Hne].
  - by rewrite decide_True.
  - rewrite decide_False; [done|]. congruence.
Qed.

Lemma build_from_requests ui js endpoints options out tree :
  well_built out →
  CollectionSchema.build_from ui js out endpoints options = Ok tree →
  ∃ filed,
    mapM (λ e, CollectionSchema.endpoint_item ui js e options) endpoints
    = Ok filed ∧
    ∀ folders,
      Forall (λ f, has_slash f = false) folders →
      requests (children_at folders tree)
      = requests (children_at folders out)
        ++ (filter (λ fl, fl.1 = folders) filed).*2.
Proof.
  revert out. induction endpoints as [|e es IH]; intros out Hout H;
    simpl in H.
  - injection H as <-. exists []. split; [done|]. intros fs _.
    by rewrite app_nil_r.
  - simpl.
    destruct (CollectionSchema.endpoint_item ui js e options)
      as [[folders leaf]|] eqn:He; [|done].
    simpl in H. pose proof (endpoint_item_names _ _ _ _ _ _ He)
      as (Hf & Hname & _).
    assert (starts_with_slash (i_name leaf) = true) as Hleaf
      by (by rewrite Hname).
    apply IH in H as (filed & -> & Hreq);
      [|by apply push_item_well_built].
    exists ((folders, leaf) :: filed). split; [done|]. intros fs Hfs.
    rewrite (Hreq fs Hfs), push_item_requests by done.
    by rewrite filter_filed_cons, <- app_assoc.
Qed.

Lemma addEndpoints_requests ui auth endpoints item tree :
  well_built item →
  Index.addEndpoints ui auth endpoints item = Ok tree →
  ∃ filed,
    mapM (Index.endpoint_item ui auth) endpoints = Ok filed ∧
    ∀ folders,
      Forall (λ f, has_slash f = false) folders →
      requests (children_at folders tree)
      = requests (children_at folders item)
        ++ (filter (λ fl, fl.1 = folders) filed).*2.
Proof.
  revert item. induction endpoints as [|e es IH]; intros item Hitem H;
    simpl in H.
  - injection H as <-. exists []. split; [done|]. intros fs _.
    by rewrite app_nil_r.
  - simpl.
    destruct (Index.endpoint_item ui auth e)
      as [[folders leaf]|] eqn:He; [|done].
    simpl in H. pose proof (_endpoint_item_names _ _ _ _ _ He)
      as (Hf & Hname & _).
    assert (starts_with_slash (i_name leaf) = true) as Hleaf
      by (by rewrite Hname).
    apply IH in H as (filed & -> & Hreq);
      [|by apply push_item_well_built].
    exists ((folders, leaf) :: filed). split; [done|]. intros fs Hfs.
    rewrite (Hreq fs Hfs), push_item_requests by done.
    by rewrite filter_filed_cons, <- app_assoc.
Qed.

(** X5: in a tree built from the empty collection, the request items a
    reader finds at the end of a chain of folder names are the items of
    the endpoints filed under exactly that chain, in the order of the
    endpoints.  Both builders. *)
Theorem requests_keep_endpoint_order
    (util_inspect JSON_stringify : JsonData → string)
    (endpoints : list BuiltEndpoint) :
  (∀ options tree,
     CollectionSchema.buildItems util_inspect JSON_stringify endpoints options
     = Ok tree →
     ∃ filed,
       mapM (λ e, CollectionSchema.endpoint_item util_inspect JSON_stringify
                    e options) endpoints = Ok filed ∧
       ∀ folders,
         Forall (λ f, has_slash f = false) folders →
         requests (children_at folders tree)
         = (filter (λ fl, fl.1 = folders) filed).*2) ∧
  (∀ authorization tree,
     Index.addEndpoints util_inspect authorization endpoints [] = Ok tree →
     ∃ filed,
       mapM (Index.endpoint_item util_inspect authorization) endpoints
       = Ok filed ∧
       ∀ folders,
         Forall (λ f, has_slash f = false) folders →
         requests (children_at folders tree)
         = (filter (λ fl, fl.1 = folders) filed).*2).
Proof.
  split.
  - intros options tree H.
    destruct (build_from_requests util_inspect JSON_stringify endpoints
                options [] tree well_built_nil H) as (filed & Hm & Hreq).
    exists filed. split; [done|]. intros fs Hfs.
    by rewrite (Hreq fs Hfs), children_at_nil.
  - intros auth tree H.
    destruct (addEndpoints_requests util_inspect auth endpoints [] tree
                well_built_nil H) as (filed & Hm & Hreq).
    exists filed. split; [done|]. intros fs Hfs.
    by rewrite (Hreq fs Hfs), children_at_nil.
Qed.

Lemma requests_keep_endpoint_order_witness :
  ∃ tree filed,
    Index.addEndpoints inspect_one_line None
      [get_orders; get_users; get_profile] [] = Ok tree ∧
    mapM (Index.endpoint_item inspect_one_line None)
      [get_orders; get_users; get_profile] = Ok filed ∧
    i_name <$> requests (children_at ["users"; ":id(\d+)"] tree)
    = ["/users/:id/orders"; "/users/:id/profile"] ∧
    requests (children_at ["users"; ":id(\d+)"] tree)
    = (filter (λ fl, fl.1 = ["users"; ":id(\d+)"]) filed).*2.
Proof.
  assert (∃ tree, Index.addEndpoints inspect_one_line None
                    [get_orders; get_users; get_profile] [] = Ok tree)
    as [tree H] by (eexists; vm_compute; reflexivity).
  destruct (proj2 (requests_keep_endpoint_order inspect_one_line
                     json_one_line [get_orders; get_users; get_profile])
              None tree H) as (filed & Hfiled & Hreq).
  exists tree, filed. split; [done|]. split; [done|].
  assert (requests (children_at ["users"; ":id(\d+)"] tree)
          = (filter (λ fl, fl.1 = ["users"; ":id(\d+)"]) filed).*2) as Horder
    by (apply Hreq; by repeat constructor).
  split; [|done]. rewrite Horder.
  vm_compute in Hfiled. injection Hfiled as <-. vm_compute. reflexivity.
Defined.

(** ** The depth of the tree *)

Lemma endpoint_item_folders ui js e options folders leaf :
  CollectionSchema.endpoint_item ui js e options = Ok (folders, leaf) →
  folders = slice0 (default 2 (CollectionSchema.maxFolders options))
              (split_slash (substring_from 1 (e_path e))).
Proof.
  unfold CollectionSchema.endpoint_item. intros H.
  destruct (CollectionSchema.parseBody _ _ _ _ _) as [bodyData|]; [|done].
  cbn in H. by injection H as <- <-.
Qed.

Lemma _endpoint_item_folders ui auth e folders leaf :
  Index.endpoint_item ui auth e = Ok (folders, leaf) →
  folders = slice0 2 (split_slash (substring_from 1 (e_path e))).
Proof.
  unfold Index.endpoint_item. intros H.
  destruct (Index._parseBody _ _ _) as [bodyData|]; [|done].
  cbn in H. by injection H as <- <-.
Qed.

Lemma nests_within_mono (n m : nat) (fi : Node) :
  (n ≤ m)%nat → nests_within n fi = true → nests_within m fi = true.
Proof.
  revert n m. induction fi as [i|name sub IH] using node_ind'; [by intros|].
  intros [|n] [|m] Hle; simpl; try done; try lia.
  rewrite !forallb_forall. intros H x Hx.
  rewrite Forall_forall in IH.
  apply (IH x (proj2 (list_elem_of_In _ _) Hx) n m); [lia|by apply H].
Qed.

(** A walk along [folders] makes no folder deeper than their number. *)
Lemma push_item_nests_within (n : nat) (folders : list string) (leaf : Item)
    (item : list Node) :
  (length folders ≤ n)%nat →
  forallb (nests_within n) item = true →
  forallb (nests_within n) (push_item folders leaf item) = true.
Proof.
  revert n item. induction folders as [|f fs IH]; intros n item Hn Hitem;
    simpl.
  - rewrite forallb_app, Hitem. done.
  - destruct n as [|n]; [simpl in Hn; lia|].
    assert (length fs ≤ n)%nat as Hfs by (simpl in Hn; lia).
    destruct (list_find _ item) as [[i [name sub|it]]|] eqn:Hfind.
    + apply list_find_Some in Hfind as (Hi & _).
      rewrite forallb_forall in Hitem. apply forallb_forall.
      intros x Hx%list_elem_of_In.
      apply list_elem_of_lookup in Hx as [j Hj].
      destruct (decide (i = j)) as [->|Hne].
      * rewrite list_lookup_insert_eq in Hj
          by (by eapply lookup_lt_Some).
        injection Hj as <-. simpl. apply IH; [done|].
        assert (nests_within (S n) (FolderItem name sub) = true) as Hs.
        { apply Hitem, list_elem_of_In. by eapply list_elem_of_lookup_2. }
        done.
      * rewrite list_lookup_insert_ne in Hj by done.
        apply Hitem, list_elem_of_In. by eapply list_elem_of_lookup_2.
    + rewrite forallb_app, Hitem. simpl. rewrite IH; done.
    + rewrite forallb_app, Hitem. simpl. rewrite IH; done.
Qed.

Lemma build_from_nests_within ui js endpoints options out tree :
  0 ≤ default 2 (CollectionSchema.maxFolders options) →
  forallb (nests_within
             (Z.to_nat (default 2 (CollectionSchema.maxFolders options))))
    out = true →
  CollectionSchema.build_from ui js out endpoints options = Ok tree →
  forallb (nests_within
             (Z.to_nat (default 2 (CollectionSchema.maxFolders options))))
    tree = true.
Proof.
  intros Hn. revert out.
  induction endpoints as [|e es IH]; intros out Hout H; simpl in H.
  - by injection H as <-.
  - destruct (CollectionSchema.endpoint_item ui js e options)
      as [[folders leaf]|] eqn:He; [|done].
    simpl in H. apply IH in H; [done|].
    apply push_item_nests_within; [|done].
    rewrite (endpoint_item_folders _ _ _ _ _ _ He). by apply slice0_length.
Qed.

Lemma addEndpoints_nests_within ui auth endpoints item tree :
  forallb (nests_within 2) item = true →
  Index.addEndpoints ui auth endpoints item = Ok tree →
  forallb (nests_within 2) tree = true.
Proof.
  revert item. induction endpoints as [|e es IH]; intros item Hitem H;
    simpl in H.
  - by injection H as <-.
  - destruct (Index.endpoint_item ui auth e) as [[folders leaf]|] eqn:He;
      [|done].
    simpl in H. apply IH in H; [done|].
    apply push_item_nests_within; [|done].
    rewrite (_endpoint_item_folders _ _ _ _ _ He).
    by apply (slice0_length 2).
Qed.

(** X6: with [maxFolders] at least 0 ([2] when absent), [buildItems]
    builds no folder more than [maxFolders] folders deep; [addEndpoints]
    of the class, whose depth is fixed, keeps a tree within two levels of
    folders. *)
Theorem folders_nest_within_maxFolders
    (util_inspect JSON_stringify : JsonData → string)
    (endpoints : list BuiltEndpoint) :
  (∀ options tree,
     0 ≤ default 2 (CollectionSchema.maxFolders options) →
     CollectionSchema.buildItems util_inspect JSON_stringify endpoints options
     = Ok tree →
     forallb (nests_within
                (Z.to_nat (default 2 (CollectionSchema.maxFolders options))))
       tree = true) ∧
  (∀ authorization item tree,
     forallb (nests_within 2) item = true →
     Index.addEndpoints util_inspect authorization endpoints item = Ok tree →
     forallb (nests_within 2) tree = true).
Proof.
  split.
  - intros options tree Hn H.
    by apply (build_from_nests_within util_inspect JSON_stringify endpoints
                options [] tree Hn).
  - intros auth item tree Hitem H. by eapply addEndpoints_nests_within.
Qed.

Lemma folders_nest_within_maxFolders_witness :
  ∃ tree,
    CollectionSchema.buildItems inspect_one_line json_one_line
      [get_orders; get_users; post_login] no_options = Ok tree ∧
    forallb (nests_within 2) tree = true ∧
    forallb (nests_within 1) tree = false.
Proof.
  assert (∃ tree, CollectionSchema.buildItems inspect_one_line json_one_line
                    [get_orders; get_users; post_login] no_options = Ok tree)
    as [tree H] by (eexists; vm_compute; reflexivity).
  exists tree. split; [done|]. split.
  - exact (proj1 (folders_nest_within_maxFolders inspect_one_line
                    json_one_line [get_orders; get_users; post_login])
             no_options tree ltac:(done) H).
  - vm_compute in H. injection H as <-. reflexivity.
Defined.

(** ** The root of the tree *)

Lemma push_item_folders_root (f : string) (fs : list string) (leaf : Item)
    (item : list Node) :
  forallb is_folder item = true →
  forallb is_folder (push_item (f :: fs) leaf item) = true.
Proof.
  intros Hitem. simpl.
  destruct (list_find _ item) as [[i [name sub|it]]|] eqn:Hfind.
  - rewrite forallb_forall in Hitem. apply forallb_forall.
    intros x Hx%list_elem_of_In.
    apply list_elem_of_lookup in Hx as [j Hj].
    apply list_lookup_insert_Some in Hj as [(-> & <- & _)|[_ Hj]]; [done|].
    apply Hitem, list_elem_of_In. by eapply list_elem_of_lookup_2.
  - by rewrite forallb_app, Hitem.
  - by rewrite forallb_app, Hitem.
Qed.

Lemma build_from_folders_root ui js endpoints options out tree :
  1 ≤ default 2 (CollectionSchema.maxFolders options) →
  forallb is_folder out = true →
  CollectionSchema.build_from ui js out endpoints options = Ok tree →
  forallb is_folder tree = true.
Proof.
  intros Hn. revert out.
  induction endpoints as [|e es IH]; intros out Hout H; simpl in H.
  - by injection H as <-.
  - destruct (CollectionSchema.endpoint_item ui js e options)
      as [[folders leaf]|] eqn:He; [|done].
    simpl in H. apply IH in H; [done|].
    pose proof (endpoint_item_folders _ _ _ _ _ _ He) as Hf.
    destruct folders as [|f fs].
    + symmetry in Hf. apply slice0_nonempty in Hf; [done|done|].
      apply split_slash_nonempty.
    + by apply push_item_folders_root.
Qed.

Lemma addEndpoints_folders_root ui auth endpoints item tree :
  forallb is_folder item = true →
  Index.addEndpoints ui auth endpoints item = Ok tree →
  forallb is_folder tree = true.
Proof.
  revert item. induction endpoints as [|e es IH]; intros item Hitem H;
    simpl in H.
  - by injection H as <-.
  - destruct (Index.endpoint_item ui auth e) as [[folders leaf]|] eqn:He;
      [|done].
    simpl in H. apply IH in H; [done|].
    pose proof (_endpoint_item_folders _ _ _ _ _ He) as Hf.
    destruct folders as [|f fs].
    + symmetry in Hf. apply slice0_nonempty in Hf; [done|done|].
      apply split_slash_nonempty.
    + by apply push_item_folders_root.
Qed.

(** X7: every path has a first segment, so with [maxFolders] at least 1
    ([2] when absent) every node at the root of the tree [buildItems]
    builds is a folder: no request item lies at the root, not even for the
    path ["/"] or the empty path, which are filed under a folder with the
    empty name.  [addEndpoints] of the class keeps a root of folders. *)
Theorem root_nodes_are_folders
    (util_inspect JSON_stringify : JsonData → string)
    (endpoints : list BuiltEndpoint) :
  (∀ options tree,
     1 ≤ default 2 (CollectionSchema.maxFolders options) →
     CollectionSchema.buildItems util_inspect JSON_stringify endpoints options
     = Ok tree →
     forallb is_folder tree = true) ∧
  (∀ authorization item tree,
     forallb is_folder item = true →
     Index.addEndpoints util_inspect authorization endpoints item = Ok tree →
     forallb is_folder tree = true).
Proof.
  split.
  - intros options tree Hn H.
    by apply (build_from_folders_root util_inspect JSON_stringify endpoints
                options [] tree Hn).
  - intros auth item tree Hitem H. by eapply addEndpoints_folders_root.
Qed.

Lemma root_nodes_are_folders_witness :
  ∃ leaf,
    Index.addEndpoints inspect_one_line None [get_root] []
    = Ok [FolderItem EmptyString [RequestItem leaf]] ∧
    i_name leaf = "/" ∧
    forallb is_folder [FolderItem EmptyString [RequestItem leaf]] = true.
Proof.
  eexists. split; [vm_compute; reflexivity|]. split; [reflexivity|].
  apply (proj2 (root_nodes_are_folders inspect_one_line json_one_line
                  [get_root]) None []); [reflexivity|].
  vm_compute. reflexivity.
Defined.

Lemma build_from_flat ui js endpoints options out tree :
  default 2 (CollectionSchema.maxFolders options) = 0 →
  CollectionSchema.build_from ui js out endpoints options = Ok tree →
  ∃ filed,
    mapM (λ e, CollectionSchema.endpoint_item ui js e options) endpoints
    = Ok filed ∧
    tree = out ++ map RequestItem filed.*2.
Proof.
  intros Hn. revert out.
  induction endpoints as [|e es IH]; intros out H; simpl in H.
  - injection H as <-. exists []. simpl. by rewrite app_nil_r.
  - simpl.
    destruct (CollectionSchema.endpoint_item ui js e options)
      as [[folders leaf]|] eqn:He; [|done].
    simpl in H. apply IH in H as (filed & -> & ->).
    exists ((folders, leaf) :: filed). split; [done|].
    rewrite (endpoint_item_folders _ _ _ _ _ _ He), Hn. simpl.
    by rewrite <- app_assoc.
Qed.

(** X8: with [maxFolders: 0] [buildItems] makes no folder at all: the tree
    is the list of the request items, in the order of the endpoints. *)
Theorem no_folders_flat_list
    (util_inspect JSON_stringify : JsonData → string)
    (endpoints : list BuiltEndpoint)
    (options : CollectionSchema.BuildCollectionOptions) (tree : list Node) :
  CollectionSchema.maxFolders options = Some 0 →
  CollectionSchema.buildItems util_inspect JSON_stringify endpoints options
  = Ok tree →
  ∃ filed,
    mapM (λ e, CollectionSchema.endpoint_item util_inspect JSON_stringify
                 e options) endpoints = Ok filed ∧
    tree = map RequestItem filed.*2.
Proof.
  intros Hn H.
  apply (build_from_flat util_inspect JSON_stringify endpoints options [] tree)
    in H; [done|]. by rewrite Hn.
Qed.

Lemma no_folders_flat_list_witness :
  ∃ orders users,
    CollectionSchema.buildItems inspect_one_line json_one_line
      [get_orders; get_users] flat_options
    = Ok [RequestItem orders; RequestItem users] ∧
    i_name orders = "/users/:id/orders" ∧ i_name users = "/users".
Proof.
  assert (∃ tree, CollectionSchema.buildItems inspect_one_line json_one_line
                    [get_orders; get_users] flat_options = Ok tree)
    as [tree H] by (eexists; vm_compute; reflexivity).
  destruct (no_folders_flat_list inspect_one_line json_one_line
              [get_orders; get_users] flat_options tree eq_refl H)
    as (filed & Hfiled & ->).
  vm_compute in Hfiled. injection Hfiled as <-.
  do 2 eexists. split; [exact H|]. split; reflexivity.
Defined.

(** ** The two builders side by side *)

Lemma shape_name (x y : Node) :
  shape x = shape y → node_name x = node_name y.
Proof. destruct x, y; simpl; congruence. Qed.

Lemma list_find_shape (f : string) (item item' : list Node) :
  map shape item = map shape item' →
  match list_find (λ fi, node_name fi = f) item,
        list_find (λ fi, node_name fi = f) item' with
  | Some (i, x), Some (j, y) => i = j ∧ shape x = shape y
  | None, None => True
  | _, _ => False
  end.
Proof.
  revert item'. induction item as [|x item IH]; intros [|y item'] H;
    simpl in H; try done.
  injection H as Hxy H. specialize (IH item' H). simpl.
  rewrite (shape_name x y Hxy).
  destruct (decide (node_name y = f)); [done|].
  destruct (list_find _ item) as [[i x']|], (list_find _ item') as [[j y']|];
    simpl; try done.
  destruct IH as [-> ?]. done.
Qed.

(** The walk looks at names only: on trees of the same shape it makes
    trees of the same shape. *)
Lemma push_item_shape (folders : list string) (leaf leaf' : Item)
    (item item' : list Node) :
  shape (RequestItem leaf) = shape (RequestItem leaf') →
  map shape item = map shape item' →
  map shape (push_item folders leaf item)
  = map shape (push_item folders leaf' item').
Proof.
  intros Hleaf. revert item item'.
  induction folders as [|f fs IH]; intros item item' H; simpl.
  - rewrite !map_app, H. simpl in *. by rewrite Hleaf.
  - pose proof (list_find_shape f item item' H) as Hfind.
    destruct (list_find _ item) as [[i x]|], (list_find _ item') as [[j y]|];
      try done.
    + destruct Hfind as [<- Hxy].
      destruct x as [name sub|it], y as [name' sub'|it']; try done.
      * simpl in Hxy. injection Hxy as <- Hsub.
        rewrite !map_fmap, !list_fmap_insert, <- !map_fmap. simpl.
        by rewrite H, (IH sub sub' Hsub).
      * rewrite !map_app, H. simpl. by rewrite (IH [] []).
    + rewrite !map_app, H. simpl. by rewrite (IH [] []).
Qed.

Lemma endpoint_items_shape ui js ui' auth e options folders leaf
    folders' leaf' :
  default 2 (CollectionSchema.maxFolders options) = 2 →
  CollectionSchema.endpoint_item ui js e options = Ok (folders, leaf) →
  Index.endpoint_item ui' auth e = Ok (folders', leaf') →
  folders = folders' ∧ shape (RequestItem leaf) = shape (RequestItem leaf').
Proof.
  intros Hn. unfold CollectionSchema.endpoint_item, Index.endpoint_item.
  intros H H'.
  destruct (CollectionSchema.parseBody _ _ _ _ _) as [bodyData|]; [|done].
  destruct (Index._parseBody _ _ _) as [bodyData'|]; [|done].
  cbn in H, H'. injection H as <- <-. injection H' as <- <-.
  rewrite Hn. split; [done|]. cbn. f_equal.
  - by rewrite !map_map.
  - unfold CollectionSchema.parseQuery, Index._parseQuery.
    destruct (e_query e) as [query|]; [|done]. rewrite !map_map.
    apply map_ext. by intros [key value].
Qed.

(** X9: when both return, [buildItems] with [maxFolders] 2 (or absent)
    and [addEndpoints] of the class on the empty collection build trees of
    the same shape from the same endpoints: the same folders in the same
    order, and request items with the same name, method, raw URL, path,
    path-variable keys and query keys and values.  Bodies, headers and
    descriptions are what may differ. *)
Theorem builders_agree_on_shape
    (util_inspect JSON_stringify util_inspect' : JsonData → string)
    (endpoints : list BuiltEndpoint)
    (options : CollectionSchema.BuildCollectionOptions)
    (authorization : option (BuiltEndpoint → option Auth))
    (tree tree' : list Node) :
  default 2 (CollectionSchema.maxFolders options) = 2 →
  CollectionSchema.buildItems util_inspect JSON_stringify endpoints options
  = Ok tree →
  Index.addEndpoints util_inspect' authorization endpoints [] = Ok tree' →
  map shape tree = map shape tree'.
Proof.
  intros Hn. unfold CollectionSchema.buildItems.
  assert (map shape [] = map shape []) as Hnil by done. revert Hnil.
  generalize (@nil Node) at 1 3 as out.
  generalize (@nil Node) as item.
  induction endpoints as [|e es IH]; intros item out Hout H H'; simpl in *.
  - injection H as <-. by injection H' as <-.
  - destruct (CollectionSchema.endpoint_item _ _ e options)
      as [[folders leaf]|] eqn:He; [|done].
    destruct (Index.endpoint_item _ authorization e)
      as [[folders' leaf']|] eqn:He'; [|done].
    simpl in H, H'.
    destruct (endpoint_items_shape _ _ _ _ _ _ _ _ _ _ Hn He He')
      as [<- Hleaf].
    eapply IH; [|done..]. by apply push_item_shape.
Qed.

Lemma builders_agree_on_shape_witness :
  ∃ tree tree',
    CollectionSchema.buildItems inspect_one_line json_one_line
      [get_orders; post_login; get_profile] no_options = Ok tree ∧
    Index.addEndpoints inspect_one_line None
      [get_orders; post_login; get_profile] [] = Ok tree' ∧
    tree ≠ tree' ∧ map shape tree = map shape tree'.
Proof.
  assert (∃ tree, CollectionSchema.buildItems inspect_one_line json_one_line
                    [get_orders; post_login; get_profile] no_options
                  = Ok tree)
    as [tree H] by (eexists; vm_compute; reflexivity).
  assert (∃ tree', Index.addEndpoints inspect_one_line None
                     [get_orders; post_login; get_profile] [] = Ok tree')
    as [tree' H'] by (eexists; vm_compute; reflexivity).
  exists tree, tree'. split; [done|]. split; [done|]. split.
  - vm_compute in H, H'. injection H as <-. injection H' as <-. discriminate.
  - exact (builders_agree_on_shape inspect_one_line json_one_line
             inspect_one_line _ no_options None tree tree' eq_refl H H').
Defined.

(** X10: [addEndpoints] only adds to the collection it finds, so adding
    the endpoints in two calls, one list after the other, gives what one
    call with the concatenated list gives, raising where that raises. *)
Theorem addEndpoints_accumulates (util_inspect : JsonData → string)
    (authorization : option (BuiltEndpoint → option Auth))
    (earlier later : list BuiltEndpoint) (item : list Node) :
  Index.addEndpoints util_inspect authorization (earlier ++ later) item
  = Index.addEndpoints util_inspect authorization earlier item
    ≫= Index.addEndpoints util_inspect authorization later.
Proof.
  revert item. induction earlier as [|e es IH]; intros item; simpl; [done|].
  destruct (Index.endpoint_item _ _ e) as [[folders leaf]|]; [|done].
  simpl. apply IH.
Qed.

(** ** When the rule compilers raise *)

Lemma mapM_decide {A B} (f : A → result B) (g : A → bool) (e : JsError)
    (l : list A) :
  Forall (λ x, (g x = true → ∃ y, f x = Ok y) ∧
               (g x = false → f x = Throw e)) l →
  (forallb g l = true → ∃ ys, mapM f l = Ok ys) ∧
  (forallb g l = false → mapM f l = Throw e).
Proof.
  induction 1 as [|x l [Hok Hthrow] _ [IHok IHthrow]];
    [split; [by eexists|done]|].
  cbn [forallb mapM]. destruct (g x).
  - destruct (Hok eq_refl) as [y ->]. cbn [mbind result_bind]. split.
    + intros Hl. destruct (IHok Hl) as [ys ->]. by eexists.
    + intros Hl. by rewrite (IHthrow Hl).
  - rewrite (Hthrow eq_refl). done.
Qed.



Lemma switch_untyped_usable (t : option string) :
  usable_default (switch_untyped t) = true.
Proof. unfold switch_untyped. by repeat case_match. Qed.

(** The class's compiler, decided by the lengths it is asked for. *)
Lemma _parseRuleToJsonc_decided ui (r : ValidationRule) :
  (lengths_valid r = true →
   ∃ v, Index._parseRuleToJsonc ui r
        = Ok (JArr [v; from_option JStr JUndefined
                         (Index._parseDescription ui r)]) ∧
        usable_default v = true) ∧
  (lengths_valid r = false →
   Index._parseRuleToJsonc ui r = Throw RangeError).
Proof.
  apply (rule_ind
           (λ r, (lengths_valid r = true →
                  ∃ v, Index._parseRuleToJsonc ui r
                       = Ok (JArr [v; from_option JStr JUndefined
                                        (Index._parseDescription ui r)]) ∧
                       usable_default v = true) ∧
                 (lengths_valid r = false →
                  Index._parseRuleToJsonc ui r = Throw RangeError))
           (λ p, (lengths_valid_prim p = true →
                  ∃ v, Index.jsonc_value ui p = Ok v ∧
                       usable_default v = true) ∧
                 (lengths_valid_prim p = false →
                  Index.jsonc_value ui p = Throw RangeError))).
  - intros p [Hok Hthrow].
    rewrite (_parseRuleToJsonc_representative ui (Single p) p eq_refl).
    split.
    + intros H. destruct (Hok H) as (v & -> & Hv). by exists v.
    + intros H. by rewrite (Hthrow H).
  - intros [|p ps] IH.
    + split; [|done]. intros _. by exists JNull.
    + apply Forall_cons in IH as [[Hok Hthrow] _].
      rewrite (_parseRuleToJsonc_representative ui (Variants (p :: ps)) p
                 eq_refl).
      split.
      * intros H. destruct (Hok H) as (v & -> & Hv). by exists v.
      * intros H. by rewrite (Hthrow H).
  - intros c vs. cbn [lengths_valid_prim Index.jsonc_value].
    destruct (usable_default _) eqn:Hd; [split; by eauto|].
    split; [|done]. intros _. eexists. split; [done|].
    destruct vs as [[|s l]|]; try done.
    unfold js_or, first. simpl. by destruct (String.eqb s EmptyString).
  - intros c i vs. cbn [lengths_valid_prim Index.jsonc_value].
    destruct (usable_default _) eqn:Hd; [split; by eauto|].
    split; [|done]. intros _. by eexists.
  - intros c. cbn [lengths_valid_prim Index.jsonc_value].
    destruct (usable_default _) eqn:Hd; [split; by eauto|].
    split; [|done]. intros _. by eexists.
  - intros c s n IHs _.
    destruct s as [l|].
    + rewrite jsonc_value_object. cbn [lengths_valid_prim].
      unfold rule_default. cbn [rule_common].
      destruct (usable_default (c_default c)) eqn:Hd; [split; by eauto|].
      cbn [orb from_option] in *.
      destruct (mapM_decide
                  (λ '(key, rule),
                   v ← Index._parseRuleToJsonc ui rule; Ok (key, v))
                  (λ kr, lengths_valid kr.2) RangeError l)
        as [Hok Hthrow].
      { eapply Forall_impl; [exact IHs|].
        intros [k x] [Hx1 Hx2]. cbn [snd] in *. split.
        - intros H. destruct (Hx1 H) as (v & -> & _). by eexists.
        - intros H. by rewrite (Hx2 H). }
      split.
      * intros H. destruct (Hok H) as [ys ->]. by eexists.
      * intros H. by rewrite (Hthrow H).
    + cbn [lengths_valid_prim Index.jsonc_value].
      destruct (usable_default _) eqn:Hd; [split; by eauto|].
      split; [|done]. intros _. by eexists.
  - intros c s n len _ IHn.
    rewrite jsonc_value_array. cbn [lengths_valid_prim].
    unfold rule_default. cbn [rule_common].
    destruct (usable_default (c_default c)) eqn:Hd; [split; by eauto|].
    cbn [orb]. unfold repeated_nested.
    destruct n as [n|]; [|split; [by eauto|done]].
    cbn [from_option] in IHn. destruct IHn as [Hok Hthrow].
    assert (∀ b : bool,
              b = match n with
                  | Single q => Index.not_container q
                  | Variants _ => true
                  end →
              ((if b then Index.valid_array_length (length_or_1 len)
                          && lengths_valid n else true) = true →
               ∃ v, match (if b then Some n else None) with
                    | Some n0 =>
                        if Index.valid_array_length (length_or_1 len)
                        then elem ← Index._parseRuleToJsonc ui n0;
                             Ok (JArr (replicate
                                         (Z.to_nat (length_or_1 len)) elem))
                        else Throw RangeError
                    | None => Ok (JArr [])
                    end = Ok v ∧ usable_default v = true) ∧
              ((if b then Index.valid_array_length (length_or_1 len)
                          && lengths_valid n else true) = false →
               match (if b then Some n else None) with
               | Some n0 =>
                   if Index.valid_array_length (length_or_1 len)
                   then elem ← Index._parseRuleToJsonc ui n0;
                        Ok (JArr (replicate
                                    (Z.to_nat (length_or_1 len)) elem))
                   else Throw RangeError
               | None => Ok (JArr [])
               end = Throw RangeError)) as Hb.
    { intros [|] _; [|split; [by eauto|done]].
      destruct (Index.valid_array_length _); [|split; [done|done]].
      cbn [andb]. split.
      - intros H. destruct (Hok H) as (v & -> & _). by eexists.
      - intros H. by rewrite (Hthrow H). }
    destruct n as [q|qs].
    + specialize (Hb (Index.not_container q) eq_refl).
      by destruct (Index.not_container q).
    + exact (Hb true eq_refl).
  - intros t c. cbn [lengths_valid_prim Index.jsonc_value].
    destruct (usable_default _) eqn:Hd; [split; by eauto|].
    split; [|done]. intros _. eexists. split; [done|].
    apply switch_untyped_usable.
Qed.



(** ** Where the two compilers agree *)

Lemma strip_pair (v : JsonData) (rest : list JsonData) :
  strip (JArr (v :: rest)) = strip (JArr [v]).
Proof. done. Qed.

Lemma strip_flat_default (d : JsonData) :
  flat_default d = true → strip (JArr [d]) = d.
Proof. by destruct d as [| | | | | |[|x l]|[|kv l]]. Qed.

Lemma switch_untyped_flat (t : option string) :
  flat_default (switch_untyped t) = true.
Proof. unfold switch_untyped. by repeat case_match. Qed.

Lemma mapM_alike (f g : ValidationRule → result JsonData)
    (l : list (string * ValidationRule)) :
  Forall (λ kr, ∃ pair, f kr.2 = Ok pair ∧ g kr.2 = Ok (strip pair)) l →
  ∃ ys, mapM (λ '(key, rule), v ← f rule; Ok (key, v)) l = Ok ys ∧
        mapM (λ '(key, rule), v ← g rule; Ok (key, v)) l
        = Ok (map (λ kv, (kv.1, strip kv.2)) ys).
Proof.
  induction 1 as [|[k r] l (pair & Hf & Hg) _ (ys & Hfs & Hgs)];
    [by exists []|].
  exists ((k, pair) :: ys). cbn [mapM snd] in *.
  rewrite Hf, Hg. cbn [mbind result_bind]. by rewrite Hfs, Hgs.
Qed.



(** ** Descriptions *)

Lemma trim_end_idempotent (s : string) : trim_end (trim_end s) = trim_end s.
Proof.
  induction s as [|c s IH]; [done|]. simpl.
  destruct (trim_end s) as [|d t] eqn:Ht.
  - destruct (is_js_space c) eqn:Hc; [done|]. simpl. by rewrite Hc.
  - simpl in *. by rewrite IH.
Qed.

Lemma trim_start_length (s : string) :
  (String.length (trim_start s) ≤ String.length s)%nat.
Proof.
  induction s as [|c s IH]; [done|]. simpl.
  destruct (is_js_space c); simpl; lia.
Qed.

Lemma trim_start_fixed (c : ascii) (s : string) :
  trim_start (String c s) = String c s → is_js_space c = false.
Proof.
  simpl. destruct (is_js_space c); [|done]. intros H.
  pose proof (trim_start_length s) as Hlen. rewrite H in Hlen. simpl in Hlen.
  lia.
Qed.

Lemma trim_start_idempotent (s : string) :
  trim_start (trim_start s) = trim_start s.
Proof.
  induction s as [|c s IH]; [done|]. simpl.
  destruct (is_js_space c) eqn:Hc; [done|]. simpl. by rewrite Hc.
Qed.

Lemma trim_start_trim_end (s : string) :
  trim_start s = s → trim_start (trim_end s) = trim_end s.
Proof.
  destruct s as [|c s]; [done|]. intros Hc%trim_start_fixed. simpl.
  destruct (trim_end s); rewrite ?Hc; simpl; by rewrite Hc.
Qed.

Lemma trim_idempotent (s : string) : trim (trim s) = trim s.
Proof.
  unfold trim.
  rewrite (trim_start_trim_end (trim_start s))
    by apply trim_start_idempotent.
  apply trim_end_idempotent.
Qed.



Lemma omap_not_container {A} (f g : PrimitiveRule → option A)
    (ds : list PrimitiveRule) :
  forallb Index.not_container ds = true →
  omap (λ d, if Index.not_container d then None
             else if Index.primitive_nested d then f d else g d) ds = [].
Proof.
  induction ds as [|d ds IH]; [done|]. simpl.
  intros [Hd Hds]%andb_prop. rewrite Hd. by apply IH.
Qed.



(** ** Request bodies *)

Lemma parseBody_text ui js bodyRule bodyType comments text :
  CollectionSchema.parseBody ui js bodyRule bodyType comments
  = Ok (CollectionSchema.TextBody text) →
  bodyType = Some "json" ∧
  ∃ rule data rest,
    bodyRule = Some rule ∧
    CollectionSchema.parseRuleToJsonData rule = Ok data ∧
    text = js data +:+ rest ∧
    (comments = false → rest = EmptyString).
Proof.
  unfold CollectionSchema.parseBody, type_is.
  destruct bodyRule as [rule|]; [|done].
  case_bool_decide as Hjson.
  - destruct (CollectionSchema.parseRuleToJsonData rule) as [data|] eqn:Hdata;
      [|done].
    cbn [mbind result_bind]. intros H. split; [done|].
    exists rule, data. destruct comments.
    + injection H as <-. eexists. by repeat split.
    + injection H as <-. exists EmptyString.
      repeat split; try done. by rewrite app_empty_r.
  - case_bool_decide as Hmulti; [|done].
    destruct (representative rule) as [[| | |c [body|] n| |]|]; try done.
    by destruct (mapM _ body).
Qed.

Lemma parseBody_fields ui js bodyRule bodyType comments fields :
  CollectionSchema.parseBody ui js bodyRule bodyType comments
  = Ok (CollectionSchema.FieldsBody fields) →
  bodyType = Some "multipart".
Proof.
  unfold CollectionSchema.parseBody, type_is.
  destruct bodyRule as [rule|]; [|done].
  case_bool_decide as Hjson.
  - destruct (CollectionSchema.parseRuleToJsonData rule) as [data|]; [|done].
    cbn [mbind result_bind]. by destruct comments.
  - by case_bool_decide.
Qed.

Lemma parseBody_none ui js bodyRule bodyType comments :
  bodyRule = None ∨ (bodyType ≠ Some "json" ∧ bodyType ≠ Some "multipart") →
  CollectionSchema.parseBody ui js bodyRule bodyType comments
  = Ok CollectionSchema.NoBody.
Proof.
  unfold CollectionSchema.parseBody, type_is.
  destruct bodyRule as [rule|]; [|done].
  intros [?|[Hj Hm]]; [done|]. by rewrite !bool_decide_eq_false_2.
Qed.

(** X16: the body [buildItems] gives a request item.  There is none, and
    no header, when the method is not one of POST, PUT, PATCH and DELETE,
    when the endpoint has no body rule, or when its body type is neither
    ['json'] nor ['multipart'].  A raw body belongs to a ['json'] endpoint,
    is not empty, comes with the [Content-Type] header and starts with
    [JSON.stringify] of the value compiled from the body rule; anything
    after that is there only when [commentsInJson] is [true].  A form-data
    body belongs to a ['multipart'] endpoint and comes without header. *)
Theorem function_body_follows_type
    (util_inspect JSON_stringify : JsonData → string)
    (e : BuiltEndpoint) (options : CollectionSchema.BuildCollectionOptions)
    (folders : list string) (leaf : Item) :
  CollectionSchema.endpoint_item util_inspect JSON_stringify e options
  = Ok (folders, leaf) →
  (has_body_method (e_method e) = false ∨ e_bodyRule e = None ∨
   (e_bodyType e ≠ Some "json" ∧ e_bodyType e ≠ Some "multipart") →
   r_body (i_request leaf) = None ∧ r_header (i_request leaf) = []) ∧
  (∀ raw,
     r_body (i_request leaf) = Some (RawBody raw) →
     has_body_method (e_method e) = true ∧ e_bodyType e = Some "json" ∧
     raw ≠ EmptyString ∧
     r_header (i_request leaf) = [content_type_json] ∧
     ∃ rule data rest,
       e_bodyRule e = Some rule ∧
       CollectionSchema.parseRuleToJsonData rule = Ok data ∧
       raw = JSON_stringify data +:+ rest ∧
       (CollectionSchema.commentsInJson options ≠ Some true →
        rest = EmptyString)) ∧
  (∀ fields,
     r_body (i_request leaf) = Some (FormdataBody fields) →
     has_body_method (e_method e) = true ∧
     e_bodyType e = Some "multipart" ∧
     r_header (i_request leaf) = []).
Proof.
  unfold CollectionSchema.endpoint_item. intros H.
  destruct (CollectionSchema.parseBody _ _ _ _ _) as [bodyData|] eqn:Hbody;
    [|done].
  cbn in H. injection H as <- <-. cbn [i_request r_body r_header].
  unfold CollectionSchema.body_envelope.
  destruct (has_body_method (e_method e)); [|by repeat split].
  split; [|split].
  - intros [?|Hnone]; [done|].
    rewrite parseBody_none in Hbody by done. by injection Hbody as <-.
  - intros raw Hraw. destruct bodyData as [|text|fields]; [done| |done].
    destruct (String.eqb text EmptyString) eqn:Ht; [done|].
    injection Hraw as ->. apply parseBody_text in Hbody
      as (Hjson & rule & data & rest & Hrule & Hdata & -> & Hrest).
    repeat split; [done| |].
    { intros Heq. by rewrite Heq in Ht. }
    exists rule, data, rest. repeat split; try done.
    intros Hc. apply Hrest.
    by destruct (CollectionSchema.commentsInJson options) as [[|]|].
  - intros fields' Hf. destruct bodyData as [|text|fields]; [done| |].
    { by destruct (String.eqb text EmptyString). }
    apply parseBody_fields in Hbody. by repeat split.
Qed.

Lemma function_body_follows_type_witness :
  ∃ folders leaf,
    CollectionSchema.endpoint_item inspect_one_line json_one_line post_login
      no_options = Ok (folders, leaf) ∧
    r_body (i_request leaf)
    = Some (RawBody (json_one_line
                       (JObj [("user", JStr EmptyString);
                              ("remember", JBool false)]))) ∧
    r_header (i_request leaf) = [content_type_json].
Proof.
  assert (∃ fl, CollectionSchema.endpoint_item inspect_one_line json_one_line
                  post_login no_options = Ok fl) as [[folders leaf] H]
    by (eexists; vm_compute; reflexivity).
  exists folders, leaf. split; [done|].
  pose proof (function_body_follows_type inspect_one_line json_one_line
                post_login no_options folders leaf H) as (_ & Hraw & _).
  assert (r_body (i_request leaf)
          = Some (RawBody (json_one_line
                             (JObj [("user", JStr EmptyString);
                                    ("remember", JBool false)])))) as Hbody.
  { vm_compute in H. by injection H as <- <-. }
  split; [done|]. by destruct (Hraw _ Hbody) as (_ & _ & _ & Hheader & _).
Defined.

Lemma body_envelope_or_empty (method : string) (parsed : Index.BodyData) :
  Index.body_envelope method (Index.or_empty_object parsed) =
  if has_body_method method then
    Some match parsed with
         | Index.NoBody => RawBody "{}"
         | Index.TextBody text =>
             if String.eqb text EmptyString then RawBody "{}"
             else RawBody text
         | Index.FieldsBody fields => FormdataBody fields
         end
  else None.
Proof.
  unfold Index.body_envelope. destruct (has_body_method method); [|done].
  destruct parsed as [|text|fields]; cbn; [done| |done].
  destruct (String.eqb text EmptyString) eqn:Ht; cbn; [done|].
  by rewrite Ht.
Qed.

Lemma _parseBody_fields ui body bodyType fields :
  Index._parseBody ui body bodyType = Ok (Index.FieldsBody fields) →
  bodyType = Some "multipart" ∧ is_Some body.
Proof.
  unfold Index._parseBody, type_is. destruct body as [body|]; [|done].
  case_bool_decide as Hjson.
  { destruct (mapM _ body) as [out|]; [|done]. cbn [mbind result_bind].
    by destruct (Index._stringifyJsonc (JArr [JObj out]) true 0). }
  case_bool_decide as Hmulti; [done|done].
Qed.

Lemma _parseBody_none ui body bodyType :
  body = None ∨ (bodyType ≠ Some "json" ∧ bodyType ≠ Some "multipart") →
  Index._parseBody ui body bodyType = Ok Index.NoBody.
Proof.
  unfold Index._parseBody, type_is. destruct body as [body|]; [|done].
  intros [?|[Hj Hm]]; [done|]. by rewrite !bool_decide_eq_false_2.
Qed.

(** X17: the body [addEndpoints] of the class gives a request item.
    There is a body exactly for the methods POST, PUT, PATCH and DELETE.
    A raw body is never the empty text; a form-data body belongs to a
    ['multipart'] endpoint that has a body schema; and where the endpoint
    has no body schema, or a body type that is neither ['json'] nor
    ['multipart'], the body of such a method is the raw text ["{}"]. *)
Theorem class_body_follows_method (util_inspect : JsonData → string)
    (authorization : option (BuiltEndpoint → option Auth))
    (e : BuiltEndpoint) (folders : list string) (leaf : Item) :
  Index.endpoint_item util_inspect authorization e = Ok (folders, leaf) →
  (has_body_method (e_method e) = false ↔ r_body (i_request leaf) = None) ∧
  (∀ raw, r_body (i_request leaf) = Some (RawBody raw) → raw ≠ EmptyString) ∧
  (∀ fields,
     r_body (i_request leaf) = Some (FormdataBody fields) →
     e_bodyType e = Some "multipart" ∧ is_Some (e_body e)) ∧
  (has_body_method (e_method e) = true →
   e_body e = None ∨
   (e_bodyType e ≠ Some "json" ∧ e_bodyType e ≠ Some "multipart") →
   r_body (i_request leaf) = Some (RawBody "{}")).
Proof.
  unfold Index.endpoint_item. intros H.
  destruct (Index._parseBody util_inspect (e_body e) (e_bodyType e))
    as [parsed|] eqn:Hparsed; [|done].
  cbn in H. injection H as <- <-. cbn [i_request r_body].
  rewrite body_envelope_or_empty.
  destruct (has_body_method (e_method e)).
  - split; [done|]. split; [|split].
    + intros raw. destruct parsed as [|text|fields].
      * by intros [= <-].
      * destruct (String.eqb text EmptyString) eqn:Ht.
        -- by intros [= <-].
        -- intros [= <-] ->. done.
      * done.
    + intros fields'. destruct parsed as [|text|fields]; [done| |].
      { by destruct (String.eqb text EmptyString). }
      intros _. by eapply _parseBody_fields.
    + intros _ Hnone. rewrite _parseBody_none in Hparsed by done.
      by injection Hparsed as <-.
  - done.
Qed.

Lemma class_body_follows_method_witness :
  ∃ folders leaf,
    Index.endpoint_item inspect_one_line None
      {| e_path := "/users"; e_method := "DELETE"; e_param := [];
         e_paramOrder := []; e_query := None; e_bodyRule := None;
         e_body := None; e_bodyType := None |} = Ok (folders, leaf) ∧
    r_body (i_request leaf) = Some (RawBody "{}").
Proof.
  assert (∃ fl, Index.endpoint_item inspect_one_line None
                  {| e_path := "/users"; e_method := "DELETE"; e_param := [];
                     e_paramOrder := []; e_query := None; e_bodyRule := None;
                     e_body := None; e_bodyType := None |} = Ok fl)
    as [[folders leaf] H] by (eexists; vm_compute; reflexivity).
  exists folders, leaf. split; [done|].
  apply (class_body_follows_method inspect_one_line None _ folders leaf H);
    [reflexivity|by left].
Defined.

(** ** Multipart bodies *)

Lemma mapM_fields (field : string → ValidationRule → result Formdata)
    (body : ValidationSchema) :
  (∀ key value,
     match representative value with
     | Some rule =>
         ∃ f, field key value = Ok f ∧ field_key f = key ∧
              is_file f = type_is (rule_type rule) "object"
     | None => field key value = Throw TypeError
     end) →
  (forallb (λ kr, has_representative kr.2) body = true →
   ∃ fields,
     mapM (λ '(key, value), field key value) body = Ok fields ∧
     map field_key fields = body.*1 ∧
     map is_file fields = map (λ kr, object_typed kr.2) body) ∧
  (forallb (λ kr, has_representative kr.2) body = false →
   mapM (λ '(key, value), field key value) body = Throw TypeError).
Proof.
  intros Hfield. induction body as [|[key value] body [IHok IHthrow]].
  - split; [|done]. intros _. by exists [].
  - cbn [forallb mapM snd]. specialize (Hfield key value).
    destruct (representative value) as [rule|] eqn:Hrep.
    + assert (has_representative value = true) as ->
        by (unfold has_representative; by rewrite Hrep).
      assert (object_typed value = type_is (rule_type rule) "object") as Hobj
        by (unfold object_typed; by rewrite Hrep).
      destruct Hfield as (f & -> & Hkey & Hfile). cbn [mbind result_bind andb].
      split.
      * intros Hall. destruct (IHok Hall) as (fields & -> & Hkeys & Hfiles).
        exists (f :: fields). split; [done|].
        cbn [map fmap list_fmap fst snd] in *.
        by rewrite Hkey, Hfile, Hkeys, Hfiles, Hobj.
      * intros Hall. by rewrite (IHthrow Hall).
    + assert (has_representative value = false) as ->
        by (unfold has_representative; by rewrite Hrep).
      rewrite Hfield. done.
Qed.



(** ** What the serializer raises *)

Lemma mapM_from_no_RangeError {A B} (f : nat → A → result B) (i : nat)
    (l : list A) :
  Forall (λ x, ∀ j, f j x ≠ Throw RangeError) l →
  mapM_from f i l ≠ Throw RangeError.
Proof.
  intros H. revert i. induction H as [|x l Hx _ IH]; intros i; [done|].
  cbn [mapM_from]. specialize (Hx i). specialize (IH (S i)).
  destruct (f i x) as [y|[]]; [|done|done]. cbn [mbind result_bind].
  by destruct (mapM_from f (S i) l) as [ys|[]].
Qed.

Lemma mapM_from_TypeError {A B} (f : nat → A → result B) (i : nat)
    (l : list A) :
  Forall (λ x, ∀ j, f j x ≠ Throw RangeError) l →
  Exists (λ x, ∀ j, f j x = Throw TypeError) l →
  mapM_from f i l = Throw TypeError.
Proof.
  intros H. revert i. induction H as [|x l Hx Hl IH]; intros i Hex.
  - by apply Exists_nil in Hex.
  - cbn [mapM_from]. apply Exists_cons in Hex as [Hthrow|Hex].
    + by rewrite Hthrow.
    + specialize (Hx i). destruct (f i x) as [y|[]]; [|done|done].
      cbn [mbind result_bind]. by rewrite (IH (S i) Hex).
Qed.

Lemma serializer_no_RangeError (data : JsonData) :
  (∀ last indent,
     Index._stringifyJsonc data last indent ≠ Throw RangeError) ∧
  (∀ comment indent,
     Index.switch_value data comment indent ≠ Throw RangeError).
Proof.
  induction data as [| |b|n|s|source|elems IH|props IH] using json_ind;
    try (split; intros; done).
  - split.
    + intros last indent. destruct elems as [|value rest]; [done|].
      rewrite _stringifyJsonc_pair. apply Forall_cons in IH as [[_ IH] _].
      apply IH.
    + intros comment indent. rewrite switch_value_array.
      match goal with
      | |- context [mapM_from ?f 0%nat elems] =>
          pose proof (mapM_from_no_RangeError f 0%nat elems) as Hparts;
          destruct (mapM_from f 0%nat elems) as [parts|[]]; try done
      end.
      exfalso. apply Hparts; [|done].
      eapply Forall_impl; [exact IH|]. intros v [Hv _] j. cbn beta.
      specialize (Hv (bool_decide (Z.of_nat (length elems) - 1 = Z.of_nat j))
                    indent).
      by destruct (Index._stringifyJsonc v _ indent) as [t|[]].
  - split.
    + intros last indent. unfold Index._stringifyJsonc, Index.stringify_with.
      generalize (Index.comment_of last (Index.get_prop "1" props)).
      intros comment. induction IH as [|[k v] ps [_ Hv] _ IHps]; [done|].
      cbn [fst snd] in *. destruct (String.eqb k "0"); [apply Hv|apply IHps].
    + intros comment indent. rewrite switch_value_object.
      match goal with
      | |- context [mapM_from ?f 0%nat props] =>
          pose proof (mapM_from_no_RangeError f 0%nat props) as Hparts;
          destruct (mapM_from f 0%nat props) as [parts|[]]; try done
      end.
      exfalso. apply Hparts; [|done].
      eapply Forall_impl; [exact IH|]. intros [k v] [Hv _] j. cbn [snd] in *.
      specialize (Hv (bool_decide (Z.of_nat (length props) - 1 = Z.of_nat j))
                    indent).
      by destruct (Index._stringifyJsonc v _ indent) as [t|[]].
Qed.

Lemma nullish_raises (v : JsonData) (last : bool) (indent : nat) :
  nullish v = true → Index._stringifyJsonc v last indent = Throw TypeError.
Proof. by destruct v. Qed.

Lemma holds_nullish_raises (d : JsonData) (comment : string) (indent : nat) :
  holds_nullish d = true →
  Index.switch_value d comment indent = Throw TypeError.
Proof.
  destruct d as [| | | | | |elems|props]; try done; cbn [holds_nullish];
    intros H.
  - rewrite switch_value_array.
    rewrite mapM_from_TypeError; [done| |].
    + apply Forall_forall. intros v _ j.
      pose proof (proj1 (serializer_no_RangeError v)
                    (bool_decide (Z.of_nat (length elems) - 1 = Z.of_nat j))
                    indent) as Hv.
      by destruct (Index._stringifyJsonc v _ indent) as [t|[]].
    + apply existsb_exists in H as (v & Hin & Hv). apply Exists_exists.
      exists v. split; [by apply list_elem_of_In|]. intros j.
      by rewrite nullish_raises.
  - rewrite switch_value_object.
    rewrite mapM_from_TypeError; [done| |].
    + apply Forall_forall. intros [k v] _ j. cbn [snd].
      pose proof (proj1 (serializer_no_RangeError v)
                    (bool_decide (Z.of_nat (length props) - 1 = Z.of_nat j))
                    indent) as Hv.
      by destruct (Index._stringifyJsonc v _ indent) as [t|[]].
    + apply existsb_exists in H as ([k v] & Hin & Hv). apply Exists_exists.
      exists (k, v). split; [by apply list_elem_of_In|]. intros j. cbn [snd] in *.
      by rewrite nullish_raises.
Qed.



(** ** The collection document *)

(** X20: [buildCollection] names the document, gives it the schema URL
    and builds its items with the options resolved: [commentsInJson] is
    [true] and [maxFolders] is 2 unless the caller has set them, also to
    [false] or to 0.  The caller's options hold the resolved values
    afterwards, and a second call with them builds the same document.
    With [maxFolders] at least 1 the root of the document holds folders
    only, none more than [maxFolders] folders deep. *)
Theorem buildCollection_resolves_options
    (util_inspect JSON_stringify : JsonData → string) (name : string)
    (endpoints : list BuiltEndpoint)
    (options options' : CollectionSchema.BuildCollectionOptions)
    (document : PostmanCollectionSchema) :
  CollectionSchema.buildCollection util_inspect JSON_stringify name endpoints options
  = (options', Ok document) →
  info_name document = name ∧
  info_schema document = collection_schema_url ∧
  CollectionSchema.commentsInJson options'
  = Some (default true (CollectionSchema.commentsInJson options)) ∧
  CollectionSchema.maxFolders options'
  = Some (default 2 (CollectionSchema.maxFolders options)) ∧
  CollectionSchema.buildItems util_inspect JSON_stringify endpoints options'
  = Ok (collection_item document) ∧
  (1 ≤ default 2 (CollectionSchema.maxFolders options) →
   forallb is_folder (collection_item document) = true ∧
   forallb (nests_within
              (Z.to_nat (default 2 (CollectionSchema.maxFolders options))))
     (collection_item document) = true) ∧
  CollectionSchema.buildCollection util_inspect JSON_stringify name endpoints options'
  = (options', Ok document).
Proof.
  unfold CollectionSchema.buildCollection. intros H. injection H as <- H.
  destruct (CollectionSchema.buildItems _ _ _ _) as [item|] eqn:Hitem;
    [|done].
  cbn [mbind result_bind] in H. injection H as <-.
  cbn [info_name info_schema collection_item CollectionSchema.commentsInJson
       CollectionSchema.maxFolders CollectionSchema.authorization
       default from_option].
  repeat split; try done.
  - refine (build_from_folders_root _ _ _ _ [] item _ eq_refl Hitem). done.
  - refine (build_from_nests_within _ _ _ _ [] item _ eq_refl Hitem).
    change (0 ≤ default 2 (CollectionSchema.maxFolders options)). lia.
Qed.

Lemma buildCollection_resolves_options_witness :
  ∃ options document,
    CollectionSchema.buildCollection inspect_one_line json_one_line "api"
      [get_orders; post_login] no_options = (options, Ok document) ∧
    CollectionSchema.commentsInJson options = Some true ∧
    CollectionSchema.maxFolders options = Some 2 ∧
    info_name document = "api" ∧
    forallb is_folder (collection_item document) = true.
Proof.
  assert (∃ od, CollectionSchema.buildCollection inspect_one_line
                  json_one_line "api" [get_orders; post_login] no_options
                = (od.1, Ok od.2)) as [[options document] H]
    by (eexists (_, _); vm_compute; reflexivity).
  exists options, document. split; [done|].
  destruct (buildCollection_resolves_options inspect_one_line json_one_line
              "api" [get_orders; post_login] no_options options document H)
    as (Hname & _ & Hcomments & Hmax & _ & Hroot & _).
  repeat split; try done. by apply Hroot.
Defined.

(** ** Writing the files *)

Lemma _collectionChanged_false stringify resolve this fs :
  Index._collectionChanged stringify resolve this fs
    (Index.files_collection this) = false
  ↔ fs !! resolve (Index.files_collection this)
    = Some (stringify (Index.CollectionDocument
                         (Index._collectionSchema this))).
Proof.
  unfold Index._collectionChanged, Index.existsSync, Index.readFileSync,
    Index._stringifyJson.
  destruct (fs !! resolve (Index.files_collection this)) as [text|].
  - rewrite bool_decide_eq_true_2 by by eexists. cbn [negb orb].
    rewrite negb_false_iff, bool_decide_eq_true. done.
  - rewrite bool_decide_eq_false_2 by by intros [? ?]. done.
Qed.

(** X21: a [generate] that returns [true] has found the collection file
    missing or with another text than the collection's, and leaves the
    environment file with the text of the environment document and every
    other file as it was.  When the two file names resolve to different
    files, the collection file then holds the text of the collection and
    [generate] run again returns [false] and writes nothing.  When they
    resolve to the same file and the two texts differ, that file holds the
    environment and [generate] run again returns [true] again. *)
Theorem generate_settles (JSON_stringify : Index.Document → string)
    (pathResolve : string → string) (this : Index.HttpPostmanBuilder)
    (fs fs' : Index.FileSystem) :
  Index.generate JSON_stringify pathResolve this fs = (true, fs') →
  let collection := pathResolve (Index.files_collection this) in
  let environment := pathResolve (Index.files_environment this) in
  let collection_text :=
    JSON_stringify (Index.CollectionDocument (Index._collectionSchema this)) in
  let environment_text :=
    JSON_stringify
      (Index.EnvironmentDocument (Index._environmentSchema this)) in
  fs !! collection ≠ Some collection_text ∧
  fs' !! environment = Some environment_text ∧
  (∀ path, path ≠ collection → path ≠ environment →
           fs' !! path = fs !! path) ∧
  (collection ≠ environment →
   fs' !! collection = Some collection_text ∧
   Index.generate JSON_stringify pathResolve this fs' = (false, fs')) ∧
  (collection = environment → collection_text ≠ environment_text →
   ∃ fs'', Index.generate JSON_stringify pathResolve this fs' = (true, fs'')).
Proof.
  unfold Index.generate. intros H. cbv zeta.
  destruct (Index._collectionChanged _ _ this fs _) eqn:Hchanged; [|done].
  cbn [negb] in H. injection H as <-.
  unfold Index._writeToFile, Index.writeFileSync, Index._stringifyJson,
    Index.FileSystem in *.
  split; [|split; [|split; [|split]]].
  - intros Hfs. apply _collectionChanged_false in Hfs. congruence.
  - apply lookup_insert_eq.
  - intros path Hc He. by rewrite !lookup_insert_ne.
  - intros Hne.
    assert (<[pathResolve (Index.files_environment this) :=
                JSON_stringify
                  (Index.EnvironmentDocument (Index._environmentSchema this))]>
              (<[pathResolve (Index.files_collection this) :=
                   JSON_stringify
                     (Index.CollectionDocument
                        (Index._collectionSchema this))]> fs)
              !! pathResolve (Index.files_collection this)
            = Some (JSON_stringify
                      (Index.CollectionDocument
                         (Index._collectionSchema this)))) as Hc.
    { rewrite lookup_insert_ne by done. apply lookup_insert_eq. }
    split; [done|].
    apply (_collectionChanged_false JSON_stringify pathResolve) in Hc.
    by rewrite Hc.
  - intros Heq Htext.
    match goal with
    | |- ∃ _, (if negb ?b then _ else _) = _ => destruct b eqn:Hb
    end; [by eexists|].
    apply _collectionChanged_false in Hb. unfold Index.FileSystem in *.
    rewrite Heq in Hb. rewrite lookup_insert_eq in Hb. congruence.
Qed.

Lemma generate_settles_witness :
  ∃ fs',
    Index.generate document_text id api_builder ∅ = (true, fs') ∧
    fs' !! "out/collection.json" = Some "collection api" ∧
    fs' !! "out/environment.json" = Some "environment api" ∧
    Index.generate document_text id api_builder fs' = (false, fs').
Proof.
  assert (∃ fs', Index.generate document_text id api_builder ∅ = (true, fs'))
    as [fs' H] by (eexists; reflexivity).
  exists fs'. split; [done|].
  destruct (generate_settles document_text id api_builder ∅ fs' H)
    as (_ & Henv & _ & Hsettled & _).
  destruct (Hsettled ltac:(done)) as [Hcoll Hagain].
  by repeat split.
Defined.
